(** * Lead-scoring training pipeline: [encode_features] and [get_trained_model]

    A shallow embedding of [Lead_scoring_training_pipeline/utils.py].  The
    two functions of the module orchestrate calls into pandas, sqlite3,
    scikit-learn, LightGBM and MLflow.  The embedding keeps the control flow
    of the source and models the library operations it calls on the data
    they are applied to:

    - a [DataFrame] is a row count (its [RangeIndex]) and an ordered list of
      named columns; a cell is SQL [NULL] (pandas [None]/[NaN]), an integer
      or a text;
    - the sqlite database is a finite map from table names to frames, each
      table as [read_sql] hands it over: a column of integers and [NULL]s is
      read as [float64], and an integer cell of such a column stands for the
      float that was read;
    - a Python exception is a value of [exn]; code that can raise returns
      [res];
    - the numeric libraries (metric formulas, the boosted-tree learner,
      numpy's random generators), the MLflow tracking service and the
      constants module, which the repository does not carry, are
      parameters: the two lists of [encode_features] are variables of its
      section, the rest are the classes [Libraries], [Tracking] and
      [Constants].  Every call of MLflow may raise.

    Cells of SQL type REAL and BLOB are outside the model. *)

From Stdlib Require Import ZArith String Ascii List Bool Lia.
From Stdlib Require OrderedTypeEx.
From stdpp Require Import base decidable option list strings pretty gmap.
From stdpp Require Import sorting.

Open Scope string_scope.
Open Scope list_scope.

(** ** Exceptions *)

Inductive exn :=
| KeyError          (* a label that is not in an axis *)
| ValueError        (* pandas / scikit-learn argument errors *)
| IndexError        (* an index out of bounds *)
| DatabaseError     (* pandas.read_sql on a table that does not exist *)
| OperationalError  (* sqlite3 rejecting a statement *)
| MlflowException.  (* the tracking service refusing a call *)

Inductive res (A : Type) :=
| Ok (a : A)
| Exn (e : exn).
Arguments Ok {A} a.
Arguments Exn {A} e.

Definition res_bind {A B} (m : res A) (k : A -> res B) : res B :=
  match m with
  | Ok a => k a
  | Exn e => Exn e
  end.

Notation "x <-! m ; k" := (res_bind m (fun x => k))
  (at level 100, m at next level, right associativity,
   format "x  <-!  m ;  '/' k").

(** ** Cells *)

Inductive value :=
| VNull
| VInt (z : Z)
| VText (s : string).

Global Instance value_eq_dec : EqDecision value.
Proof. solve_decision. Defined.

Definition isna (v : value) : bool :=
  match v with VNull => true | _ => false end.

(** Python's [str] on a cell that holds a Python object: an [int] or a
    [str] of a column of dtype [int64] or [object]. *)
Definition py_str (v : value) : string :=
  match v with
  | VNull => "nan"
  | VInt z => pretty z
  | VText s => s
  end.

(** *** Columns of dtype [float64]

    [read_sql] gives dtype [float64] to a column that holds integers and
    [NULL]s and no text: the integers become floats and [NULL] becomes
    [NaN].  A column without [NULL] keeps [int64], a column with a text is
    of dtype [object] and keeps its integers as Python [int]s, and a column
    of [NULL]s only is of dtype [object]. *)
Definition is_int (v : value) : bool :=
  match v with VInt _ => true | _ => false end.

Definition is_text (v : value) : bool :=
  match v with VText _ => true | _ => false end.

Definition reads_as_float64 (s : list value) : bool :=
  existsb isna s && existsb is_int s && negb (existsb is_text s).

(** The float64 nearest to an integer: 53 significant bits, ties to the
    even significand. *)
Definition to_float64 (z : Z) : Z :=
  let a := Z.abs z in
  let sh := (Z.log2 a - 52)%Z in
  if (sh <=? 0)%Z then z
  else
    let q := Z.shiftr a sh in
    let r := Z.land a (Z.ones sh) in
    let half := Z.shiftl 1 (sh - 1) in
    let q' := if (half <? r)%Z || ((r =? half)%Z && Z.odd q)
              then (q + 1)%Z else q in
    (Z.sgn z * Z.shiftl q' sh)%Z.

(** The number of decimal digits of a natural number. *)
Definition digits (a : Z) : Z := Z.of_nat (String.length (pretty a)).

(** The decimal of fewest significant digits that reads back as the float
    [a], and the nearest to [a] among those: tried with [k] significant
    digits, then [k + 1], and so on (17 always suffice). *)
Fixpoint shortest (fuel : nat) (k : Z) (a : Z) : Z :=
  match fuel with
  | O => a
  | S fuel' =>
      let p := (10 ^ (digits a - k))%Z in
      let lo := (a / p * p)%Z in
      let hi := (lo + p)%Z in
      let lo_ok := (to_float64 lo =? a)%Z in
      let hi_ok := (to_float64 hi =? a)%Z in
      if lo_ok && hi_ok then
        if (a - lo <? hi - a)%Z then lo
        else if (hi - a <? a - lo)%Z then hi
        else if Z.even (lo / p) then lo else hi
      else if lo_ok then lo
      else if hi_ok then hi
      else shortest fuel' (k + 1)%Z a
  end.

Fixpoint strip_zeros (fuel : nat) (m : Z) : Z :=
  match fuel with
  | O => m
  | S fuel' =>
      if (0 <? m)%Z && (m mod 10 =? 0)%Z then strip_zeros fuel' (m / 10)%Z
      else m
  end.

(** The scientific notation [d.ddde+XX] of a float of sixteen digits or
    more. *)
Definition scientific (a : Z) : string :=
  let c := shortest 17 1 a in
  let e := (digits c - 1)%Z in
  match pretty (strip_zeros (Z.to_nat (digits c)) c) with
  | EmptyString => EmptyString
  | String d EmptyString => String d ("e+" +:+ pretty e)
  | String d rest => String d ("." +:+ rest +:+ "e+" +:+ pretty e)
  end.

(** Python's [str] on the float64 that holds the integer [z]: [1.0],
    [-20.0], [1e+16], [1.2345678901234568e+17]. *)
Definition float_str (z : Z) : string :=
  let x := to_float64 z in
  if (Z.abs x <? 10 ^ 16)%Z then pretty x +:+ ".0"
  else if (x <? 0)%Z then "-" +:+ scientific (Z.abs x)
  else scientific x.

(** The f-string of [add_prefix] on a category of a column: the category
    of a [float64] column is a float. *)
Definition category_label (float64 : bool) (v : value) : string :=
  match v with
  | VInt z => if float64 then float_str z else py_str v
  | _ => py_str v
  end.

(** The order pandas sorts category values in: numbers before texts, numbers
    by value, texts by code point. *)
Definition value_leb (a b : value) : bool :=
  match a, b with
  | VNull, _ => true
  | _, VNull => false
  | VInt x, VInt y => (x <=? y)%Z
  | VInt _, VText _ => true
  | VText _, VInt _ => false
  | VText s, VText t => String.leb s t
  end.

Fixpoint insert_sorted (v : value) (l : list value) : list value :=
  match l with
  | [] => [v]
  | w :: l' => if value_leb v w then v :: l else w :: insert_sorted v l'
  end.

Definition sort_values (l : list value) : list value :=
  foldr insert_sorted [] l.

(** ** Frames *)

Abbreviation series := (list value).

Record frame := Frame {
  nrows : nat;
  cols : list (string * series)
}.

Global Instance frame_eq_dec : EqDecision frame.
Proof. solve_decision. Defined.

(** [df.columns] *)
Definition columns (df : frame) : list string := (cols df).*1.

(** [name in df.columns] *)
Definition has_column (name : string) (df : frame) : bool :=
  bool_decide (name ∈ columns df).

(** Every column has one cell per row. *)
Definition wf_frame (df : frame) : Prop :=
  Forall (fun c => length c.2 = nrows df) (cols df).

Global Instance wf_frame_dec df : Decision (wf_frame df).
Proof. unfold wf_frame. apply _. Defined.

(** [pd.DataFrame()] and [pd.DataFrame(columns=names)]: no rows. *)
Definition DataFrame (names : list string) : frame :=
  Frame 0 ((fun c => (c, [])) <$> names).

(** [df[name]]: the columns carrying that label, in order.  pandas hands
    back a Series when there is exactly one and a DataFrame otherwise. *)
Definition getitem (df : frame) (name : string) : list series :=
  (filter (fun c => c.1 = name) (cols df)).*2.

(** [df[name]] on a frame read from SQL, whose column names are distinct:
    the one series with that label. *)
Definition column (df : frame) (name : string) : series :=
  default [] (head (getitem df name)).

(** Conforming a series to a [RangeIndex] of [n] rows: positions the series
    lacks are missing, positions beyond [n] are dropped. *)
Definition reindex (n : nat) (s : series) : series :=
  take n (s ++ replicate n VNull).

Definition reindex_cols (n : nat) (cs : list (string * series))
  : list (string * series) :=
  (fun c => (c.1, reindex n c.2)) <$> cs.

(** [DataFrame._ensure_valid_index]: a frame with an empty index takes the
    index of the first non-empty value assigned into it. *)
Definition ensure_valid_index (df : frame) (n : nat) : frame :=
  if ((nrows df =? 0) && (0 <? n))%nat then Frame n (reindex_cols n (cols df))
  else df.

(** Assigning series [s] to every column of [cs] labelled [name]. *)
Definition set_all (name : string) (s : series) (cs : list (string * series))
  : list (string * series) :=
  (fun c => if decide (c.1 = name) then (c.1, s) else c) <$> cs.

(** Assigning the series [ss], in order, to the columns labelled [name]. *)
Fixpoint set_each (name : string) (ss : list series)
    (cs : list (string * series)) : list (string * series) :=
  match cs with
  | [] => []
  | c :: cs' =>
      if decide (c.1 = name) then
        match ss with
        | s :: ss' => (c.1, s) :: set_each name ss' cs'
        | [] => c :: cs'
        end
      else c :: set_each name ss cs'
  end.

(** [df[name] = src[name]] where [src] has [n] rows and [vals] are the
    columns of [src] labelled [name].  One series is broadcast to every
    column labelled [name] (appended when there is none); a sub-frame must
    have as many columns as [df] has under that label. *)
Definition setitem (df : frame) (name : string) (n : nat) (vals : list series)
  : res frame :=
  let df' := ensure_valid_index df n in
  let m := nrows df' in
  match vals with
  | [s] =>
      if has_column name df'
      then Ok (Frame m (set_all name (reindex m s) (cols df')))
      else Ok (Frame m (cols df' ++ [(name, reindex m s)]))
  | _ =>
      if (length (getitem df' name) =? length vals)%nat
      then Ok (Frame m (set_each name (reindex m <$> vals) (cols df')))
      else Exn ValueError
  end.

(** [pd.get_dummies(s)]: one indicator column per distinct non-null value of
    [s], in sorted order, labelled by the value. *)
Definition categories (s : series) : list value :=
  sort_values (remove_dups (filter (fun v => isna v = false) s)).

Definition indicator (v : value) (s : series) : series :=
  (fun x => if decide (x = v) then VInt 1 else VInt 0) <$> s.

(** [pd.get_dummies(s).add_prefix(prefix)] *)
Definition get_dummies_prefixed (prefix : string) (s : series) : frame :=
  Frame (length s)
        ((fun v => (prefix +:+ category_label (reads_as_float64 s) v,
                    indicator v s)) <$> categories s).

(** [pd.concat([a, b], axis=1)]: the union of the two row indexes, the
    columns of [a] followed by those of [b]. *)
Definition concat_axis1 (a b : frame) : frame :=
  let n := max (nrows a) (nrows b) in
  Frame n (reindex_cols n (cols a) ++ reindex_cols n (cols b)).

(** [df.fillna(0)] *)
Definition fill0 (v : value) : value :=
  if isna v then VInt 0 else v.

Definition fillna0 (df : frame) : frame :=
  Frame (nrows df)
        ((fun c : string * series => (c.1, fill0 <$> c.2)) <$> cols df).

(** [df.drop(name, axis=1)] *)
Definition drop_column (name : string) (df : frame) : res frame :=
  if has_column name df
  then Ok (Frame (nrows df) (filter (fun c => c.1 ≠ name) (cols df)))
  else Exn KeyError.

(** [df[name]] as the object that is handed to [to_sql]. *)
Definition select (df : frame) (name : string) : res frame :=
  if has_column name df
  then Ok (Frame (nrows df) (filter (fun c => c.1 = name) (cols df)))
  else Exn KeyError.

(** ** The sqlite store *)

(** sqlite compares identifiers without regard to ASCII case. *)
Definition lower_ascii (a : ascii) : ascii :=
  let n := nat_of_ascii a in
  if ((65 <=? n) && (n <=? 90))%nat then ascii_of_nat (n + 32) else a.

Fixpoint sql_fold (s : string) : string :=
  match s with
  | EmptyString => EmptyString
  | String a s' => String (lower_ascii a) (sql_fold s')
  end.

Fixpoint has_nul (s : string) : bool :=
  match s with
  | EmptyString => false
  | String a s' => (nat_of_ascii a =? 0)%nat || has_nul s'
  end.

(** pandas refuses an empty identifier and one that holds a NUL. *)
Definition valid_sqlite_name (s : string) : bool :=
  negb (String.eqb s "") && negb (has_nul s).

(** The column names with which a table can be written: pandas accepts
    each of them, and [CREATE TABLE] gets at least one column and no two
    columns that share a name. *)
Definition sql_writable (names : list string) : bool :=
  negb (bool_decide (names = []))
  && forallb valid_sqlite_name names
  && bool_decide (NoDup (sql_fold <$> names)).

(** [pd.read_sql('SELECT * from <table>', conn)]: the store holds each
    table as the frame pandas reads from it. *)
Definition read_sql (table : string) (conn : gmap string frame) : res frame :=
  match conn !! table with
  | Some df => Ok df
  | None => Exn DatabaseError
  end.

(** [df.to_sql(table, conn, if_exists='replace', index=False)], with the
    database it leaves behind.  pandas first builds the [CREATE TABLE]
    statement and raises [ValueError] on a column name it refuses; then it
    drops the table of that name if there is one, which sqlite commits at
    once; then it creates the table and inserts the rows.  A [CREATE
    TABLE] that sqlite rejects therefore leaves the database without the
    table. *)
Definition to_sql (table : string) (df : frame) (conn : gmap string frame)
  : res unit * gmap string frame :=
  if negb (forallb valid_sqlite_name (columns df)) then (Exn ValueError, conn)
  else if sql_writable (columns df) then (Ok tt, <[table := df]> conn)
  else (Exn OperationalError, delete table conn).

(** ** What a call does *)

Inductive outcome :=
| Finished                (* falls off the end of the function *)
| Returned (df : frame)   (* [return df] *)
| Raised (e : exn).       (* an exception leaves the function *)

Record run := Run {
  result : outcome;
  printed : list string;
  database : gmap string frame
}.

(** ** [encode_features] *)

Definition label : string := "app_complete_flag".

Section Encoder.

(** [Lead_scoring_training_pipeline.constants] *)
Variable ONE_HOT_ENCODED_FEATURES : list string.
Variable FEATURES_TO_ENCODE : list string.

(** The first loop.  [None] is the [else] branch: the feature is not a
    column of the input. *)
Fixpoint encode_loop (df : frame) (features : list string)
    (placeholder_df : frame) : option frame :=
  match features with
  | [] => Some placeholder_df
  | feature :: rest =>
      if has_column feature df then
        let encoded :=
          get_dummies_prefixed (feature +:+ "_") (column df feature) in
        encode_loop df rest (concat_axis1 placeholder_df encoded)
      else None
  end.

(** The body of the second loop: two independent [if] statements. *)
Definition copy_feature (df placeholder_df encoded_df : frame)
    (feature : string) : res frame :=
  encoded_df <-!
    (if has_column feature df
     then setitem encoded_df feature (nrows df) (getitem df feature)
     else Ok encoded_df);
  if has_column feature placeholder_df
  then setitem encoded_df feature (nrows placeholder_df)
               (getitem placeholder_df feature)
  else Ok encoded_df.

(** The second loop, over [encoded_df.columns]. *)
Fixpoint assemble (df placeholder_df : frame) (names : list string)
    (encoded_df : frame) : res frame :=
  match names with
  | [] => Ok encoded_df
  | feature :: rest =>
      encoded_df <-! copy_feature df placeholder_df encoded_df feature;
      assemble df placeholder_df rest encoded_df
  end.

(** The frame the second loop leaves behind, before [fillna]. *)
Definition assembled (df placeholder_df : frame) : res frame :=
  assemble df placeholder_df ONE_HOT_ENCODED_FEATURES
           (DataFrame ONE_HOT_ENCODED_FEATURES).

(** [fillna], [drop] and the selection of the label. *)
Definition split_frame (encoded_df : frame) : res (frame * frame) :=
  let encoded_df := fillna0 encoded_df in
  features <-! drop_column label encoded_df;
  target <-! select encoded_df label;
  Ok (features, target).

Definition encode_features (conn : gmap string frame) : run :=
  match read_sql "model_input" conn with
  | Exn e => Run (Raised e) [] conn
  | Ok df =>
      match encode_loop df FEATURES_TO_ENCODE (DataFrame []) with
      | None => Run (Returned df) ["Feature not found"] conn
      | Some placeholder_df =>
          match (encoded_df <-! assembled df placeholder_df;
                 split_frame encoded_df) with
          | Exn e => Run (Raised e) [] conn
          | Ok (features, target) =>
              match to_sql "features" features conn with
              | (Exn e, conn1) => Run (Raised e) [] conn1
              | (Ok _, conn1) =>
                  match to_sql "target" target conn1 with
                  | (Exn e, conn2) => Run (Raised e) [] conn2
                  | (Ok _, conn2) => Run Finished [] conn2
                  end
              end
          end
      end
  end.

End Encoder.

(** The end-to-end scenario of the specification. *)
Definition scenario_input : frame :=
  Frame 2 [("city", [VText "A"; VText "B"]);
           ("source", [VText "X"; VText "Y"]);
           (label, [VInt 1; VInt 0])].

Definition scenario_schema : list string :=
  ["city_A"; "city_B"; "source_X"; "source_Y"; label].

Definition scenario_store : gmap string frame :=
  {[ "model_input" := scenario_input ]}.

(** ** scikit-learn on label vectors *)

(** [np.unique]: the distinct labels, sorted. *)
Definition unique (y : list value) : list value :=
  sort_values (remove_dups y).

(** [confusion_matrix(y_true, y_pred)]: rows are the true labels, columns
    the predicted ones, both over the sorted labels that occur in either
    vector; cell [i][j] counts the samples whose true label is the [i]-th
    and whose predicted label is the [j]-th. *)
Definition count_pairs (a b : value) (y_true y_pred : list value) : Z :=
  Z.of_nat (length (filter (fun p => p = (a, b)) (zip y_true y_pred))).

Definition confusion_matrix (y_true y_pred : list value) : list (list Z) :=
  let labels := unique (y_true ++ y_pred) in
  (fun a => (fun b => count_pairs a b y_true y_pred) <$> labels) <$> labels.

(** [m[i][j]] *)
Definition cell (m : list (list Z)) (i j : nat) : res Z :=
  match m !! i with
  | None => Exn IndexError
  | Some row =>
      match row !! j with
      | None => Exn IndexError
      | Some z => Ok z
      end
  end.

(** [to_numpy().reshape(-1)]: the cells of a frame, row after row. *)
Definition row (df : frame) (i : nat) : list value :=
  (fun c : string * series => default VNull (c.2 !! i)) <$> cols df.

Definition to_numpy_flat (df : frame) : list value :=
  flat_map (row df) (seq 0 (nrows df)).

(** Positional selection of rows and of labels. *)
Definition take_rows (idx : list nat) (df : frame) : frame :=
  Frame (length idx)
        ((fun c : string * series =>
            (c.1, (fun i => default VNull (c.2 !! i)) <$> idx)) <$> cols df).

Definition take_labels (idx : list nat) (y : list value) : list value :=
  (fun i => default VNull (y !! i)) <$> idx.

(** ** [get_trained_model] *)

(** The libraries [get_trained_model] calls into: numpy's random
    generators, the LightGBM learner and the metric formulas of
    scikit-learn (their first argument is [y_true], the second [y_pred] or
    [y_score]).  [real] stands for the floating-point numbers the metrics
    return; [rng] is the state of a numpy [RandomState], [seeded s] the
    state of [RandomState(s)], and [shuffle g n] is [g.permutation(n)]
    together with the state it leaves the generator in. *)
Class Libraries := {
  real : Type;
  params : Type;
  classifier : Type;
  rng : Type;
  seeded : Z -> rng;
  shuffle : rng -> nat -> list nat * rng;
  fit : params -> frame -> list value -> res classifier;
  predict : classifier -> frame -> res (list value);
  accuracy : list value -> list value -> res real;
  area_under_curve : list value -> list value -> res real;
  macro_precision : list value -> list value -> res real;
  macro_recall : list value -> list value -> res real;
  macro_f1 : list value -> list value -> res real;
  binary_prfs : value -> list value -> list value -> res (real * real * real)
}.

(** [Lead_scoring_training_pipeline.constants], as far as the trainer
    reads it. *)
Class Constants `{Libraries} := {
  model_config : params;
  TRACKING_URI : string;
  EXPERIMENT : string
}.

Section Events.

Context `{L : Libraries}.

Inductive metric_fn :=
| accuracy_score
| roc_auc_score
| confusion_matrix_fn
| precision_score
| recall_score
| f1_score
| precision_recall_fscore_support (pos_label : value).

Inductive scalar :=
| SReal (r : real)
| SInt (z : Z).

(** What the function does to the outside, in order: its calls of MLflow
    ([End_run] is the call the [with] statement makes when its block is
    left), its calls of metric functions, and what it prints. *)
Inductive event :=
| Set_tracking_uri (uri : string)
| Set_experiment (name : string)
| Start_run
| End_run (status : string)
| Log_model (artifact_path registered_model_name : string)
| Log_params (config : params)
| Metric_call (f : metric_fn) (first second : list value)
| Log_metric (key : string) (v : scalar)
| Print (line : string).

End Events.

(** The MLflow tracking service.  A call finds the service in a state and
    is either accepted ([None]) or raises; either way it leaves the service
    in a state.  [run_uuid] is the identifier of the run that is active in a
    state, the one the last accepted [start_run] opened. *)
Class Tracking `{Libraries} := {
  server : Type;
  mlflow : event -> server -> option exn * server;
  run_uuid : server -> string
}.

Section Trainer.

Context `{L : Libraries} `{C : !Constants} `{T : !Tracking}.

(** What a call of [get_trained_model] works on besides the database: the
    tracking service, numpy's global generator, and the events so far. *)
Record world := World {
  service : server;
  numpy : rng;
  sent : list event
}.

(** A computation that acts on the world and may raise. *)
Definition M (A : Type) : Type := world -> res A * world.

Definition ret {A} (a : A) : M A := fun w => (Ok a, w).

Definition bind {A B} (m : M A) (k : A -> M B) : M B :=
  fun w =>
    match m w with
    | (Ok a, w') => k a w'
    | (Exn e, w') => (Exn e, w')
    end.

Definition lift {A} (r : res A) : M A := fun w => (r, w).

(** A call of MLflow: an accepted call is recorded, a refused one raises. *)
Definition emit (e : event) : M unit :=
  fun w =>
    match mlflow e (service w) with
    | (None, st) => (Ok tt, World st (numpy w) (sent w ++ [e])%list)
    | (Some x, st) => (Exn x, World st (numpy w) (sent w))
    end.

(** [print] *)
Definition say (line : string) : M unit :=
  fun w => (Ok tt, World (service w) (numpy w) (sent w ++ [Print line])%list).

(** A call of a metric function: the call is recorded, then its result (or
    its exception) comes back. *)
Definition call {A} (f : metric_fn) (first second : list value)
    (r : res A) : M A :=
  fun w =>
    (r, World (service w) (numpy w)
              (sent w ++ [Metric_call f first second])%list).

(** A computation on numpy's global generator. *)
Definition with_numpy {A} (f : rng -> res A * rng) : M A :=
  fun w => let '(r, g) := f (numpy w) in (r, World (service w) g (sent w)).

(** [mlflow.start_run()]: the run that was opened, by its identifier. *)
Definition start_run : M string :=
  fun w =>
    match emit Start_run w with
    | (Ok _, w') => (Ok (run_uuid (service w')), w')
    | (Exn x, w') => (Exn x, w')
    end.

(** [ActiveRun.__exit__]: the run is ended, as finished when the block
    ended normally and as failed when it raised; then the outcome of the
    block goes on, unless ending the run raises itself. *)
Definition exit_status {A} (r : res A) : string :=
  match r with Ok _ => "FINISHED" | Exn _ => "FAILED" end.

Definition exit_run {A} (r : res A) : M A :=
  fun w =>
    match emit (End_run (exit_status r)) w with
    | (Ok _, w') => (r, w')
    | (Exn y, w') => (Exn y, w')
    end.

(** [with <run>: body] *)
Definition with_run {A} (body : M A) : M A :=
  fun w => let '(r, w') := body w in exit_run r w'.

Notation "x <- m ;; k" := (bind m (fun x => k))
  (at level 100, m at next level, right associativity).
Notation "m ;;; k" := (bind m (fun _ => k))
  (at level 100, right associativity).

(** [RandomState(seed).permutation(n)] *)
Definition permutation (seed : Z) (n : nat) : list nat :=
  (shuffle (seeded seed) n).1.

(** [roc_auc_score(y_true, y_score)]: undefined, and an error, unless
    [y_true] holds exactly two classes. *)
Definition roc_auc (y_true y_score : list value) : res real :=
  if (length (unique y_true) =? 2)%nat
  then area_under_curve y_true y_score
  else Exn ValueError.

(** [train_test_split(X, y, test_size=num/den, random_state=...)]: the
    test partition takes the first [ceil(n * num / den)] positions of a
    permutation of the positions, the train partition the rest.  An integer
    [random_state] seeds a generator of its own for the permutation; with
    [None] the permutation is drawn from numpy's global generator [g], which
    moves on. *)
Definition split_indices (n num den : nat) (random_state : option Z) (g : rng)
  : res (list nat * list nat) * rng :=
  let n_test := ((n * num + den - 1) / den)%nat in
  let n_train := (n - n_test)%nat in
  if (n_train =? 0)%nat then (Exn ValueError, g)
  else
    let '(p, g') :=
      match random_state with
      | Some seed => (permutation seed n, g)
      | None => shuffle g n
      end in
    (Ok (take n_train (drop n_test p), take n_test p), g').

Definition train_test_split (X : frame) (y : list value) (num den : nat)
    (random_state : option Z) (g : rng)
  : res (frame * frame * list value * list value) * rng :=
  if negb (length y =? nrows X)%nat then (Exn ValueError, g)
  else
    match split_indices (nrows X) num den random_state g with
    | (Ok idx, g') =>
        (Ok (take_rows idx.1 X, take_rows idx.2 X,
             take_labels idx.1 y, take_labels idx.2 y), g')
    | (Exn e, g') => (Exn e, g')
    end.

(** The two reads and the split that open the function. *)
Definition load_and_split (conn : gmap string frame) (g : rng)
  : res (frame * frame * list value * list value) * rng :=
  match read_sql "features" conn with
  | Exn e => (Exn e, g)
  | Ok df_features =>
      match read_sql "target" conn with
      | Exn e => (Exn e, g)
      | Ok df_target =>
          train_test_split df_features (to_numpy_flat df_target) 3 10
                           (Some 0%Z) g
      end
  end.

(** The four partitions the function works with. *)
Definition partition (conn : gmap string frame) (g : rng)
  : res (frame * frame * list value * list value) :=
  (load_and_split conn g).1.

(** The statements under [#Log metrics]: the metric computations, then
    the thirteen [mlflow.log_metric] calls. *)
Definition evaluate (y_pred y_test : list value) : M unit :=
  acc <- call accuracy_score y_pred y_test (accuracy y_pred y_test);;
  auc_score <- call roc_auc_score y_pred y_test (roc_auc y_pred y_test);;
  conf_mat <- call confusion_matrix_fn y_pred y_test
                   (Ok (confusion_matrix y_pred y_test));;
  precision <- call precision_score y_pred y_test
                    (macro_precision y_pred y_test);;
  recall <- call recall_score y_pred y_test (macro_recall y_pred y_test);;
  f1 <- call f1_score y_pred y_test (macro_f1 y_pred y_test);;
  cm <- call confusion_matrix_fn y_test y_pred
             (Ok (confusion_matrix y_test y_pred));;
  tn <- lift (cell cm 0 0);;
  fn <- lift (cell cm 1 0);;
  tp <- lift (cell cm 1 1);;
  fp <- lift (cell cm 0 1);;
  class_zero <- call (precision_recall_fscore_support (VInt 0)) y_test y_pred
                     (binary_prfs (VInt 0) y_test y_pred);;
  class_one <- call (precision_recall_fscore_support (VInt 1)) y_test y_pred
                    (binary_prfs (VInt 1) y_test y_pred);;
  emit (Log_metric "roc_auc_score" (SReal auc_score));;;
  emit (Log_metric "test_accuracy" (SReal acc));;;
  emit (Log_metric "f1" (SReal f1));;;
  emit (Log_metric "Precision" (SReal precision));;;
  emit (Log_metric "Recall" (SReal recall));;;
  emit (Log_metric "Precision_0" (SReal class_zero.1.1));;;
  emit (Log_metric "Precision_1" (SReal class_one.1.1));;;
  emit (Log_metric "Recall_0" (SReal class_zero.1.2));;;
  emit (Log_metric "Recall_1" (SReal class_one.1.2));;;
  emit (Log_metric "f1_0" (SReal class_zero.2));;;
  emit (Log_metric "f1_1" (SReal class_one.2));;;
  emit (Log_metric "False Negative" (SInt fn));;;
  emit (Log_metric "True Negative" (SInt tn)).

(** The block of the [with] statement. *)
Definition run_block (run : string) (X_train X_test : frame)
    (y_train y_test : list value) : M unit :=
  model <- lift (fit model_config X_train y_train);;
  emit (Log_model "models" "LightGBM");;;
  emit (Log_params model_config);;;
  y_pred <- lift (predict model X_test);;
  evaluate y_pred y_test;;;
  say ("Inside MLflow Run with id " +:+ run).

Definition get_trained_model_body (conn : gmap string frame) : M unit :=
  parts <- with_numpy (load_and_split conn);;
  let '(X_train, X_test, y_train, y_test) := parts in
  emit (Set_tracking_uri TRACKING_URI);;;
  emit (Set_experiment EXPERIMENT);;;
  run <- start_run;;
  with_run (run_block run X_train X_test y_train y_test).

(** A call of [get_trained_model] that finds the tracking service in state
    [st] and numpy's global generator in state [g]: its outcome, and the
    world it leaves, with everything it did in order. *)
Definition get_trained_model (conn : gmap string frame) (st : server)
    (g : rng) : res unit * world :=
  get_trained_model_body conn (World st g []).

(** The metrics a call logged, in order. *)
Definition logged_metrics (log : list event) : list (string * scalar) :=
  flat_map (fun e => match e with
                     | Log_metric k v => [(k, v)]
                     | _ => []
                     end) log.

(** The calls of metric functions a call made, in order. *)
Definition metric_calls (log : list event)
  : list (metric_fn * list value * list value) :=
  flat_map (fun e => match e with
                     | Metric_call f a b => [(f, a, b)]
                     | _ => []
                     end) log.

(** The state in which the service is left by calls that it accepts one
    after the other; [None] when it refuses one of them. *)
Fixpoint serve (st : server) (es : list event) : option server :=
  match es with
  | [] => Some st
  | e :: es' =>
      match mlflow e st with
      | (None, st') => serve st' es'
      | (Some _, _) => None
      end
  end.

End Trainer.

(** * Vocabulary of the properties, and concrete tables *)

(** A database whose input lacks the feature ["source"], and which holds
    a [features] table from before. *)
Definition missing_feature_store : gmap string frame :=
  {[ "model_input" := Frame 1 [("city", [VText "A"]); (label, [VInt 1])];
     "features" := Frame 1 [("old", [VInt 7])] ]}.

(** A table as [read_sql] hands it over: rectangular, with distinct
    column names. *)
Definition is_table (df : frame) : Prop :=
  wf_frame df /\ NoDup (columns df).

Global Instance is_table_dec df : Decision (is_table df).
Proof. unfold is_table. apply _. Defined.

Definition all_null (s : series) : Prop := Forall (fun v => v = VNull) s.

(** What the assembled frame holds under label [c]: a generated column of
    that name if there is one, else the input's column of that name if there
    is one, else nothing but missing cells. *)
Definition spec_col (df placeholder_df : frame) (c : string) (s : series)
  : Prop :=
  if decide (getitem placeholder_df c ≠ []) then s ∈ getitem placeholder_df c
  else if decide (getitem df c ≠ []) then s ∈ getitem df c
  else all_null s.

(** A label of the schema is matched when the input or the side buffer has
    a column of that name. *)
Definition is_matched (df P : frame) (c : string) : Prop :=
  c ∈ columns df \/ c ∈ columns P.

(** The state of [encoded_df] once the labels in [D] have been visited by
    the second loop. *)
Definition assemble_inv (df P : frame) (schema D : list string) (enc : frame)
  : Prop :=
  columns enc = schema /\ wf_frame enc /\
  ((exists c, c ∈ D /\ is_matched df P c) -> nrows enc = nrows df) /\
  ((forall c, c ∈ D -> ~ is_matched df P c) -> nrows enc = 0) /\
  (forall i c s, cols enc !! i = Some (c, s) ->
     if decide (c ∈ D) then spec_col df P c s else all_null s).

(** The one-hot expansion of one feature of the input. *)
Definition dummies (df : frame) (feature : string) : frame :=
  get_dummies_prefixed (feature +:+ "_") (column df feature).
Arguments dummies : simpl never.

(** An input that carries a column named like a one-hot column. *)
Definition overlap_schema : list string := ["a_x"; label].

Definition overlap_input : frame :=
  Frame 1 [("a", [VText "x"]); ("a_x", [VInt 5]); (label, [VInt 1])].

Definition overlap_placeholder : frame := Frame 1 [("a_x", [VInt 1])].

Definition overlap_encoded : frame :=
  Frame 1 [("a_x", [VInt 1]); (label, [VInt 1])].

(** [strip_prefix p s] is the rest of [s] after [p], when [s] starts
    with [p]. *)
Fixpoint strip_prefix (p s : string) : option string :=
  match p, s with
  | EmptyString, _ => Some s
  | String a p', String b s' =>
      if Ascii.eqb a b then strip_prefix p' s' else None
  | String _ _, EmptyString => None
  end.

(** The values a feature would need to hold for its one-hot expansion to
    produce the column name [c], one per occurrence of a feature whose
    prefix [c] starts with. *)
Definition one_hot_sources (features : list string) (c : string)
  : list string :=
  omap (fun f => strip_prefix (f +:+ "_") c) features.

(** Could the text be Python's rendering of an integer? *)
Definition numeric_like (s : string) : bool :=
  match s with
  | EmptyString => false
  | String a _ =>
      let n := nat_of_ascii a in
      ((48 <=? n) && (n <=? 57))%nat || (n =? 45)%nat
  end.

(** A schema name that at most one feature can generate, and that feature
    from one value only (a text that no integer is rendered as). *)
Definition unambiguous (features : list string) (c : string) : bool :=
  match one_hot_sources features c with
  | [] => true
  | [s] => negb (numeric_like s)
  | _ => false
  end.

Definition one_hot_unambiguous (schema features : list string) : bool :=
  forallb (unambiguous features) schema.

(** The schema holds the label once, and what is left of it can be the
    columns of a table. *)
Definition schema_ok (schema : list string) : bool :=
  bool_decide (filter (fun c => c = label) schema = [label])
  && sql_writable (filter (fun c => c ≠ label) schema).

(** The names of the generated columns, in the order of [placeholder_df]. *)
Definition one_hot_names (df : frame) (features : list string) : list string :=
  (flat_map (fun f => cols (dummies df f)) features).*1.

(** An input none of whose columns, read or generated, is in the schema. *)
Definition unmatched_input : frame :=
  Frame 1 [("city", [VText "C"]); ("source", [VText "Z"])].

Definition unmatched_store : gmap string frame :=
  {[ "model_input" := unmatched_input ]}.

Definition unlabelled_input : frame :=
  Frame 2 [("city", [VText "A"; VText "B"]);
           ("source", [VText "X"; VNull])].

Definition unlabelled_store : gmap string frame :=
  {[ "model_input" := unlabelled_input ]}.

(** The metric calls of [evaluate], in the order of the source, with the
    arguments in the order the source passes them. *)
Definition all_calls `{Libraries} (y_pred y_test : list value)
  : list (metric_fn * list value * list value) :=
  [(accuracy_score, y_pred, y_test);
   (roc_auc_score, y_pred, y_test);
   (confusion_matrix_fn, y_pred, y_test);
   (precision_score, y_pred, y_test);
   (recall_score, y_pred, y_test);
   (f1_score, y_pred, y_test);
   (confusion_matrix_fn, y_test, y_pred);
   (precision_recall_fscore_support (VInt 0), y_test, y_pred);
   (precision_recall_fscore_support (VInt 1), y_test, y_pred)].

(** The thirteen metrics, in the order they are logged. *)
Definition metric_list `{Libraries} (auc acc f1 precision recall : real)
    (class_zero class_one : real * real * real) (fn tn : Z)
  : list (string * scalar) :=
  [("roc_auc_score", SReal auc);
   ("test_accuracy", SReal acc);
   ("f1", SReal f1);
   ("Precision", SReal precision);
   ("Recall", SReal recall);
   ("Precision_0", SReal class_zero.1.1);
   ("Precision_1", SReal class_one.1.1);
   ("Recall_0", SReal class_zero.1.2);
   ("Recall_1", SReal class_one.1.2);
   ("f1_0", SReal class_zero.2);
   ("f1_1", SReal class_one.2);
   ("False Negative", SInt fn);
   ("True Negative", SInt tn)].

(** What the function has done by the time it predicts. *)
Definition prelude `{Libraries} `{!Constants} : list event :=
  [Set_tracking_uri TRACKING_URI; Set_experiment EXPERIMENT; Start_run;
   Log_model "models" "LightGBM"; Log_params model_config].

(** The outcome of all metric computations of [evaluate]. *)
Record scores `{Libraries} := Scores {
  s_acc : real; s_auc : real; s_precision : real; s_recall : real;
  s_f1 : real; s_tn : Z; s_fn : Z; s_zero : real * real * real;
  s_one : real * real * real
}.

Definition computes `{Libraries} (y_pred y_test : list value) (sc : scores)
  : Prop :=
  accuracy y_pred y_test = Ok (s_acc sc) /\
  roc_auc y_pred y_test = Ok (s_auc sc) /\
  macro_precision y_pred y_test = Ok (s_precision sc) /\
  macro_recall y_pred y_test = Ok (s_recall sc) /\
  macro_f1 y_pred y_test = Ok (s_f1 sc) /\
  cell (confusion_matrix y_test y_pred) 0 0 = Ok (s_tn sc) /\
  cell (confusion_matrix y_test y_pred) 1 0 = Ok (s_fn sc) /\
  binary_prfs (VInt 0) y_test y_pred = Ok (s_zero sc) /\
  binary_prfs (VInt 1) y_test y_pred = Ok (s_one sc).

Definition score_list `{Libraries} (sc : scores) : list (string * scalar) :=
  metric_list (s_auc sc) (s_acc sc) (s_f1 sc) (s_precision sc) (s_recall sc)
              (s_zero sc) (s_one sc) (s_fn sc) (s_tn sc).

(** The names of the thirteen metrics, in the order they are logged. *)
Definition metric_names : list string :=
  ["roc_auc_score"; "test_accuracy"; "f1"; "Precision"; "Recall";
   "Precision_0"; "Precision_1"; "Recall_0"; "Recall_1"; "f1_0"; "f1_1";
   "False Negative"; "True Negative"].

(** The three calls that open a tracking run. *)
Definition opening `{Libraries} `{!Constants} : list event :=
  [Set_tracking_uri TRACKING_URI; Set_experiment EXPERIMENT; Start_run].

(** Stand-ins for the libraries: a generator is a number, a seed is the
    generator of that number, and a permutation drawn from generator [g]
    is the positions in order, rotated by [g]; the learner predicts what
    [predictor] reads off the test rows; every real-valued metric is 0. *)
Definition toy_libraries (predictor : frame -> list value) : Libraries := {|
  real := Z;
  params := unit;
  classifier := unit;
  rng := nat;
  seeded := Z.to_nat;
  shuffle := fun g n => (rotate g (seq 0 n), S g);
  fit := fun _ _ _ => Ok tt;
  predict := fun _ X => Ok (predictor X);
  accuracy := fun _ _ => Ok 0%Z;
  area_under_curve := fun _ _ => Ok 0%Z;
  macro_precision := fun _ _ => Ok 0%Z;
  macro_recall := fun _ _ => Ok 0%Z;
  macro_f1 := fun _ _ => Ok 0%Z;
  binary_prfs := fun _ _ _ => Ok (0, 0, 0)%Z
|}.

Definition toy_constants (predictor : frame -> list value)
  : @Constants (toy_libraries predictor) :=
  @Build_Constants (toy_libraries predictor)
    (tt : @params (toy_libraries predictor))
    "http://0.0.0.0:6006" "Lead_scoring_mlflow_production".

(** A stand-in for the tracking service: its state counts the calls it
    has accepted, it accepts [budget] calls and refuses every call after
    that, and it names a run by the count at which it was opened. *)
Definition toy_tracking (L : Libraries) (budget : nat) : @Tracking L := {|
  server := nat;
  mlflow := fun _ st =>
    if (st <? budget)%nat then (None, S st) else (Some MlflowException, st);
  run_uuid := fun st => pretty st
|}.

(** A learner that predicts the column ["x"] of the rows it is given, and
    one that predicts class 0 for every row. *)
Definition predict_x (X : frame) : list value := column X "x".

Definition predict_zero (X : frame) : list value := replicate (nrows X) (VInt 0).

Definition toy_x : Libraries := toy_libraries predict_x.

Definition toy_x_constants : @Constants toy_x := toy_constants predict_x.

Definition toy_zero : Libraries := toy_libraries predict_zero.

Definition toy_zero_constants : @Constants toy_zero :=
  toy_constants predict_zero.

(** A service that accepts every call of one invocation, and one that
    refuses the fifth [log_metric] (its tenth call). *)
Definition toy_x_tracking : @Tracking toy_x := toy_tracking toy_x 100.

Definition toy_zero_tracking : @Tracking toy_zero := toy_tracking toy_zero 100.

Definition toy_x_refusing : @Tracking toy_x := toy_tracking toy_x 9.

Definition trained_store : gmap string frame :=
  {[ "features" := Frame 4 [("x", [VInt 1; VInt 0; VInt 1; VInt 0])];
     "target" := Frame 4 [(label, [VInt 1; VInt 1; VInt 0; VInt 0])] ]}.

(** The number of test rows for [test_size = 0.3]. *)
Definition test_count (n : nat) : nat := (n * 3 + 10 - 1) / 10.

Definition is_confusion_call `{Libraries}
    (c : metric_fn * list value * list value) : bool :=
  match c.1.1 with confusion_matrix_fn => true | _ => false end.

Definition is_count_metric `{Libraries} (m : string * scalar) : bool :=
  String.eqb m.1 "False Negative" || String.eqb m.1 "True Negative".


(** ** Further configurations and databases *)

(** A schema that names the label twice, and a database that holds a
    [target] table from before. *)
Definition twice_label_schema : list string := ["city_A"; label; label].

Definition stale_store : gmap string frame :=
  {[ "model_input" := scenario_input;
     "target" := Frame 1 [(label, [VInt 9])] ]}.

(** A schema without the label. *)
Definition unlabelled_schema : list string := ["city_A"; "city_B"].

(** How often a name occurs among the generated column names. *)
Definition generated_count (df : frame) (features : list string) (c : string)
  : nat :=
  length (filter (fun name => name = c) (one_hot_names df features)).

(** An input with a numeric column to pass through and missing cells. *)
Definition passthrough_input : frame :=
  Frame 3 [("city", [VText "A"; VNull; VText "B"]);
           ("visits", [VInt 4; VNull; VInt 7]);
           (label, [VInt 1; VNull; VInt 0])].

Definition passthrough_schema : list string :=
  ["visits"; "city_A"; "city_B"; "other"; label].

Definition passthrough_store : gmap string frame :=
  {[ "model_input" := passthrough_input ]}.

(** An input without the label whose feature [app_complete] holds the
    value [flag]: its one-hot expansion has a column named like the
    label. *)
Definition flag_input : frame :=
  Frame 2 [("app_complete", [VText "flag"; VText "no"])].

Definition flag_schema : list string := ["app_complete_no"; label].

Definition flag_store : gmap string frame :=
  {[ "model_input" := flag_input ]}.

(** The order in which [numpy.unique] sorts the labels. *)
Definition value_le (a b : value) : Prop := value_leb a b = true.

(** What [evaluate] appends to the events. *)
Definition evaluated `{Libraries} (y_pred y_test : list value) (r : res unit)
    (rest : list event) : Prop :=
  (exists k, (1 <= k)%nat /\
     metric_calls rest = take k (all_calls y_pred y_test)) /\
  (exists j, (logged_metrics rest).*1 = take j metric_names) /\
  Forall (fun e => match e with
                   | Metric_call _ _ _ | Log_metric _ _ => True
                   | _ => False
                   end) rest /\
  (r = Ok tt \/ logged_metrics rest <> [] ->
   exists sc, computes y_pred y_test sc /\
     metric_calls rest = all_calls y_pred y_test /\
     (exists j, logged_metrics rest = take j (score_list sc)) /\
     (r = Ok tt -> logged_metrics rest = score_list sc)).



(** * Properties of the encoder *)

(** Closing a decidable goal about concrete data by evaluating its decision
    procedure. *)
Ltac by_computation :=
  apply (bool_decide_unpack _); vm_compute; exact I.

(** The end-to-end scenario of the specification: two rows, two
    categorical features, a schema of four one-hot names and the label. *)
Example end_to_end_scenario :
  encode_features scenario_schema ["city"; "source"] scenario_store
    = Run Finished []
        (<["target" := Frame 2 [(label, [VInt 1; VInt 0])]]>
           (<["features" :=
                Frame 2 [("city_A", [VInt 1; VInt 0]);
                         ("city_B", [VInt 0; VInt 1]);
                         ("source_X", [VInt 1; VInt 0]);
                         ("source_Y", [VInt 0; VInt 1])]]>
              scenario_store)).
Proof. by vm_compute. Qed.

Section EncoderFacts.

Variable ONE_HOT_ENCODED_FEATURES : list string.
Variable FEATURES_TO_ENCODE : list string.

Lemma has_column_true name df : has_column name df = true <-> name ∈ columns df.
Proof. unfold has_column. apply bool_decide_eq_true. Qed.

Lemma has_column_false name df :
  has_column name df = false <-> name ∉ columns df.
Proof. unfold has_column. apply bool_decide_eq_false. Qed.

(** The first loop gets through a list of features exactly when all of
    them are columns of the input. *)
Lemma encode_loop_present df features placeholder_df :
  Forall (fun f => f ∈ columns df) features ->
  is_Some (encode_loop df features placeholder_df).
Proof.
  intros Hall. revert placeholder_df.
  induction Hall as [|f fs Hf _ IH]; intros p; simpl.
  - eauto.
  - apply has_column_true in Hf. rewrite Hf. apply IH.
Qed.

Lemma encode_loop_Some df features placeholder_df p :
  encode_loop df features placeholder_df = Some p ->
  Forall (fun f => f ∈ columns df) features.
Proof.
  revert placeholder_df.
  induction features as [|f fs IH]; intros p0 H; simpl in H.
  - constructor.
  - destruct (has_column f df) eqn:Hf; [|discriminate].
    constructor; [by apply has_column_true | by eapply IH].
Qed.

(** The loop stops at the first feature that is missing, whatever comes
    after it. *)
Lemma encode_loop_missing df before missing after placeholder_df :
  Forall (fun f => f ∈ columns df) before ->
  missing ∉ columns df ->
  encode_loop df (before ++ missing :: after) placeholder_df = None.
Proof.
  intros Hall Hmiss. revert placeholder_df.
  induction Hall as [|f fs Hf _ IH]; intros p; simpl.
  - apply has_column_false in Hmiss. by rewrite Hmiss.
  - apply has_column_true in Hf. rewrite Hf. apply IH.
Qed.

(** A list with an element that fails a decidable test splits at the
    first such element. *)
Lemma first_missing (df : frame) (features : list string) :
  (exists f, f ∈ features /\ f ∉ columns df) ->
  exists before missing after,
    features = before ++ missing :: after /\
    Forall (fun f => f ∈ columns df) before /\
    missing ∉ columns df.
Proof.
  induction features as [|g gs IH]; intros (f & Hin & Hout).
  - by apply elem_of_nil in Hin.
  - destruct (decide (g ∈ columns df)) as [Hg|Hg].
    + destruct IH as (b & m & a & -> & Hb & Hm).
      { apply elem_of_cons in Hin as [->|Hin]; [done|eauto]. }
      exists (g :: b), m, a. split; [done|]. split; [by constructor|done].
    + exists [], g, gs. split; [done|]. split; [constructor|done].
Qed.

End EncoderFacts.

(** C1.  When some feature of [FEATURES_TO_ENCODE] is not a column of the
    [model_input] table, [encode_features] stops at the first such feature
    (the features before it are all present, and the loop does not look
    past it): it prints the diagnostic once, returns the frame it read,
    unmodified, raises nothing, and leaves the database as it was, so that
    neither [features] nor [target] is written. *)
Theorem encode_features_missing_feature
    (schema features : list string) (conn : gmap string frame) (df : frame) :
  conn !! "model_input" = Some df ->
  (exists f, f ∈ features /\ f ∉ columns df) ->
  (encode_features schema features conn
     = Run (Returned df) ["Feature not found"] conn)
  /\ exists before missing after,
      features = before ++ missing :: after /\
      Forall (fun f => f ∈ columns df) before /\
      (missing ∉ columns df) /\
      forall after' : list string,
        encode_features schema (before ++ missing :: after') conn
          = Run (Returned df) ["Feature not found"] conn.
Proof.
  intros Hread Hmiss.
  destruct (first_missing df features Hmiss) as (b & m & a & -> & Hb & Hm).
  assert (Hrun : forall a', encode_features schema (b ++ m :: a') conn
                 = Run (Returned df) ["Feature not found"] conn).
  { intros a'. unfold encode_features, read_sql. rewrite Hread.
    by rewrite (encode_loop_missing df b m a' _ Hb Hm). }
  split; [apply Hrun|].
  exists b, m, a. repeat split; try done.
Qed.

Lemma encode_features_missing_feature_witness :
  encode_features scenario_schema ["city"; "source"] missing_feature_store
    = Run (Returned (Frame 1 [("city", [VText "A"]); (label, [VInt 1])]))
          ["Feature not found"] missing_feature_store.
Proof.
  refine (proj1 (encode_features_missing_feature scenario_schema
            ["city"; "source"] missing_feature_store _ _ _)).
  - reflexivity.
  - exists "source". split; by_computation.
Defined.

(** ** Frames: shapes and lookups *)

Section FrameFacts.

Implicit Types (df : frame) (s : series) (cs : list (string * series)).

Lemma length_reindex n s : length (reindex n s) = n.
Proof.
  unfold reindex. rewrite length_take, length_app, length_replicate. lia.
Qed.

Lemma reindex_id n s : length s = n -> reindex n s = s.
Proof. intros <-. unfold reindex. apply take_app_length. Qed.

Lemma reindex_all_null n s : all_null s -> all_null (reindex n s).
Proof.
  intros H. unfold reindex, all_null. apply Forall_take, Forall_app.
  split; [done|]. by apply Forall_replicate.
Qed.

Lemma columns_reindex_cols n cs : (reindex_cols n cs).*1 = cs.*1.
Proof. induction cs as [|c cs IH]; [done|]. simpl. f_equal. exact IH. Qed.

Lemma lookup_reindex_cols n cs i :
  reindex_cols n cs !! i = (fun c => (c.1, reindex n c.2)) <$> cs !! i.
Proof. unfold reindex_cols. apply list_lookup_fmap. Qed.

Lemma wf_reindex_cols n cs :
  Forall (fun c => length c.2 = n) (reindex_cols n cs).
Proof.
  unfold reindex_cols. apply Forall_fmap, Forall_forall.
  intros c _. simpl. apply length_reindex.
Qed.

Lemma reindex_cols_id n cs :
  Forall (fun c => length c.2 = n) cs -> reindex_cols n cs = cs.
Proof.
  intros H. unfold reindex_cols.
  induction H as [|[c s] cs Hc _ IH]; [done|]. simpl in *.
  f_equal; [by rewrite (reindex_id _ _ Hc) | exact IH].
Qed.

(** Membership in [df[name]]. *)
Lemma elem_of_getitem df name s :
  s ∈ getitem df name <-> (name, s) ∈ cols df.
Proof.
  unfold getitem. rewrite list_elem_of_fmap. split.
  - intros ([c s'] & -> & H). apply list_elem_of_filter in H as [H1 H2].
    simpl in *. by subst.
  - intros H. exists (name, s). split; [done|].
    apply list_elem_of_filter. by split.
Qed.

Lemma getitem_nil df name : getitem df name = [] <-> name ∉ columns df.
Proof.
  unfold getitem, columns. split.
  - intros H Hin. apply list_elem_of_fmap in Hin as ([c s] & -> & Hin).
    apply fmap_nil_inv in H.
    eapply (filter_nil_not_elem_of _ _ (c, s)) in H; [done|done].
  - intros H. destruct (filter _ _) as [|[c s] l] eqn:E; [done|].
    exfalso. apply H.
    assert (Hin : (c, s) ∈ filter (fun c => c.1 = name) (cols df))
      by (rewrite E; left).
    apply list_elem_of_filter in Hin as [<- Hin].
    apply list_elem_of_fmap. by exists (c, s).
Qed.

Lemma has_column_getitem df name :
  has_column name df = true <-> getitem df name ≠ [].
Proof.
  rewrite has_column_true, getitem_nil.
  destruct (decide (name ∈ columns df)); naive_solver.
Qed.

Lemma length_getitem_wf df name s :
  wf_frame df -> s ∈ getitem df name -> length s = nrows df.
Proof.
  intros Hwf Hin. apply elem_of_getitem in Hin.
  unfold wf_frame in Hwf. rewrite Forall_forall in Hwf.
  apply (Hwf _ Hin).
Qed.

(** A label of a table selects one series. *)
Lemma length_filter_NoDup_fst cs name :
  NoDup cs.*1 -> length (filter (fun c => c.1 = name) cs) <= 1.
Proof.
  induction cs as [|[c s] cs IH]; intros Hnd; [simpl; lia|].
  apply NoDup_cons in Hnd as [Hc Hnd]. simpl in *.
  destruct (decide (c = name)) as [->|Hne].
  - rewrite filter_cons_True by done.
    assert (filter (fun c => c.1 = name) cs = []) as ->; [|simpl; lia].
    destruct (filter _ cs) as [|[c' s'] l] eqn:E; [done|]. exfalso.
    assert (Hin : (c', s') ∈ filter (fun c => c.1 = name) cs)
      by (rewrite E; left).
    apply list_elem_of_filter in Hin as [Heq Hin]. simpl in Heq. subst.
    apply Hc, list_elem_of_fmap. by exists (name, s').
  - rewrite filter_cons_False by done. by apply IH.
Qed.

Lemma length_getitem_table df name :
  NoDup (columns df) -> length (getitem df name) <= 1.
Proof.
  intros H. unfold getitem. rewrite length_fmap.
  by apply length_filter_NoDup_fst.
Qed.

Lemma getitem_table df name :
  NoDup (columns df) -> name ∈ columns df ->
  getitem df name = [column df name].
Proof.
  intros Hnd Hin. pose proof (length_getitem_table df name Hnd) as Hle.
  apply has_column_true, has_column_getitem in Hin.
  unfold column. destruct (getitem df name) as [|s [|s' l]]; simpl in *;
    [done|done|lia].
Qed.

End FrameFacts.

(** ** Column assignment *)

Section SetItemFacts.

Implicit Types (df : frame) (s : series) (cs : list (string * series)).

Lemma ensure_valid_index_spec df n :
  wf_frame df -> nrows df = 0 \/ nrows df = n ->
  ensure_valid_index df n = Frame n (reindex_cols n (cols df)).
Proof.
  intros Hwf Hn. unfold ensure_valid_index.
  destruct ((nrows df =? 0)%nat && (0 <? n)%nat) eqn:E; [done|].
  assert (nrows df = n) as Hdf.
  { destruct Hn as [H0|]; [|done]. rewrite H0 in E. simpl in E.
    apply Nat.ltb_ge in E. lia. }
  destruct df as [m cs]. simpl in *. subst m.
  by rewrite reindex_cols_id.
Qed.

Lemma columns_set_all name s cs : (set_all name s cs).*1 = cs.*1.
Proof.
  induction cs as [|c cs IH]; [done|]. simpl. f_equal; [|exact IH].
  by destruct (decide (c.1 = name)).
Qed.

Lemma columns_set_each name ss cs : (set_each name ss cs).*1 = cs.*1.
Proof.
  revert ss. induction cs as [|c cs IH]; intros ss; [done|]. simpl.
  destruct (decide (c.1 = name)); [destruct ss|]; simpl; f_equal; auto.
Qed.

Lemma lookup_set_all name s0 cs i c s :
  cs !! i = Some (c, s) ->
  exists s', set_all name s0 cs !! i = Some (c, s') /\
             (c = name -> s' = s0) /\ (c ≠ name -> s' = s).
Proof.
  intros H. unfold set_all. rewrite list_lookup_fmap, H. simpl.
  destruct (decide (c = name)); eexists; (split; [done|]); naive_solver.
Qed.

Lemma lookup_set_each name ss cs :
  length (filter (fun c => c.1 = name) cs) = length ss ->
  forall i c s, cs !! i = Some (c, s) ->
  exists s', set_each name ss cs !! i = Some (c, s') /\
             (c = name -> s' ∈ ss) /\ (c ≠ name -> s' = s).
Proof.
  revert ss. induction cs as [|[c0 s0] cs IH]; intros ss Hlen i c s Hi.
  - by rewrite lookup_nil in Hi.
  - simpl. destruct (decide (c0 = name)) as [->|Hne].
    + rewrite filter_cons_True in Hlen by done.
      destruct ss as [|s1 ss]; [done|]. simpl in Hlen.
      destruct i as [|i]; simpl in *.
      * inversion Hi; subst. exists s1. split; [done|].
        split; [intros _; left | done].
      * destruct (IH ss ltac:(lia) i c s Hi) as (s' & H1 & H2 & H3).
        exists s'. split; [done|]. split; [|done].
        intros Hc. right. auto.
    + rewrite filter_cons_False in Hlen by done.
      destruct i as [|i]; simpl in *.
      * inversion Hi; subst. exists s. split; [done|]. split; done.
      * by apply IH.
Qed.

(** What [df[name] = vals] does to a frame whose index is empty or
    already the index of [vals]. *)
Lemma setitem_spec df name n vals df' :
  wf_frame df -> nrows df = 0 \/ nrows df = n ->
  Forall (fun s => length s = n) vals -> vals ≠ [] ->
  name ∈ columns df ->
  setitem df name n vals = Ok df' ->
  nrows df' = n /\ columns df' = columns df /\
  forall i c s, cols df !! i = Some (c, s) ->
    exists s', cols df' !! i = Some (c, s') /\
               length s' = n /\
               (c = name -> s' ∈ vals) /\
               (c ≠ name -> s' = reindex n s).
Proof.
  intros Hwf Hn Hvals Hne Hin Hset. unfold setitem in Hset.
  rewrite (ensure_valid_index_spec _ _ Hwf Hn) in Hset. simpl in Hset.
  assert (Hhas : has_column name (Frame n (reindex_cols n (cols df))) = true).
  { apply has_column_true. unfold columns. simpl.
    by rewrite columns_reindex_cols. }
  assert (Hgrow : forall i c s, cols df !! i = Some (c, s) ->
            reindex_cols n (cols df) !! i = Some (c, reindex n s)).
  { intros i c s Hi. by rewrite lookup_reindex_cols, Hi. }
  destruct vals as [|x [|y vals]]; [done| |].
  - rewrite Hhas in Hset. inversion Hset; subst df'; clear Hset. simpl.
    apply Forall_inv in Hvals.
    split; [done|]. split.
    { unfold columns. simpl.
      by rewrite columns_set_all, columns_reindex_cols. }
    intros i c s Hi. apply Hgrow in Hi.
    destruct (lookup_set_all name (reindex n x) _ _ _ _ Hi)
      as (s' & H1 & H2 & H3).
    exists s'. split; [done|]. rewrite (reindex_id _ _ Hvals) in H2.
    split; [|split].
    + destruct (decide (c = name)) as [Hc|Hc].
      * by rewrite (H2 Hc).
      * rewrite (H3 Hc). apply length_reindex.
    + intros Hc. rewrite (H2 Hc). left.
    + done.
  - destruct (_ =? _)%nat eqn:Hlen in Hset; [|done].
    apply Nat.eqb_eq in Hlen.
    assert (Hval' : reindex n <$> (x :: y :: vals) = x :: y :: vals).
    { clear -Hvals. induction Hvals as [|v vs Hv _ IH]; [done|].
      simpl. rewrite (reindex_id _ _ Hv). f_equal. exact IH. }
    rewrite Hval' in Hset.
    inversion Hset; subst df'; clear Hset. simpl.
    split; [done|]. split.
    { unfold columns. simpl.
      by rewrite columns_set_each, columns_reindex_cols. }
    intros i c s Hi. apply Hgrow in Hi.
    unfold getitem in Hlen. simpl in Hlen. rewrite length_fmap in Hlen.
    destruct (lookup_set_each name (x :: y :: vals) _ Hlen _ _ _ Hi)
      as (s' & H1 & H2 & H3).
    exists s'. split; [done|]. split; [|split; done].
    destruct (decide (c = name)) as [Hc|Hc].
    + rewrite Forall_forall in Hvals. apply Hvals. auto.
    + rewrite (H3 Hc). apply length_reindex.
Qed.

(** Assigning one series under a label the frame has cannot fail. *)
Lemma setitem_series_ok df name n s :
  exists df', setitem df name n [s] = Ok df'.
Proof.
  unfold setitem. destruct (has_column _ _); eauto.
Qed.

End SetItemFacts.

(** ** The second loop *)

Section AssembleFacts.

Variables (df P : frame) (schema : list string).
Hypothesis Hdf : wf_frame df.
Hypothesis HP : wf_frame P.
Hypothesis HPn : cols P = [] \/ nrows P = nrows df.

Let N := nrows df.

Let matched := is_matched df P.
Let Inv := assemble_inv df P schema.

Global Instance matched_dec c : Decision (matched c).
Proof. unfold matched, is_matched. apply _. Defined.

Lemma Inv_nrows D enc : Inv D enc -> nrows enc = 0 \/ nrows enc = N.
Proof.
  intros (_ & _ & H1 & H2 & _).
  destruct (decide (Exists matched D)) as [HE|HE].
  - right. apply H1. apply Exists_exists in HE as (c & Hc & Hm). eauto.
  - left. apply H2. intros c Hc Hm. apply HE, Exists_exists. eauto.
Qed.

Lemma Inv_init : Inv [] (DataFrame schema).
Proof.
  unfold Inv, assemble_inv, DataFrame, columns, wf_frame. simpl.
  repeat split.
  - induction schema as [|c l IH]; [done|]. simpl. f_equal. exact IH.
  - apply Forall_fmap, Forall_forall. done.
  - intros (c & Hc & _). by apply elem_of_nil in Hc.
  - intros i c s Hi.
    destruct (decide (c ∈ [])) as [Hc|_]; [by apply elem_of_nil in Hc|].
    rewrite list_lookup_fmap in Hi.
    destruct (schema !! i); simpl in Hi; inversion Hi. constructor.
Qed.

Lemma spec_col_unmatched c s : ~ matched c -> spec_col df P c s <-> all_null s.
Proof.
  intros Hm. unfold spec_col, matched, is_matched in *.
  rewrite !decide_False; [done| |].
  - intros H. apply Hm. left. by apply has_column_true, has_column_getitem.
  - intros H. apply Hm. right. by apply has_column_true, has_column_getitem.
Qed.

(** A column that an assignment does not name keeps what the invariant
    says about it when the index is conformed. *)
Lemma Inv_keep D enc i c s (D' : list string) :
  Inv D enc -> cols enc !! i = Some (c, s) ->
  (c ∈ D' <-> c ∈ D) ->
  if decide (c ∈ D') then spec_col df P c (reindex N s)
  else all_null (reindex N s).
Proof.
  intros HI Hi Hiff. pose proof HI as (_ & Hwf & H1 & _ & Hcol).
  specialize (Hcol _ _ _ Hi).
  destruct (decide (c ∈ D')) as [Hc|Hc].
  - rewrite decide_True in Hcol by (by apply Hiff).
    destruct (decide (matched c)) as [Hm|Hm].
    + rewrite reindex_id; [done|].
      unfold wf_frame in Hwf. rewrite Forall_lookup in Hwf.
      pose proof (Hwf _ _ Hi) as Hl. simpl in Hl. rewrite Hl.
      apply H1. exists c. split; [by apply Hiff | done].
    + apply spec_col_unmatched; [done|]. apply reindex_all_null.
      by apply spec_col_unmatched in Hcol.
  - rewrite decide_False in Hcol by (by rewrite <- Hiff).
    by apply reindex_all_null.
Qed.

Lemma same_columns_lookup (a b : frame) i c s :
  columns a = columns b -> cols b !! i = Some (c, s) ->
  exists s0, cols a !! i = Some (c, s0).
Proof.
  unfold columns. intros Heq Hi.
  assert (H : (cols b).*1 !! i = Some c) by by rewrite list_lookup_fmap, Hi.
  rewrite <- Heq, list_lookup_fmap in H.
  destruct (cols a !! i) as [[c0 s0]|]; simpl in H; inversion H. eauto.
Qed.

Lemma wf_from_lookup (enc : frame) n :
  nrows enc = n ->
  (forall i c s, cols enc !! i = Some (c, s) -> length s = n) ->
  wf_frame enc.
Proof.
  intros Hn H. unfold wf_frame. apply Forall_lookup. intros i [c s] Hi.
  rewrite Hn. eapply H, Hi.
Qed.

Lemma Inv_assigned D enc f enc' :
  Inv D enc -> matched f ->
  nrows enc' = N -> columns enc' = columns enc ->
  (forall i c s, cols enc !! i = Some (c, s) ->
     exists s', cols enc' !! i = Some (c, s') /\ length s' = N /\
                (c = f -> spec_col df P f s') /\
                (c ≠ f -> s' = reindex N s)) ->
  Inv (f :: D) enc'.
Proof.
  intros HI Hm Hn Hc Hstep. pose proof HI as (Hcols & _).
  assert (Hback : forall i c s', cols enc' !! i = Some (c, s') ->
            exists s, cols enc !! i = Some (c, s) /\ length s' = N /\
                      (c = f -> spec_col df P f s') /\
                      (c ≠ f -> s' = reindex N s)).
  { intros i c s' Hi.
    destruct (same_columns_lookup enc enc' i c s') as (s & Hs);
      [done|done|].
    destruct (Hstep _ _ _ Hs) as (s'' & Hs'' & ?).
    rewrite Hi in Hs''. inversion Hs''; subst. eauto. }
  unfold Inv, assemble_inv. split; [congruence|]. split; [|split; [|split]].
  - apply (wf_from_lookup _ N Hn). intros i c s Hi.
    destruct (Hback _ _ _ Hi) as (? & _ & ? & _). done.
  - done.
  - intros H. exfalso. apply (H f); [left|done].
  - intros i c s' Hi. destruct (Hback _ _ _ Hi) as (s & Hs & _ & Hf & Hnf).
    destruct (decide (c = f)) as [->|Hne].
    + rewrite decide_True by left. by apply Hf.
    + rewrite (Hnf Hne). apply (Inv_keep D enc i c s (f :: D) HI Hs).
      rewrite elem_of_cons. split; [intros [?|?]; done | by right].
Qed.

Lemma Inv_skipped D enc f : Inv D enc -> ~ matched f -> Inv (f :: D) enc.
Proof.
  intros (Hcols & Hwf & H1 & H2 & Hcol) Hm.
  unfold Inv, assemble_inv. split; [done|]. split; [done|]. split; [|split].
  - intros (c & Hc & Hmc). apply H1. exists c. split; [|done].
    apply elem_of_cons in Hc as [->|Hc]; done.
  - intros H. apply H2. intros c Hc. apply H. by right.
  - intros i c s Hi. specialize (Hcol _ _ _ Hi).
    destruct (decide (c ∈ D)) as [Hc|Hc].
    + rewrite decide_True by by right. done.
    + destruct (decide (c ∈ f :: D)) as [Hc'|Hc']; [|done].
      apply elem_of_cons in Hc' as [->|Hc']; [|done].
      by apply spec_col_unmatched.
Qed.

Lemma nrows_P_of_column f : f ∈ columns P -> nrows P = N.
Proof.
  intros Hf. destruct HPn as [HP0|]; [|done].
  unfold columns in Hf. rewrite HP0 in Hf. by apply elem_of_nil in Hf.
Qed.

Lemma getitem_lengths (src : frame) f :
  wf_frame src -> Forall (fun s => length s = nrows src) (getitem src f).
Proof.
  intros Hwf. apply Forall_forall. intros s Hs.
  by apply (length_getitem_wf src f).
Qed.

(** One pass of the loop body. *)
Lemma Inv_step D enc f enc' :
  Inv D enc -> f ∈ schema ->
  copy_feature df P enc f = Ok enc' -> Inv (f :: D) enc'.
Proof.
  intros HI Hf Hcopy. unfold copy_feature in Hcopy.
  pose proof HI as (Hcols & Hwf & _).
  pose proof (Inv_nrows _ _ HI) as Hn.
  assert (Hfenc : f ∈ columns enc) by by rewrite Hcols.
  destruct (has_column f df) eqn:Edf; destruct (has_column f P) eqn:EP;
    simpl in Hcopy.
  - (* both: the generated column overwrites the input's *)
    destruct (setitem enc f (nrows df) (getitem df f)) as [enc1|] eqn:E1;
      simpl in Hcopy; [|done].
    apply has_column_true in EP as HfP.
    pose proof (nrows_P_of_column f HfP) as HnP. rewrite HnP in Hcopy.
    apply has_column_getitem in Edf, EP.
    destruct (setitem_spec enc f N _ enc1 Hwf Hn
                (getitem_lengths df f Hdf) Edf Hfenc E1)
      as (Hn1 & Hc1 & Hs1).
    assert (Hwf1 : wf_frame enc1).
    { apply (wf_from_lookup _ N Hn1). intros i c s Hi.
      destruct (same_columns_lookup enc enc1 i c s) as (s0 & Hs0);
        [done|done|].
      destruct (Hs1 _ _ _ Hs0) as (s' & Hs' & Hl & _).
      rewrite Hi in Hs'. by inversion Hs'; subst. }
    assert (HlP : Forall (fun s => length s = N) (getitem P f)).
    { rewrite <- HnP. by apply getitem_lengths. }
    destruct (setitem_spec enc1 f N _ enc' Hwf1 (or_intror Hn1)
                HlP EP ltac:(by rewrite Hc1) Hcopy)
      as (Hn2 & Hc2 & Hs2).
    apply (Inv_assigned D enc f enc' HI); [by right|done|congruence|].
    intros i c s Hi. destruct (Hs1 _ _ _ Hi) as (s1 & Hi1 & Hl1 & _ & Hk1).
    destruct (Hs2 _ _ _ Hi1) as (s2 & Hi2 & Hl2 & Ha2 & Hk2).
    exists s2. split; [done|]. split; [done|]. split.
    + intros ->. unfold spec_col. rewrite decide_True by done. by apply Ha2.
    + intros Hne. rewrite (Hk2 Hne), (Hk1 Hne).
      apply reindex_id, length_reindex.
  - (* only the input has it *)
    apply has_column_true in Edf as Hfdf.
    apply has_column_getitem in Edf.
    apply has_column_false, getitem_nil in EP.
    destruct (setitem enc f (nrows df) (getitem df f)) as [enc1|] eqn:E1;
      simpl in Hcopy; [|done].
    inversion Hcopy; subst enc1; clear Hcopy. rename E1 into Hcopy.
    destruct (setitem_spec enc f N _ enc' Hwf Hn
                (getitem_lengths df f Hdf) Edf Hfenc Hcopy)
      as (Hn1 & Hc1 & Hs1).
    apply (Inv_assigned D enc f enc' HI); [by left|done|done|].
    intros i c s Hi. destruct (Hs1 _ _ _ Hi) as (s1 & Hi1 & Hl1 & Ha1 & Hk1).
    exists s1. split; [done|]. split; [done|]. split; [|done].
    intros ->. unfold spec_col.
    rewrite decide_False by (by rewrite EP; intros ?).
    rewrite decide_True by done. by apply Ha1.
  - (* only a generated column has it *)
    apply has_column_true in EP as HfP.
    pose proof (nrows_P_of_column f HfP) as HnP. rewrite HnP in Hcopy.
    apply has_column_getitem in EP.
    assert (HlP : Forall (fun s => length s = N) (getitem P f)).
    { rewrite <- HnP. by apply getitem_lengths. }
    destruct (setitem_spec enc f N _ enc' Hwf Hn HlP EP Hfenc Hcopy)
      as (Hn1 & Hc1 & Hs1).
    apply (Inv_assigned D enc f enc' HI); [by right|done|done|].
    intros i c s Hi. destruct (Hs1 _ _ _ Hi) as (s1 & Hi1 & Hl1 & Ha1 & Hk1).
    exists s1. split; [done|]. split; [done|]. split; [|done].
    intros ->. unfold spec_col. rewrite decide_True by done. by apply Ha1.
  - (* neither *)
    inversion Hcopy; subst enc'. apply Inv_skipped; [done|].
    apply has_column_false in Edf, EP. intros [?|?]; done.
Qed.

Lemma assemble_Inv names : forall D enc enc',
  Inv D enc -> Forall (fun c => c ∈ schema) names ->
  assemble df P names enc = Ok enc' ->
  exists D', Inv D' enc' /\ forall c, c ∈ D' <-> c ∈ names \/ c ∈ D.
Proof.
  induction names as [|f names IH]; intros D enc enc' HI Hsub Hrun.
  - inversion Hrun; subst. exists D. split; [done|].
    intros c. rewrite elem_of_nil. tauto.
  - simpl in Hrun.
    destruct (copy_feature df P enc f) as [enc1|] eqn:E1;
      simpl in Hrun; [|done].
    apply Forall_cons in Hsub as [Hf Hsub].
    pose proof (Inv_step D enc f enc1 HI Hf E1) as HI1.
    destruct (IH _ _ _ HI1 Hsub Hrun) as (D' & HI' & HD').
    exists D'. split; [done|]. intros c.
    rewrite HD', !elem_of_cons. tauto.
Qed.

(** The frame the second loop leaves behind. *)
Lemma assembled_Inv enc :
  assembled schema df P = Ok enc ->
  exists D, Inv D enc /\ forall c, c ∈ D <-> c ∈ schema.
Proof.
  intros Hrun. unfold assembled in Hrun.
  destruct (assemble_Inv schema [] _ enc Inv_init) as (D & HI & HD);
    [by apply Forall_forall|done|].
  exists D. split; [done|]. intros c. rewrite HD, elem_of_nil. tauto.
Qed.

End AssembleFacts.

(** ** The first loop *)

Section EncodeLoopFacts.

Lemma column_length df f :
  wf_frame df -> f ∈ columns df -> length (column df f) = nrows df.
Proof.
  intros Hwf Hf. apply has_column_true, has_column_getitem in Hf.
  unfold column. destruct (getitem df f) as [|s l] eqn:E; [done|]. simpl.
  apply (length_getitem_wf df f); [done|]. rewrite E. left.
Qed.

Lemma wf_dummies df f :
  wf_frame (dummies df f) /\ nrows (dummies df f) = length (column df f).
Proof.
  split; [|done]. unfold wf_frame, dummies, get_dummies_prefixed. simpl.
  apply Forall_fmap, Forall_forall. intros v _. simpl.
  unfold indicator. by rewrite length_fmap.
Qed.

Lemma encode_loop_spec df features : forall p0 p,
  wf_frame df ->
  (cols p0 = [] /\ nrows p0 = 0) \/ (wf_frame p0 /\ nrows p0 = nrows df) ->
  encode_loop df features p0 = Some p ->
  cols p = cols p0 ++ flat_map (fun f => cols (dummies df f)) features /\
  ((features = [] /\ p = p0) \/ (wf_frame p /\ nrows p = nrows df)).
Proof.
  induction features as [|f fs IH]; intros p0 p Hdf Hp0 Hrun; simpl in Hrun.
  - inversion Hrun; subst. simpl. rewrite app_nil_r. split; [done|by left].
  - destruct (has_column f df) eqn:Hf; [|done].
    apply has_column_true in Hf.
    destruct (wf_dummies df f) as [Hwe Hne].
    rewrite (column_length df f Hdf Hf) in Hne.
    fold (dummies df f) in Hrun.
    set (p1 := concat_axis1 p0 (dummies df f)) in *.
    assert (Hn1 : nrows p1 = nrows df).
    { unfold p1, concat_axis1. cbn [nrows]. rewrite Hne.
      destruct Hp0 as [[_ ->]|[_ ->]]; lia. }
    assert (Hc1 : cols p1 = cols p0 ++ cols (dummies df f)).
    { unfold p1, concat_axis1. cbn [cols]. rewrite Hne.
      assert (Nat.max (nrows p0) (nrows df) = nrows df) as ->
        by (destruct Hp0 as [[_ ->]|[_ ->]]; lia).
      f_equal.
      - destruct Hp0 as [[-> _]|[Hw Hn]]; [done|].
        apply reindex_cols_id. by rewrite <- Hn.
      - apply reindex_cols_id. by rewrite <- Hne. }
    assert (Hw1 : wf_frame p1).
    { unfold wf_frame. rewrite Hn1. unfold p1, concat_axis1. cbn [cols].
      rewrite Hne.
      assert (Nat.max (nrows p0) (nrows df) = nrows df) as ->
        by (destruct Hp0 as [[_ ->]|[_ ->]]; lia).
      apply Forall_app. split; apply wf_reindex_cols. }
    destruct (IH p1 p Hdf (or_intror (conj Hw1 Hn1)) Hrun) as [Hc Hr].
    split.
    + rewrite Hc, Hc1. simpl. by rewrite <- app_assoc.
    + right. destruct Hr as [[_ ->]|Hr]; [done|done].
Qed.

(** The side buffer [placeholder_df] after the first loop. *)
Lemma placeholder_spec df features P :
  wf_frame df ->
  encode_loop df features (DataFrame []) = Some P ->
  cols P = flat_map (fun f => cols (dummies df f)) features /\
  wf_frame P /\ (cols P = [] \/ nrows P = nrows df).
Proof.
  intros Hdf Hrun.
  destruct (encode_loop_spec df features (DataFrame []) P Hdf
              (or_introl (conj eq_refl eq_refl)) Hrun) as [Hc Hr].
  simpl in Hc. split; [done|].
  destruct Hr as [[-> ->]|[Hw Hn]].
  - split; [constructor | by left].
  - split; [done | by right].
Qed.

End EncodeLoopFacts.

(** C2 (amended).  For the output column at each position of the configured
    schema, once the second loop has run: if generated one-hot columns carry
    its name, the output column is one of them (the generated column, when
    there is exactly one), also when the input has a column of the same
    name (the second [if] overwrites the first); if no generated column
    carries its name and the input has it, the output column is the input's
    column as it is; if neither has it, every cell of the output column is
    missing until [fillna].  The generated columns are those of the one-hot
    expansions of the features, in the order of [FEATURES_TO_ENCODE]. *)
Theorem assembled_column
    (schema features : list string) (df P enc : frame) (i : nat) (c : string) :
  is_table df ->
  encode_loop df features (DataFrame []) = Some P ->
  assembled schema df P = Ok enc ->
  schema !! i = Some c ->
  cols P = flat_map (fun f => cols (dummies df f)) features /\
  exists s, cols enc !! i = Some (c, s) /\
    (c ∈ columns P -> s ∈ getitem P c) /\
    (forall g, getitem P c = [g] -> s = g) /\
    (c ∉ columns P -> c ∈ columns df -> s = column df c) /\
    (c ∉ columns P -> c ∉ columns df -> all_null s).
Proof.
  intros [Hdf Hnd] Hloop Hasm Hi.
  destruct (placeholder_spec df features P Hdf Hloop) as (HcP & HP & HPn).
  split; [exact HcP|].
  destruct (assembled_Inv df P schema Hdf HP HPn enc Hasm) as (D & HI & HD).
  destruct HI as (Hcols & _ & _ & _ & Hcol).
  assert (Hs : exists s, cols enc !! i = Some (c, s)).
  { unfold columns in Hcols. rewrite <- Hcols, list_lookup_fmap in Hi.
    destruct (cols enc !! i) as [[c0 s0]|]; simpl in Hi; inversion Hi. eauto. }
  destruct Hs as [s Hs]. exists s. split; [done|].
  specialize (Hcol _ _ _ Hs).
  rewrite decide_True in Hcol
    by (apply HD; by apply list_elem_of_lookup_2 in Hi).
  unfold spec_col in Hcol. split; [|split; [|split]].
  - intros HcP'. apply has_column_true, has_column_getitem in HcP'.
    by rewrite decide_True in Hcol.
  - intros g Hg. rewrite Hg in Hcol.
    rewrite decide_True in Hcol by done.
    by apply list_elem_of_singleton in Hcol.
  - intros HcP' Hcdf. apply getitem_nil in HcP'. rewrite HcP' in Hcol.
    rewrite decide_False in Hcol by (by intros ?).
    rewrite (getitem_table df c Hnd Hcdf) in Hcol.
    rewrite decide_True in Hcol by done.
    by apply list_elem_of_singleton in Hcol.
  - intros HcP' Hcdf. apply getitem_nil in HcP', Hcdf.
    rewrite HcP', Hcdf in Hcol.
    by rewrite !decide_False in Hcol by (by intros ?).
Qed.

Lemma assembled_column_witness :
  cols overlap_placeholder
    = flat_map (fun f => cols (dummies overlap_input f)) ["a"] /\
  exists s, cols overlap_encoded !! 0 = Some ("a_x", s) /\
    ("a_x" ∈ columns overlap_placeholder ->
     s ∈ getitem overlap_placeholder "a_x") /\
    (forall g, getitem overlap_placeholder "a_x" = [g] -> s = g) /\
    ("a_x" ∉ columns overlap_placeholder -> "a_x" ∈ columns overlap_input ->
     s = column overlap_input "a_x") /\
    ("a_x" ∉ columns overlap_placeholder -> "a_x" ∉ columns overlap_input ->
     all_null s).
Proof.
  apply (assembled_column overlap_schema ["a"] overlap_input
           overlap_placeholder overlap_encoded 0 "a_x").
  - by_computation.
  - reflexivity.
  - reflexivity.
  - reflexivity.
Defined.

(** The category of a column of integers and [NULL]s is a float, and its
    one-hot column is named like one: the feature [f] with the cells 1 and
    [NULL] generates [f_1.0], which the schema name [f_1] does not match. *)
Example float_column_names :
  encode_loop (Frame 2 [("f", [VInt 1; VNull])]) ["f"] (DataFrame [])
    = Some (Frame 2 [("f_1.0", [VInt 1; VInt 0])]) /\
  encode_loop (Frame 2 [("f", [VInt 1; VInt 2])]) ["f"] (DataFrame [])
    = Some (Frame 2 [("f_1", [VInt 1; VInt 0]); ("f_2", [VInt 0; VInt 1])]) /\
  encode_loop (Frame 3 [("f", [VInt 1; VText "1.0"; VNull])]) ["f"]
              (DataFrame [])
    = Some (Frame 3 [("f_1", [VInt 1; VInt 0; VInt 0]);
                     ("f_1.0", [VInt 0; VInt 1; VInt 0])]) /\
  assembled ["f_1"; label] (Frame 2 [("f", [VInt 1; VNull])])
            (Frame 2 [("f_1.0", [VInt 1; VInt 0])])
    = Ok (Frame 0 [("f_1", []); (label, [])]) /\
  float_str 10000000000000000 = "1e+16" /\
  float_str (-123456789012345678) = "-1.2345678901234568e+17".
Proof. repeat split; by vm_compute. Qed.

(** C2, as stated, fails: a name that is both a column of the input and a
    generated one-hot column does not keep the input's column.  Here the
    input holds 5 under ["a_x"], the one-hot expansion of ["a"] holds 1
    there, and 1 is what the output frame and the persisted table hold. *)
Lemma generated_column_overrides_input :
  "a_x" ∈ columns overlap_input /\
  encode_loop overlap_input ["a"] (DataFrame []) = Some overlap_placeholder /\
  "a_x" ∈ columns overlap_placeholder /\
  assembled overlap_schema overlap_input overlap_placeholder
    = Ok overlap_encoded /\
  column overlap_input "a_x" = [VInt 5] /\
  column overlap_encoded "a_x" = [VInt 1] /\
  column overlap_encoded "a_x" ≠ column overlap_input "a_x" /\
  database (encode_features overlap_schema ["a"]
              {[ "model_input" := overlap_input ]}) !! "features"
    = Some (Frame 1 [("a_x", [VInt 1])]).
Proof.
  split; [by_computation|]. split; [reflexivity|].
  split; [by_computation|]. split; [reflexivity|].
  split; [reflexivity|]. split; [reflexivity|].
  split; [by vm_compute | by vm_compute].
Qed.

(** ** Configurations under which the encoder cannot raise *)

Section SortFacts.

Lemma insert_sorted_perm v l : insert_sorted v l ≡ₚ v :: l.
Proof.
  induction l as [|w l IH]; [done|]. simpl.
  destruct (value_leb v w); [done|]. rewrite IH. apply Permutation_swap.
Qed.

Lemma sort_values_perm l : sort_values l ≡ₚ l.
Proof.
  induction l as [|v l IH]; [done|]. simpl.
  rewrite insert_sorted_perm. by rewrite IH.
Qed.

Lemma NoDup_categories s : NoDup (categories s).
Proof.
  unfold categories. rewrite sort_values_perm. apply NoDup_remove_dups.
Qed.

Lemma elem_of_categories v s :
  v ∈ categories s <-> v ∈ s /\ v ≠ VNull.
Proof.
  unfold categories.
  rewrite sort_values_perm, elem_of_remove_dups, list_elem_of_filter.
  destruct v; simpl; split; intros [? ?]; split; done.
Qed.

End SortFacts.

Section StringFacts.

Lemma strip_prefix_app p s : strip_prefix p (p +:+ s) = Some s.
Proof.
  induction p as [|a p IH]; simpl; [by destruct s|].
  by rewrite Ascii.eqb_refl.
Qed.

Lemma strip_prefix_Some p : forall s r,
  strip_prefix p s = Some r -> s = p +:+ r.
Proof.
  induction p as [|a p IH]; intros s r H; simpl in *.
  - destruct s; by inversion H.
  - destruct s as [|b s]; [done|].
    destruct (Ascii.eqb a b) eqn:E; [|done].
    apply Ascii.eqb_eq in E. subst b. by rewrite (IH s r H).
Qed.

Lemma pretty_N_go_numeric x : forall s,
  (0 < x)%N \/ numeric_like s = true ->
  numeric_like (pretty_N_go x s) = true.
Proof.
  induction (N.lt_wf_0 x) as [x _ IH]; intros s Hs.
  assert (x = 0 \/ 0 < x)%N as [->|Hx] by lia.
  - rewrite pretty_N_go_0. destruct Hs as [Hs|Hs]; [lia|done].
  - rewrite pretty_N_go_step by done. apply IH.
    + by apply N.div_lt.
    + right. unfold pretty_N_char. by repeat case_match.
Qed.

Lemma pretty_N_numeric (x : N) : numeric_like (pretty x) = true.
Proof.
  unfold pretty, pretty_N. case_decide; [done|].
  apply pretty_N_go_numeric. left. lia.
Qed.

(** Python renders an integer as an optional sign and digits. *)
Lemma pretty_Z_numeric (z : Z) : numeric_like (pretty z) = true.
Proof.
  destruct z as [|p|p]; [done| |done].
  apply (pretty_N_numeric (Npos p)).
Qed.

Lemma numeric_like_app s t :
  numeric_like s = true -> numeric_like (s +:+ t) = true.
Proof. by destruct s. Qed.

Lemma scientific_numeric (a : Z) : numeric_like (scientific a) = true.
Proof.
  unfold scientific.
  pose proof (pretty_Z_numeric
                (strip_zeros (Z.to_nat (digits (shortest 17 1 a)))
                             (shortest 17 1 a))) as H.
  by destruct (pretty _) as [|d [|d' rest]].
Qed.

(** Python renders a float as an optional sign followed by a digit. *)
Lemma float_str_numeric (z : Z) : numeric_like (float_str z) = true.
Proof.
  unfold float_str. repeat case_match.
  - apply numeric_like_app, pretty_Z_numeric.
  - done.
  - apply scientific_numeric.
Qed.

(** A category whose label does not look like a number is a text, and is
    labelled by itself. *)
Lemma category_label_text float64 v s :
  category_label float64 v = s -> v <> VNull -> numeric_like s = false ->
  v = VText s.
Proof.
  intros <- Hv Hnum. destruct v as [|z|t]; [done| |done]. simpl in Hnum.
  destruct float64.
  - by rewrite float_str_numeric in Hnum.
  - by rewrite pretty_Z_numeric in Hnum.
Qed.

End StringFacts.

Section Unambiguous.

Lemma filter_fmap_nil {A B} (g : A -> B) (Q : B -> Prop)
    `{forall b, Decision (Q b)} (l : list A) :
  (forall x, x ∈ l -> ~ Q (g x)) -> filter Q (g <$> l) = [].
Proof.
  induction l as [|x l IH]; intros Hl; [done|]. simpl.
  rewrite filter_cons_False by (apply Hl; left).
  apply IH. intros y Hy. apply Hl. by right.
Qed.

Lemma length_filter_fmap_le_1 {A B} (g : A -> B) (Q : B -> Prop)
    `{forall b, Decision (Q b)} (l : list A) (a0 : A) :
  NoDup l -> (forall x, x ∈ l -> Q (g x) -> x = a0) ->
  length (filter Q (g <$> l)) <= 1.
Proof.
  induction l as [|x l IH]; intros Hnd Hl; [simpl; lia|].
  apply NoDup_cons in Hnd as [Hx Hnd]. simpl.
  destruct (decide (Q (g x))) as [HQ|HQ].
  - rewrite filter_cons_True by done.
    rewrite filter_fmap_nil; [simpl; lia|].
    intros y Hy HQy. apply Hx.
    rewrite (Hl x ltac:(left) HQ). rewrite <- (Hl y ltac:(by right) HQy).
    done.
  - rewrite filter_cons_False by done. apply IH; [done|].
    intros y Hy. apply Hl. by right.
Qed.

Lemma dummies_filter_none df f c :
  strip_prefix (f +:+ "_") c = None ->
  filter (fun col => col.1 = c) (cols (dummies df f)) = [].
Proof.
  intros Hnone. unfold dummies, get_dummies_prefixed. cbn [cols].
  apply filter_fmap_nil. intros v _ Hv. simpl in Hv. subst c.
  by rewrite strip_prefix_app in Hnone.
Qed.

Lemma dummies_filter_one df f c s :
  strip_prefix (f +:+ "_") c = Some s -> numeric_like s = false ->
  length (filter (fun col => col.1 = c) (cols (dummies df f))) <= 1.
Proof.
  intros Hsome Hnum. unfold dummies, get_dummies_prefixed. cbn [cols].
  apply (length_filter_fmap_le_1 _ _ _ (VText s)).
  - apply NoDup_categories.
  - intros v Hv Hc. simpl in Hc. subst c.
    rewrite strip_prefix_app in Hsome. inversion Hsome; subst s.
    apply elem_of_categories in Hv as [_ Hv].
    by apply (category_label_text (reads_as_float64 (column df f))).
Qed.

Lemma one_hot_sources_cons f fs c :
  one_hot_sources (f :: fs) c =
  match strip_prefix (f +:+ "_") c with
  | Some s => s :: one_hot_sources fs c
  | None => one_hot_sources fs c
  end.
Proof. reflexivity. Qed.

Lemma no_source_no_column df features c :
  one_hot_sources features c = [] ->
  filter (fun col => col.1 = c)
         (flat_map (fun f => cols (dummies df f)) features) = [].
Proof.
  induction features as [|f fs IH]; intros Hsrc; [done|].
  rewrite one_hot_sources_cons in Hsrc.
  destruct (strip_prefix (f +:+ "_") c) eqn:E; [done|].
  cbn [flat_map]. rewrite filter_app, (dummies_filter_none df f c E).
  by apply IH.
Qed.

Lemma unambiguous_le_1 df features c :
  unambiguous features c = true ->
  length (filter (fun col => col.1 = c)
                 (flat_map (fun f => cols (dummies df f)) features)) <= 1.
Proof.
  unfold unambiguous.
  induction features as [|f fs IH]; intros Hu; [simpl; lia|].
  rewrite one_hot_sources_cons in Hu. cbn [flat_map].
  rewrite filter_app, length_app.
  destruct (strip_prefix (f +:+ "_") c) as [s|] eqn:E.
  - destruct (one_hot_sources fs c) eqn:Efs; [|done].
    rewrite (no_source_no_column df fs c Efs). cbn [length].
    rewrite Nat.add_0_r. apply negb_true_iff in Hu.
    by apply (dummies_filter_one df f c s E).
  - rewrite (dummies_filter_none df f c E). cbn [length]. by apply IH.
Qed.

(** Under an unambiguous configuration no schema name selects more than
    one generated column. *)
Lemma placeholder_getitem_le_1 df features P schema c :
  wf_frame df ->
  encode_loop df features (DataFrame []) = Some P ->
  one_hot_unambiguous schema features = true ->
  c ∈ schema -> length (getitem P c) <= 1.
Proof.
  intros Hdf Hloop Hu Hc.
  destruct (placeholder_spec df features P Hdf Hloop) as (HcP & _).
  unfold getitem. rewrite length_fmap, HcP.
  apply unambiguous_le_1.
  unfold one_hot_unambiguous in Hu. rewrite forallb_forall in Hu.
  apply Hu. by apply list_elem_of_In.
Qed.

Lemma copy_feature_ok df P enc f :
  length (getitem df f) <= 1 -> length (getitem P f) <= 1 ->
  exists enc', copy_feature df P enc f = Ok enc'.
Proof.
  intros Hdf HP. unfold copy_feature.
  assert (Hstep : forall src e, length (getitem src f) <= 1 ->
            exists e', (if has_column f src
                        then setitem e f (nrows src) (getitem src f)
                        else Ok e) = Ok e').
  { intros src e Hsrc. destruct (has_column f src) eqn:E; [|eauto].
    apply has_column_getitem in E.
    destruct (getitem src f) as [|s [|s' l]]; [done| |simpl in Hsrc; lia].
    apply setitem_series_ok. }
  destruct (Hstep df enc Hdf) as [e1 ->]. simpl. apply (Hstep P e1 HP).
Qed.

Lemma assemble_ok df P names :
  (forall c, c ∈ names ->
     length (getitem df c) <= 1 /\ length (getitem P c) <= 1) ->
  forall enc, exists enc', assemble df P names enc = Ok enc'.
Proof.
  induction names as [|f names IH]; intros Hn enc; simpl; [eauto|].
  destruct (Hn f ltac:(left)) as [H1 H2].
  destruct (copy_feature_ok df P enc f H1 H2) as [e1 ->]. simpl.
  apply IH. intros c Hc. apply Hn. by right.
Qed.

End Unambiguous.

(** ** Runs that write their tables *)

Section RunFacts.

Variables (schema features : list string).

Lemma sql_writable_valid names :
  sql_writable names = true -> forallb valid_sqlite_name names = true.
Proof.
  unfold sql_writable. intros H.
  apply andb_true_iff in H as [H _]. by apply andb_true_iff in H as [_ H].
Qed.

(** A table that can be written is written, and replaces the one of that
    name. *)
Lemma to_sql_writable table df (conn : gmap string frame) :
  sql_writable (columns df) = true ->
  to_sql table df conn = (Ok tt, <[table := df]> conn).
Proof.
  intros H. unfold to_sql. by rewrite (sql_writable_valid _ H), H.
Qed.

(** The three ways [to_sql] ends. *)
Lemma to_sql_cases table df (conn : gmap string frame) :
  (sql_writable (columns df) = true /\
   to_sql table df conn = (Ok tt, <[table := df]> conn)) \/
  (sql_writable (columns df) = false /\
   to_sql table df conn = (Exn ValueError, conn)) \/
  (sql_writable (columns df) = false /\
   to_sql table df conn = (Exn OperationalError, delete table conn)).
Proof.
  unfold to_sql. destruct (sql_writable (columns df)) eqn:E.
  - left. by rewrite (sql_writable_valid _ E).
  - right. destruct (forallb valid_sqlite_name (columns df)); auto.
Qed.

Lemma encode_features_Finished conn :
  result (encode_features schema features conn) = Finished ->
  exists df P enc F T,
    conn !! "model_input" = Some df /\
    encode_loop df features (DataFrame []) = Some P /\
    assembled schema df P = Ok enc /\
    drop_column label (fillna0 enc) = Ok F /\
    select (fillna0 enc) label = Ok T /\
    sql_writable (columns F) = true /\
    sql_writable (columns T) = true /\
    encode_features schema features conn
      = Run Finished [] (<["target" := T]> (<["features" := F]> conn)).
Proof.
  unfold encode_features, read_sql, split_frame.
  destruct (conn !! "model_input") as [df|] eqn:E1; [|done].
  destruct (encode_loop df features (DataFrame [])) as [P|] eqn:E2; [|done].
  destruct (assembled schema df P) as [enc|] eqn:E3; simpl; [|done].
  destruct (drop_column label (fillna0 enc)) as [F|] eqn:E4; simpl; [|done].
  destruct (select (fillna0 enc) label) as [T|] eqn:E5; simpl; [|done].
  destruct (to_sql_cases "features" F conn) as [[EF ->]|[[_ ->]|[_ ->]]];
    [|done|done].
  destruct (to_sql_cases "target" T (<["features" := F]> conn))
    as [[ET ->]|[[_ ->]|[_ ->]]]; [|done|done].
  intros _. exists df, P, enc, F, T. repeat (split; [done|]). done.
Qed.

Lemma encode_features_complete conn df P enc F T :
  conn !! "model_input" = Some df ->
  encode_loop df features (DataFrame []) = Some P ->
  assembled schema df P = Ok enc ->
  drop_column label (fillna0 enc) = Ok F ->
  select (fillna0 enc) label = Ok T ->
  sql_writable (columns F) = true ->
  sql_writable (columns T) = true ->
  encode_features schema features conn
    = Run Finished [] (<["target" := T]> (<["features" := F]> conn)).
Proof.
  intros H1 H2 H3 H4 H5 H6 H7.
  unfold encode_features, read_sql, split_frame.
  by rewrite H1, H2, H3; simpl; rewrite H4; simpl; rewrite H5; simpl;
     rewrite (to_sql_writable _ _ _ H6), (to_sql_writable _ _ _ H7).
Qed.

Lemma lookup_written (conn : gmap string frame) F T :
  <["target" := T]> (<["features" := F]> conn) !! "features" = Some F /\
  <["target" := T]> (<["features" := F]> conn) !! "target" = Some T.
Proof.
  split.
  - rewrite lookup_insert_ne by done. apply lookup_insert_eq.
  - apply lookup_insert_eq.
Qed.

Lemma columns_filter (Q : string -> Prop) `{forall c, Decision (Q c)}
    (cs : list (string * series)) :
  (filter (fun c => Q c.1) cs).*1 = filter Q cs.*1.
Proof.
  induction cs as [|[c s] cs IH]; [done|].
  rewrite (fmap_cons fst). cbn [fst].
  destruct (decide (Q c)) as [HQ|HQ].
  - rewrite (filter_cons_True Q) by done.
    rewrite (filter_cons_True (fun c => Q c.1)) by done.
    rewrite (fmap_cons fst). cbn [fst]. f_equal. exact IH.
  - rewrite (filter_cons_False Q) by done.
    rewrite (filter_cons_False (fun c => Q c.1)) by done. exact IH.
Qed.

Lemma columns_drop name n (df : frame) :
  columns (Frame n (filter (fun c => c.1 ≠ name) (cols df)))
  = filter (fun c => c ≠ name) (columns df).
Proof. exact (columns_filter (fun c => c ≠ name) (cols df)). Qed.

Lemma columns_select name n (df : frame) :
  columns (Frame n (filter (fun c => c.1 = name) (cols df)))
  = filter (fun c => c = name) (columns df).
Proof. exact (columns_filter (fun c => c = name) (cols df)). Qed.

Lemma columns_fillna0 enc : columns (fillna0 enc) = columns enc.
Proof.
  unfold columns, fillna0. simpl.
  induction (cols enc) as [|c cs IH]; [done|]. simpl. f_equal. exact IH.
Qed.

Lemma wf_fillna0 enc : wf_frame enc -> wf_frame (fillna0 enc).
Proof.
  unfold wf_frame, fillna0. simpl. intros H.
  apply Forall_fmap. eapply Forall_impl; [exact H|].
  intros c Hc. simpl. by rewrite length_fmap.
Qed.

Lemma drop_column_Ok name enc F :
  drop_column name enc = Ok F ->
  name ∈ columns enc /\
  F = Frame (nrows enc) (filter (fun c => c.1 ≠ name) (cols enc)).
Proof.
  unfold drop_column. destruct (has_column name enc) eqn:E; [|done].
  intros H. inversion H. split; [by apply has_column_true|done].
Qed.

Lemma select_Ok name enc T :
  select enc name = Ok T ->
  name ∈ columns enc /\
  T = Frame (nrows enc) (filter (fun c => c.1 = name) (cols enc)).
Proof.
  unfold select. destruct (has_column name enc) eqn:E; [|done].
  intros H. inversion H. split; [by apply has_column_true|done].
Qed.

Lemma wf_filter (Q : string * series -> Prop) `{forall c, Decision (Q c)}
    n (cs : list (string * series)) :
  wf_frame (Frame n cs) -> wf_frame (Frame n (filter Q cs)).
Proof.
  unfold wf_frame. simpl. intros Hwf. apply Forall_forall.
  intros c Hc. apply list_elem_of_filter in Hc as [_ Hc].
  rewrite Forall_forall in Hwf. by apply Hwf.
Qed.

(** The generated columns are the columns of [placeholder_df]. *)
Lemma columns_placeholder df P :
  wf_frame df ->
  encode_loop df features (DataFrame []) = Some P ->
  columns P = one_hot_names df features.
Proof.
  intros Hdf Hloop.
  destruct (placeholder_spec df features P Hdf Hloop) as (HcP & _).
  unfold columns, one_hot_names. by rewrite HcP.
Qed.

End RunFacts.

(** C4 (amended).  On every run of [encode_features] that writes its
    tables, the persisted [features] and [target] tables are rectangular and
    have the same number of rows.  That number is the number of rows of
    [model_input] when at least one name of the configured schema is a
    column of the input or the name of a generated one-hot column; when no
    schema name is either, both tables have no rows. *)
Theorem encode_features_row_counts
    (schema features : list string) (conn : gmap string frame) (df : frame) :
  conn !! "model_input" = Some df ->
  wf_frame df ->
  result (encode_features schema features conn) = Finished ->
  exists F T,
    database (encode_features schema features conn) !! "features" = Some F /\
    database (encode_features schema features conn) !! "target" = Some T /\
    wf_frame F /\ wf_frame T /\
    nrows F = nrows T /\
    ((exists c, c ∈ schema /\
                (c ∈ columns df \/ c ∈ one_hot_names df features)) ->
     nrows F = nrows df) /\
    ((forall c, c ∈ schema ->
                (c ∉ columns df) /\ (c ∉ one_hot_names df features)) ->
     nrows F = 0).
Proof.
  intros Hread Hdf Hfin.
  destruct (encode_features_Finished schema features conn Hfin)
    as (df' & P & enc & F & T & Hread' & Hloop & Hasm & HF & HT & _ & _ & Hrun).
  rewrite Hread in Hread'. inversion Hread'; subst df'; clear Hread'.
  destruct (placeholder_spec df features P Hdf Hloop) as (_ & HP & HPn).
  destruct (assembled_Inv df P schema Hdf HP HPn enc Hasm) as (D & HI & HD).
  destruct HI as (_ & Hwf & Hsome & Hnone & _).
  apply drop_column_Ok in HF as [_ ->]. apply select_Ok in HT as [_ ->].
  rewrite Hrun. cbn [database].
  destruct (lookup_written conn
              (Frame (nrows (fillna0 enc))
                     (filter (fun c => c.1 ≠ label) (cols (fillna0 enc))))
              (Frame (nrows (fillna0 enc))
                     (filter (fun c => c.1 = label) (cols (fillna0 enc)))))
    as [HlF HlT].
  eexists _, _. split; [exact HlF|]. split; [exact HlT|].
  pose proof (wf_fillna0 enc Hwf) as Hwf'.
  assert (Hwf'' : wf_frame (Frame (nrows (fillna0 enc)) (cols (fillna0 enc))))
    by exact Hwf'.
  split; [by apply wf_filter|]. split; [by apply wf_filter|].
  split; [done|]. cbn [nrows fillna0].
  rewrite <- (columns_placeholder features df P Hdf Hloop).
  split.
  - intros (c & Hc & Hm). apply Hsome. exists c. split; [by apply HD|done].
  - intros Hall. apply Hnone. intros c Hc [Hm|Hm];
      apply HD in Hc; destruct (Hall c Hc); done.
Qed.

Lemma encode_features_row_counts_witness :
  exists F T,
    database (encode_features scenario_schema ["city"; "source"]
                scenario_store) !! "features" = Some F /\
    database (encode_features scenario_schema ["city"; "source"]
                scenario_store) !! "target" = Some T /\
    wf_frame F /\ wf_frame T /\
    nrows F = nrows T /\
    ((exists c, c ∈ scenario_schema /\
                (c ∈ columns scenario_input \/
                 c ∈ one_hot_names scenario_input ["city"; "source"])) ->
     nrows F = nrows scenario_input) /\
    ((forall c, c ∈ scenario_schema ->
                (c ∉ columns scenario_input) /\
                (c ∉ one_hot_names scenario_input ["city"; "source"])) ->
     nrows F = 0).
Proof.
  apply (encode_features_row_counts scenario_schema ["city"; "source"]
           scenario_store scenario_input).
  - reflexivity.
  - by_computation.
  - reflexivity.
Defined.

(** C4, as stated, fails: a run can write its tables with fewer rows than
    [model_input] has.  Here the input has one row, no schema name is a
    column of the input or a generated column, the run writes both tables,
    and both are empty. *)
Lemma row_count_lost :
  unmatched_store !! "model_input" = Some unmatched_input /\
  nrows unmatched_input = 1 /\
  encode_features scenario_schema ["city"; "source"] unmatched_store
    = Run Finished []
        (<["target" := Frame 0 [(label, [])]]>
           (<["features" := Frame 0 [("city_A", []); ("city_B", []);
                                    ("source_X", []); ("source_Y", [])]]>
              unmatched_store)) /\
  nrows (Frame 0 [("city_A", []); ("city_B", []);
                  ("source_X", []); ("source_Y", [])])
    ≠ nrows unmatched_input.
Proof.
  split; [reflexivity|]. split; [reflexivity|].
  split; [by vm_compute | by vm_compute].
Qed.

(** A feature of integers and [NULL]s is a column of floats: its one-hot
    columns are named [f_1.0], ..., so that the schema name [f_1] matches
    nothing (here both tables are written without rows, also when the
    feature is listed twice), while the schema name [f_1.0] is matched and
    persisted as the indicator of 1. *)
Example float_feature_runs :
  encode_features ["f_1"; label] ["f"]
    {[ "model_input" := Frame 2 [("f", [VInt 1; VNull])] ]}
  = Run Finished []
      (<["target" := Frame 0 [(label, [])]]>
         (<["features" := Frame 0 [("f_1", [])]]>
            {[ "model_input" := Frame 2 [("f", [VInt 1; VNull])] ]})) /\
  encode_features ["f_1"; label] ["f"; "f"]
    {[ "model_input" := Frame 2 [("f", [VInt 1; VNull])] ]}
  = Run Finished []
      (<["target" := Frame 0 [(label, [])]]>
         (<["features" := Frame 0 [("f_1", [])]]>
            {[ "model_input" := Frame 2 [("f", [VInt 1; VNull])] ]})) /\
  encode_features ["f_1.0"; label] ["f"]
    {[ "model_input" := Frame 2 [("f", [VInt 1; VNull])] ]}
  = Run Finished []
      (<["target" := Frame 2 [(label, [VInt 0; VInt 0])]]>
         (<["features" := Frame 2 [("f_1.0", [VInt 1; VInt 0])]]>
            {[ "model_input" := Frame 2 [("f", [VInt 1; VNull])] ]})).
Proof. repeat split; by vm_compute. Qed.

(** ** The columns of the written tables *)

Section ColumnFacts.

Lemma columns_ensure_valid_index df n :
  columns (ensure_valid_index df n) = columns df.
Proof.
  unfold ensure_valid_index, columns.
  destruct (_ && _); [|done]. cbn [cols]. apply columns_reindex_cols.
Qed.

Lemma setitem_columns df name n vals df' :
  name ∈ columns df -> setitem df name n vals = Ok df' ->
  columns df' = columns df.
Proof.
  intros Hin Hset. unfold setitem in Hset.
  assert (Hhas : has_column name (ensure_valid_index df n) = true).
  { apply has_column_true. by rewrite columns_ensure_valid_index. }
  rewrite <- (columns_ensure_valid_index df n).
  destruct vals as [|x [|y vals]].
  - destruct (_ =? _)%nat in Hset; [|done]. inversion Hset.
    unfold columns. cbn [cols]. apply columns_set_each.
  - rewrite Hhas in Hset. inversion Hset.
    unfold columns. cbn [cols]. apply columns_set_all.
  - destruct (_ =? _)%nat in Hset; [|done]. inversion Hset.
    unfold columns. cbn [cols]. apply columns_set_each.
Qed.

Lemma copy_feature_columns df P enc f enc' :
  f ∈ columns enc -> copy_feature df P enc f = Ok enc' ->
  columns enc' = columns enc.
Proof.
  intros Hin Hcopy. unfold copy_feature in Hcopy.
  destruct (has_column f df).
  - destruct (setitem enc f (nrows df) (getitem df f)) as [e1|] eqn:E1;
      simpl in Hcopy; [|done].
    pose proof (setitem_columns _ _ _ _ _ Hin E1) as H1.
    destruct (has_column f P).
    + rewrite <- H1. apply (setitem_columns _ _ _ _ _ ltac:(by rewrite H1) Hcopy).
    + by inversion Hcopy; subst.
  - simpl in Hcopy. destruct (has_column f P).
    + apply (setitem_columns _ _ _ _ _ Hin Hcopy).
    + by inversion Hcopy; subst.
Qed.

Lemma assemble_columns df P names : forall enc enc',
  Forall (fun c => c ∈ columns enc) names ->
  assemble df P names enc = Ok enc' -> columns enc' = columns enc.
Proof.
  induction names as [|f names IH]; intros enc enc' Hsub Hrun;
    simpl in Hrun.
  - by inversion Hrun.
  - apply Forall_cons in Hsub as [Hf Hsub].
    destruct (copy_feature df P enc f) as [e1|] eqn:E1; simpl in Hrun;
      [|done].
    pose proof (copy_feature_columns _ _ _ _ _ Hf E1) as H1.
    rewrite <- H1. apply IH; [|done]. by rewrite H1.
Qed.

Lemma columns_DataFrame names : columns (DataFrame names) = names.
Proof.
  unfold columns, DataFrame. cbn [cols].
  induction names as [|c l IH]; [done|]. simpl. f_equal. exact IH.
Qed.

(** The second loop keeps the labels of [encoded_df]. *)
Lemma assembled_columns schema df P enc :
  assembled schema df P = Ok enc -> columns enc = schema.
Proof.
  intros H. unfold assembled in H.
  assert (Hsub : Forall (fun c => c ∈ columns (DataFrame schema)) schema).
  { rewrite columns_DataFrame. by apply Forall_forall. }
  rewrite (assemble_columns _ _ _ _ _ Hsub H). apply columns_DataFrame.
Qed.

Lemma same_label_once {B} (g : string -> B) (l : list string) (a : string) :
  (forall x, x ∈ l -> x = a) -> NoDup (g <$> l) -> length l <= 1.
Proof.
  intros Hall Hnd. destruct l as [|x [|y l]]; simpl; [lia|lia|].
  exfalso. simpl in Hnd. apply NoDup_cons in Hnd as [Hx _].
  apply Hx. rewrite (Hall x ltac:(left)).
  rewrite (Hall y ltac:(right; left)). left.
Qed.

Lemma sql_writable_NoDup names :
  sql_writable names = true -> NoDup (sql_fold <$> names).
Proof.
  unfold sql_writable. intros H.
  apply andb_true_iff in H as [_ H]. by apply bool_decide_eq_true in H.
Qed.

(** A selection by one label that sqlite accepts is a single column. *)
Lemma writable_selection name (names : list string) :
  name ∈ names ->
  sql_writable (filter (fun c => c = name) names) = true ->
  filter (fun c => c = name) names = [name].
Proof.
  intros Hin Hw. apply sql_writable_NoDup in Hw.
  assert (Hall : forall x, x ∈ filter (fun c => c = name) names -> x = name).
  { intros x Hx. by apply list_elem_of_filter in Hx as [? _]. }
  pose proof (same_label_once sql_fold _ name Hall Hw) as Hlen.
  assert (Hname : name ∈ filter (fun c => c = name) names)
    by by apply list_elem_of_filter.
  destruct (filter _ names) as [|x [|y l]]; simpl in Hlen;
    [by apply elem_of_nil in Hname| |lia].
  by rewrite (Hall x ltac:(left)).
Qed.

End ColumnFacts.

Section Completion.

Variables (schema features : list string).

Lemma schema_ok_label :
  schema_ok schema = true ->
  label ∈ schema /\
  filter (fun c => c = label) schema = [label] /\
  sql_writable (filter (fun c => c ≠ label) schema) = true.
Proof.
  unfold schema_ok. intros H. apply andb_true_iff in H as [H1 H2].
  apply bool_decide_eq_true in H1. split; [|done].
  assert (Hin : label ∈ filter (fun c => c = label) schema)
    by (rewrite H1; left).
  by apply list_elem_of_filter in Hin as [_ ?].
Qed.

(** Under a configuration whose schema can be written and whose one-hot
    names are unambiguous, a table that has every feature to encode is
    encoded and written. *)
Lemma encode_features_completes conn df :
  conn !! "model_input" = Some df ->
  is_table df ->
  Forall (fun f => f ∈ columns df) features ->
  schema_ok schema = true ->
  one_hot_unambiguous schema features = true ->
  exists P enc,
    encode_loop df features (DataFrame []) = Some P /\
    assembled schema df P = Ok enc /\
    encode_features schema features conn
      = Run Finished []
          (<["target" := Frame (nrows enc)
               (filter (fun c => c.1 = label) (cols (fillna0 enc)))]>
             (<["features" := Frame (nrows enc)
                  (filter (fun c => c.1 ≠ label) (cols (fillna0 enc)))]>
                conn)).
Proof.
  intros Hread [Hdf Hnd] Hall Hok Hu.
  destruct (encode_loop_present df features (DataFrame []) Hall)
    as [P Hloop].
  destruct (assemble_ok df P schema) with (enc := DataFrame schema)
    as [enc Hasm].
  { intros c Hc. split; [by apply length_getitem_table|].
    by apply (placeholder_getitem_le_1 df features P schema). }
  exists P, enc. split; [done|]. split; [done|].
  destruct (schema_ok_label Hok) as (Hlab & Hsel & Hw).
  pose proof (assembled_columns schema df P enc Hasm) as Hcols.
  assert (Hhas : has_column label (fillna0 enc) = true).
  { apply has_column_true. by rewrite columns_fillna0, Hcols. }
  apply (encode_features_complete schema features conn df P enc);
    try done.
  - unfold drop_column. by rewrite Hhas.
  - unfold select. by rewrite Hhas.
  - rewrite (columns_drop label _ (fillna0 enc)).
    by rewrite columns_fillna0, Hcols.
  - rewrite (columns_select label _ (fillna0 enc)).
    by rewrite columns_fillna0, Hcols, Hsel.
Qed.

End Completion.

(** C5.  Whenever [encode_features] writes its tables, the [features] table
    has exactly the names of the configured schema other than the label, in
    the configured order, and the [target] table has exactly one column,
    the label.  It does write them, for every input table that has every
    feature to encode, when the schema holds the label once, what is left
    of it can be the columns of a table, and no schema name can be
    generated in two ways. *)
Theorem features_target_columns
    (schema features : list string) (conn : gmap string frame) (df : frame) :
  conn !! "model_input" = Some df ->
  Forall (fun f => f ∈ columns df) features ->
  (result (encode_features schema features conn) = Finished ->
   exists F T,
     database (encode_features schema features conn) !! "features" = Some F /\
     database (encode_features schema features conn) !! "target" = Some T /\
     columns F = filter (fun c => c ≠ label) schema /\
     columns T = [label]) /\
  (is_table df -> schema_ok schema = true ->
   one_hot_unambiguous schema features = true ->
   result (encode_features schema features conn) = Finished).
Proof.
  intros Hread Hall. split.
  - intros Hfin.
    destruct (encode_features_Finished schema features conn Hfin)
      as (df' & P & enc & F & T & _ & _ & Hasm & HF & HT & _ & HwT & Hrun).
    rewrite Hrun. cbn [database].
    destruct (lookup_written conn F T) as [HlF HlT].
    exists F, T. split; [done|]. split; [done|].
    pose proof (assembled_columns schema df' P enc Hasm) as Hcols.
    apply drop_column_Ok in HF as [_ ->].
    apply select_Ok in HT as [Hlab ->].
    rewrite columns_fillna0, Hcols in Hlab.
    rewrite (columns_select label _ (fillna0 enc)) in *.
    rewrite (columns_drop label _ (fillna0 enc)).
    rewrite columns_fillna0, Hcols in *.
    split; [done|]. by apply writable_selection.
  - intros Htab Hok Hu.
    destruct (encode_features_completes schema features conn df
                Hread Htab Hall Hok Hu) as (P & enc & _ & _ & ->).
    done.
Qed.

Lemma features_target_columns_witness :
  (exists F T,
     database (encode_features scenario_schema ["city"; "source"]
                 scenario_store) !! "features" = Some F /\
     database (encode_features scenario_schema ["city"; "source"]
                 scenario_store) !! "target" = Some T /\
     columns F = ["city_A"; "city_B"; "source_X"; "source_Y"] /\
     columns T = [label]) /\
  result (encode_features scenario_schema ["city"; "source"] scenario_store)
    = Finished.
Proof.
  destruct (features_target_columns scenario_schema ["city"; "source"]
              scenario_store scenario_input) as [Hcols Hfin].
  - reflexivity.
  - by_computation.
  - assert (Hres : result (encode_features scenario_schema ["city"; "source"]
                             scenario_store) = Finished).
    { apply Hfin; [by_computation | reflexivity | reflexivity]. }
    split; [exact (Hcols Hres) | exact Hres].
Defined.

(** ** What [fillna] leaves in the written tables *)

Section FillFacts.

Lemma fill0_not_null v : fill0 v ≠ VNull.
Proof. by destruct v. Qed.

Lemma fill0_spec v : fill0 v = if decide (v = VNull) then VInt 0 else v.
Proof. by destruct v. Qed.

Lemma fill0_all_null s :
  all_null s -> fill0 <$> s = replicate (length s) (VInt 0).
Proof.
  induction 1 as [|v s Hv _ IH]; [done|]. subst v. simpl. f_equal. exact IH.
Qed.

Lemma elem_of_cols_fillna0 enc name s :
  (name, s) ∈ cols (fillna0 enc) <->
  exists s0, (name, s0) ∈ cols enc /\ s = fill0 <$> s0.
Proof.
  unfold fillna0. cbn [cols]. rewrite list_elem_of_fmap. split.
  - intros ([c s0] & Heq & Hin). simpl in Heq. inversion Heq; subst. eauto.
  - intros (s0 & Hin & ->). by exists (name, s0).
Qed.

End FillFacts.

(** C6.  On every run of [encode_features] that writes its tables, no cell
    of the persisted [features] and [target] tables is null; and each column
    of the assembled frame is persisted, in [target] when it is the label
    and in [features] otherwise, with every missing cell replaced by the
    integer 0 and every other cell unchanged. *)
Theorem persisted_cells_filled
    (schema features : list string) (conn : gmap string frame) :
  result (encode_features schema features conn) = Finished ->
  exists df P enc F T,
    conn !! "model_input" = Some df /\
    encode_loop df features (DataFrame []) = Some P /\
    assembled schema df P = Ok enc /\
    database (encode_features schema features conn) !! "features" = Some F /\
    database (encode_features schema features conn) !! "target" = Some T /\
    (forall name s v,
       (name, s) ∈ cols F \/ (name, s) ∈ cols T -> v ∈ s -> v ≠ VNull) /\
    (forall i name s, cols enc !! i = Some (name, s) ->
       exists s',
         (name, s') ∈ (if decide (name = label) then cols T else cols F) /\
         length s' = length s /\
         forall k v, s !! k = Some v ->
           s' !! k = Some (if decide (v = VNull) then VInt 0 else v)).
Proof.
  intros Hfin.
  destruct (encode_features_Finished schema features conn Hfin)
    as (df & P & enc & F & T & Hread & Hloop & Hasm & HF & HT & _ & _ & Hrun).
  exists df, P, enc, F, T. rewrite Hrun. cbn [database].
  destruct (lookup_written conn F T) as [HlF HlT].
  repeat (split; [done|]).
  apply drop_column_Ok in HF as [_ ->]. apply select_Ok in HT as [_ ->].
  cbn [cols]. split.
  - intros name s v Hin Hv.
    assert (Hs : (name, s) ∈ cols (fillna0 enc)).
    { destruct Hin as [Hin|Hin];
        by apply list_elem_of_filter in Hin as [_ ?]. }
    apply elem_of_cols_fillna0 in Hs as (s0 & _ & ->).
    apply list_elem_of_fmap in Hv as (v0 & -> & _). apply fill0_not_null.
  - intros i name s Hi. exists (fill0 <$> s).
    assert (Hs : (name, fill0 <$> s) ∈ cols (fillna0 enc)).
    { apply elem_of_cols_fillna0. exists s. split; [|done].
      by apply list_elem_of_lookup_2 in Hi. }
    split; [|split].
    + destruct (decide (name = label)); by apply list_elem_of_filter.
    + apply length_fmap.
    + intros k v Hk. by rewrite list_lookup_fmap, Hk, <- fill0_spec.
Qed.

Lemma persisted_cells_filled_witness :
  exists df P enc F T,
    unmatched_store !! "model_input" = Some df /\
    encode_loop df ["city"] (DataFrame []) = Some P /\
    assembled ["city"; "city_C"; label] df P = Ok enc /\
    database (encode_features ["city"; "city_C"; label] ["city"]
                unmatched_store) !! "features" = Some F /\
    database (encode_features ["city"; "city_C"; label] ["city"]
                unmatched_store) !! "target" = Some T /\
    (forall name s v,
       (name, s) ∈ cols F \/ (name, s) ∈ cols T -> v ∈ s -> v ≠ VNull) /\
    (forall i name s, cols enc !! i = Some (name, s) ->
       exists s',
         (name, s') ∈ (if decide (name = label) then cols T else cols F) /\
         length s' = length s /\
         forall k v, s !! k = Some v ->
           s' !! k = Some (if decide (v = VNull) then VInt 0 else v)).
Proof.
  apply (persisted_cells_filled ["city"; "city_C"; label] ["city"]
           unmatched_store).
  reflexivity.
Defined.

(** C10 (amended).  For every input table that has every feature to encode
    but no label column, and for which no generated one-hot column is named
    like the label: a run of [encode_features] that writes its tables has
    printed nothing, and its [target] table is the single column
    [app_complete_flag] of zeros, with as many rows as the [features]
    table; that is one zero per row of [model_input] when some name of the
    schema is a column of the input or the name of a generated column, and
    no row at all otherwise.  The run does write its tables when the schema
    holds the label once, what is left of it can be the columns of a table,
    and no schema name can be generated in two ways. *)
Theorem absent_label_zero_target
    (schema features : list string) (conn : gmap string frame) (df : frame) :
  conn !! "model_input" = Some df ->
  is_table df ->
  Forall (fun f => f ∈ columns df) features ->
  label ∉ columns df ->
  label ∉ one_hot_names df features ->
  (result (encode_features schema features conn) = Finished ->
   exists F T,
     encode_features schema features conn
       = Run Finished [] (<["target" := T]> (<["features" := F]> conn)) /\
     nrows F = nrows T /\
     cols T = [(label, replicate (nrows T) (VInt 0))] /\
     ((exists c, c ∈ schema /\
                 (c ∈ columns df \/ c ∈ one_hot_names df features)) ->
      nrows T = nrows df) /\
     ((forall c, c ∈ schema ->
                 (c ∉ columns df) /\ (c ∉ one_hot_names df features)) ->
      nrows T = 0)) /\
  (schema_ok schema = true -> one_hot_unambiguous schema features = true ->
   result (encode_features schema features conn) = Finished).
Proof.
  intros Hread Htab Hall Hlab Hgen. split.
  - intros Hfin.
    destruct (encode_features_Finished schema features conn Hfin)
      as (df' & P & enc & F & T & Hread' & Hloop & Hasm & HF & HT & _ & HwT
          & Hrun).
    rewrite Hread in Hread'. inversion Hread'; subst df'; clear Hread'.
    destruct Htab as [Hdf Hnd].
    exists F, T. split; [exact Hrun|].
    pose proof (assembled_columns schema df P enc Hasm) as Hcols.
    destruct (placeholder_spec df features P Hdf Hloop) as (_ & HP & HPn).
    destruct (assembled_Inv df P schema Hdf HP HPn enc Hasm) as (D & HI & HD).
    destruct HI as (_ & Hwf & Hsome & Hnone & Hcol).
    apply drop_column_Ok in HF as [_ ->].
    apply select_Ok in HT as [Hin ->].
    rewrite columns_fillna0, Hcols in Hin.
    split; [done|]. cbn [cols nrows].
    change (nrows (fillna0 enc)) with (nrows enc).
    rewrite <- (columns_placeholder features df P Hdf Hloop) in *.
    split; [|split].
    + rewrite (columns_select label _ (fillna0 enc)) in HwT.
      rewrite columns_fillna0, Hcols in HwT.
      pose proof (writable_selection label schema Hin HwT) as Hsel.
      pose proof (columns_select label (nrows enc) (fillna0 enc)) as Hnames.
      rewrite columns_fillna0, Hcols, Hsel in Hnames.
      unfold columns in Hnames. cbn [cols] in Hnames.
      destruct (filter (fun c => c.1 = label) (cols (fillna0 enc)))
        as [|[c s] [|c' l]] eqn:E; simpl in Hnames; try done.
      inversion Hnames; subst c. f_equal. f_equal.
      assert (Hs : (label, s) ∈ cols (fillna0 enc)).
      { assert (Hin' : (label, s) ∈ filter (fun c => c.1 = label)
                                       (cols (fillna0 enc)))
          by (rewrite E; left).
        by apply list_elem_of_filter in Hin' as [_ ?]. }
      apply elem_of_cols_fillna0 in Hs as (s0 & Hs0 & ->).
      apply list_elem_of_lookup_1 in Hs0 as [i Hi].
      pose proof (Hcol _ _ _ Hi) as Hspec.
      rewrite decide_True in Hspec
        by (apply HD; rewrite <- Hcols; unfold columns;
            apply list_elem_of_fmap; exists (label, s0); split; [done|];
            by apply list_elem_of_lookup_2 in Hi).
      apply spec_col_unmatched in Hspec.
      * rewrite (fill0_all_null _ Hspec). f_equal.
        unfold wf_frame in Hwf. rewrite Forall_lookup in Hwf.
        apply (Hwf _ _ Hi).
      * intros [Hm|Hm]; done.
    + intros (c & Hc & Hm). apply Hsome. exists c. split; [by apply HD|done].
    + intros Hnon. apply Hnone. intros c Hc [Hm|Hm];
        apply HD in Hc; destruct (Hnon c Hc); done.
  - intros Hok Hu.
    destruct (encode_features_completes schema features conn df
                Hread Htab Hall Hok Hu) as (P & enc & _ & _ & ->).
    done.
Qed.

Lemma absent_label_zero_target_witness :
  exists F T,
    encode_features scenario_schema ["city"; "source"] unlabelled_store
      = Run Finished []
          (<["target" := T]> (<["features" := F]> unlabelled_store)) /\
    nrows F = nrows T /\
    cols T = [(label, replicate (nrows T) (VInt 0))] /\
    ((exists c, c ∈ scenario_schema /\
                (c ∈ columns unlabelled_input \/
                 c ∈ one_hot_names unlabelled_input ["city"; "source"])) ->
     nrows T = nrows unlabelled_input) /\
    ((forall c, c ∈ scenario_schema ->
                (c ∉ columns unlabelled_input) /\
                (c ∉ one_hot_names unlabelled_input ["city"; "source"])) ->
     nrows T = 0).
Proof.
  refine (proj1 (absent_label_zero_target scenario_schema ["city"; "source"]
                   unlabelled_store unlabelled_input _ _ _ _ _) _).
  - reflexivity.
  - by_computation.
  - by_computation.
  - by_computation.
  - by_computation.
  - reflexivity.
Defined.

(** C10, as stated, fails: the zero-fill is not the only source of the
    target's cells.  Here the input has the feature to encode and no label
    column, the run raises nothing, prints nothing and writes both tables,
    but the one-hot expansion of the feature [app_complete] has a column
    for the value [flag], named [app_complete_flag] like the label, and the
    [target] table holds that indicator: a 1 in the first row. *)
Lemma generated_label_fills_target :
  flag_store !! "model_input" = Some flag_input /\
  Forall (fun f => f ∈ columns flag_input) ["app_complete"] /\
  (label ∉ columns flag_input) /\
  encode_features flag_schema ["app_complete"] flag_store
    = Run Finished []
        (<["target" := Frame 2 [(label, [VInt 1; VInt 0])]]>
           (<["features" := Frame 2 [("app_complete_no", [VInt 0; VInt 1])]]>
              flag_store)) /\
  VInt 1 ∈ column (Frame 2 [(label, [VInt 1; VInt 0])]) label.
Proof.
  split; [reflexivity|]. split; [by_computation|]. split; [by_computation|].
  split; [by vm_compute | by_computation].
Qed.

(** * Properties of the trainer *)

Section TrainerFacts.

Context `{L : Libraries} `{C : !Constants} `{T : !Tracking}.

Lemma logged_metrics_app (l1 l2 : list event) :
  logged_metrics (l1 ++ l2) = logged_metrics l1 ++ logged_metrics l2.
Proof. unfold logged_metrics. apply flat_map_app. Qed.

Lemma metric_calls_app (l1 l2 : list event) :
  metric_calls (l1 ++ l2) = metric_calls l1 ++ metric_calls l2.
Proof. unfold metric_calls. apply flat_map_app. Qed.

(** The two ways a call of MLflow ends. *)
Lemma emit_cases e w :
  (exists st, mlflow e (service w) = (None, st) /\
     emit e w = (Ok tt, World st (numpy w) (sent w ++ [e]))) \/
  (exists x st, mlflow e (service w) = (Some x, st) /\
     emit e w = (Exn x, World st (numpy w) (sent w))).
Proof.
  unfold emit. destruct (mlflow e (service w)) as [[x|] st].
  - right. by exists x, st.
  - left. by exists st.
Qed.

Ltac run_step :=
  match goal with
  | H : context [match ?m with Ok _ => _ | Exn _ => _ end] |- _ =>
      let E := fresh "E" in destruct m eqn:E; cbn beta iota in H
  | H : context [let (_, _) := mlflow ?e ?st in _] |- _ =>
      let E := fresh "E" in
      destruct (mlflow e st) as [[?|] ?] eqn:E;
      cbn beta iota in H; cbn [service numpy sent] in H
  end.

Ltac tidy_log :=
  rewrite ?logged_metrics_app, ?metric_calls_app;
  cbn [logged_metrics metric_calls flat_map app fmap list_fmap fst];
  rewrite ?app_nil_r.

Ltac pick_count :=
  first [ exists 0%nat; done | exists 1%nat; done | exists 2%nat; done
        | exists 3%nat; done | exists 4%nat; done | exists 5%nat; done
        | exists 6%nat; done | exists 7%nat; done | exists 8%nat; done
        | exists 9%nat; done | exists 10%nat; done | exists 11%nat; done
        | exists 12%nat; done | exists 13%nat; done ].

Lemma evaluate_spec y_pred y_test w r w' :
  evaluate y_pred y_test w = (r, w') ->
  numpy w' = numpy w /\
  exists rest, sent w' = sent w ++ rest /\ evaluated y_pred y_test r rest.
Proof.
  unfold evaluate. cbv beta iota delta [bind call lift emit ret].
  cbn [service numpy sent]. intros H.
  repeat run_step; inversion H; subst; clear H; cbn [numpy sent];
    (split; [reflexivity|]);
    rewrite <- ?app_assoc; cbn [app];
    (eexists; split; [reflexivity|]);
    unfold evaluated;
    (split; [tidy_log; first
       [ exists 1%nat; split; [lia|done] | exists 2%nat; split; [lia|done]
       | exists 3%nat; split; [lia|done] | exists 4%nat; split; [lia|done]
       | exists 5%nat; split; [lia|done] | exists 6%nat; split; [lia|done]
       | exists 7%nat; split; [lia|done] | exists 8%nat; split; [lia|done]
       | exists 9%nat; split; [lia|done] ]|]);
    (split; [tidy_log; pick_count|]);
    (split; [repeat constructor|]);
    try (intros [Hok|Hlog]; [discriminate Hok|];
         cbn [logged_metrics flat_map app] in Hlog; done).
  all: intros _;
    match goal with
    | E1 : accuracy _ _ = Ok ?acc, E2 : roc_auc _ _ = Ok ?auc,
      E3 : macro_precision _ _ = Ok ?p, E4 : macro_recall _ _ = Ok ?rc,
      E5 : macro_f1 _ _ = Ok ?f, E6 : cell _ 0 0 = Ok ?tn,
      E7 : cell _ 1 0 = Ok ?fn, E8 : binary_prfs (VInt 0) _ _ = Ok ?cz,
      E9 : binary_prfs (VInt 1) _ _ = Ok ?co |- _ =>
        exists (Scores _ acc auc p rc f tn fn cz co)
    end;
    (split; [by repeat split|]);
    (split; [by tidy_log|]);
    (split; [tidy_log; pick_count|]);
    first [ by intros Hr | intros _; by tidy_log ].
Qed.


(** [ActiveRun.__exit__] sends at most [end_run], calls no metric function
    and logs no metric; it does not turn a failure into a success. *)
Lemma exit_run_spec {A} (r : res A) w r' w' :
  exit_run r w = (r', w') ->
  numpy w' = numpy w /\
  (sent w' = sent w \/ sent w' = sent w ++ [End_run (exit_status r)]) /\
  metric_calls (sent w') = metric_calls (sent w) /\
  logged_metrics (sent w') = logged_metrics (sent w) /\
  (forall a, r' = Ok a -> r = Ok a) /\
  ((mlflow (End_run (exit_status r)) (service w)).1 = None ->
   r' = r /\ sent w' = sent w ++ [End_run (exit_status r)]).
Proof.
  unfold exit_run.
  destruct (emit_cases (End_run (exit_status r)) w)
    as [(st & Hm & ->)|(x & st & Hm & ->)]; intros H; inversion H; subst;
    clear H; cbn [numpy sent]; rewrite Hm; cbn [fst].
  - split; [done|]. split; [by right|].
    rewrite metric_calls_app, logged_metrics_app. cbn. rewrite !app_nil_r.
    repeat split; done.
  - split; [done|]. split; [by left|]. repeat split; done.
Qed.

(** The split does not touch numpy's global generator, and does not depend
    on its state. *)
Lemma split_indices_seeded n num den seed g :
  split_indices n num den (Some seed) g
  = ((split_indices n num den (Some seed) g).1, g).
Proof. unfold split_indices. by case_match. Qed.

Lemma load_and_split_partition conn g :
  load_and_split conn g = (partition conn g, g).
Proof.
  unfold partition, load_and_split, read_sql, train_test_split.
  destruct (conn !! "features") as [X|]; [|done].
  destruct (conn !! "target") as [y|]; [|done].
  destruct (negb _); [done|].
  pose proof (split_indices_seeded (nrows X) 3 10 0 g) as Hg.
  destruct (split_indices (nrows X) 3 10 (Some 0%Z) g) as [r g'].
  inversion Hg; subst g'. by destruct r.
Qed.


Lemma serve_app st es1 es2 :
  serve st (es1 ++ es2) = st' ← serve st es1; serve st' es2.
Proof.
  revert st. induction es1 as [|e es1 IH]; intros st; [done|]. simpl.
  destruct (mlflow e st) as [[x|] st1]; [done|]. apply IH.
Qed.

Lemma serve_cons st e es st' :
  serve st (e :: es) = Some st' ->
  exists st1, mlflow e st = (None, st1) /\ serve st1 es = Some st'.
Proof.
  simpl. destruct (mlflow e st) as [[x|] st1]; [done|]. eauto.
Qed.

(** A call whose load or split fails has done nothing else. *)
Lemma split_failure_silent conn st g e :
  partition conn g = Exn e ->
  get_trained_model conn st g = (Exn e, World st g []).
Proof.
  intros H. unfold get_trained_model, get_trained_model_body, bind, with_numpy.
  cbn [numpy service sent]. by rewrite load_and_split_partition, H.
Qed.

(** A call whose split succeeds and whose three opening calls are accepted
    runs the block of the [with] statement and leaves it through
    [__exit__]. *)
Lemma run_opened conn st g X_train X_test y_train y_test st3 :
  partition conn g = Ok (X_train, X_test, y_train, y_test) ->
  serve st opening = Some st3 ->
  get_trained_model conn st g
  = with_run (run_block (run_uuid st3) X_train X_test y_train y_test)
             (World st3 g opening).
Proof.
  intros Hp Hs. unfold opening in Hs.
  apply serve_cons in Hs as (st1 & E1 & Hs).
  apply serve_cons in Hs as (st2 & E2 & Hs).
  apply serve_cons in Hs as (st3' & E3 & Hs). simpl in Hs.
  inversion Hs; subst st3'; clear Hs.
  unfold get_trained_model, get_trained_model_body, bind, with_numpy,
    start_run, emit.
  cbn [numpy service sent]. rewrite load_and_split_partition, Hp.
  cbn [numpy service sent]. rewrite E1. cbn [numpy service sent].
  rewrite E2. cbn [numpy service sent]. rewrite E3. reflexivity.
Qed.

(** A call whose split succeeds and one of whose opening calls is refused
    raises what the service raised; it has sent the opening calls before
    that one and nothing else. *)
Lemma run_not_opened conn st g parts :
  partition conn g = Ok parts ->
  serve st opening = None ->
  exists x st' k, k < 3 /\
    get_trained_model conn st g = (Exn x, World st' g (take k opening)).
Proof.
  intros Hp Hs. destruct parts as [[[X_train X_test] y_train] y_test].
  unfold get_trained_model, get_trained_model_body, bind, with_numpy,
    start_run, emit.
  cbn [numpy service sent]. rewrite load_and_split_partition, Hp.
  cbn [numpy service sent]. unfold opening in *. simpl in Hs.
  destruct (mlflow (Set_tracking_uri TRACKING_URI) st) as [[x|] st1];
    [exists x, st1, 0; split; [lia|done]|].
  cbn [numpy service sent].
  destruct (mlflow (Set_experiment EXPERIMENT) st1) as [[x|] st2];
    [exists x, st2, 1; split; [lia|done]|].
  cbn [numpy service sent].
  destruct (mlflow Start_run st2) as [[x|] st3]; [exists x, st3, 2; split; [lia|done]|].
  done.
Qed.

(** A block whose fit and prediction succeed and whose two calls of
    MLflow are accepted goes on with [evaluate] and the final [print]. *)
Lemma run_block_reaches run X_train X_test y_train y_test w model y_pred st5 :
  fit model_config X_train y_train = Ok model ->
  predict model X_test = Ok y_pred ->
  serve (service w) [Log_model "models" "LightGBM"; Log_params model_config]
    = Some st5 ->
  run_block run X_train X_test y_train y_test w
  = bind (evaluate y_pred y_test)
         (fun _ => say ("Inside MLflow Run with id " +:+ run))
         (World st5 (numpy w)
                (sent w ++ [Log_model "models" "LightGBM";
                            Log_params model_config])).
Proof.
  intros Hf Hy Hs.
  apply serve_cons in Hs as (st4 & E4 & Hs).
  apply serve_cons in Hs as (st5' & E5 & Hs). simpl in Hs.
  inversion Hs; subst st5'; clear Hs.
  unfold run_block. unfold bind at 1 2 3 4. unfold lift, emit.
  rewrite Hf, E4. cbn [service numpy sent]. rewrite E5, Hy.
  cbn [service numpy sent]. by rewrite <- app_assoc.
Qed.

(** The block, up to the prediction: it stops at a failed fit, at a refused
    [log_model] or [log_params], or at a failed prediction, having sent the
    accepted calls; or it goes on with [evaluate] and the final [print]. *)
Lemma run_block_cases run X_train X_test y_train y_test w :
  (exists e k w',
     run_block run X_train X_test y_train y_test w = (Exn e, w') /\
     numpy w' = numpy w /\
     sent w' = sent w ++ take k [Log_model "models" "LightGBM";
                                 Log_params model_config] /\
     (1 <= k -> exists model, fit model_config X_train y_train = Ok model)) \/
  (exists model y_pred st5,
     fit model_config X_train y_train = Ok model /\
     predict model X_test = Ok y_pred /\
     serve (service w) [Log_model "models" "LightGBM"; Log_params model_config]
       = Some st5 /\
     run_block run X_train X_test y_train y_test w
     = bind (evaluate y_pred y_test)
            (fun _ => say ("Inside MLflow Run with id " +:+ run))
            (World st5 (numpy w)
                   (sent w ++ [Log_model "models" "LightGBM";
                               Log_params model_config]))).
Proof.
  unfold run_block.
  destruct (fit model_config X_train y_train) as [model|e] eqn:Hf.
  2: { left. exists e, 0, w. rewrite app_nil_r.
       repeat (split; [done|]). lia. }
  destruct (emit_cases (Log_model "models" "LightGBM") w)
    as [(st4 & E4 & H4)|(x & st4 & E4 & H4)].
  2: { left. exists x, 0, (World st4 (numpy w) (sent w)).
       unfold bind, lift. rewrite H4. rewrite app_nil_r.
       repeat (split; [done|]). lia. }
  destruct (emit_cases (Log_params model_config)
              (World st4 (numpy w) (sent w ++ [Log_model "models" "LightGBM"])))
    as [(st5 & E5 & H5)|(x & st5 & E5 & H5)]; cbn [service numpy sent] in *.
  2: { left. exists x, 1, (World st5 (numpy w)
                             (sent w ++ [Log_model "models" "LightGBM"])).
       unfold bind, lift. rewrite H4, H5. repeat (split; [done|]). eauto. }
  destruct (predict model X_test) as [y_pred|e] eqn:Hy.
  2: { left. eexists e, 2, _. unfold bind, lift. rewrite H4, H5, Hy.
       split; [done|]. cbn [numpy sent].
       split; [done|]. split; [by rewrite <- app_assoc|]. eauto. }
  right. exists model, y_pred, st5. split; [done|]. split; [done|].
  split; [by simpl; rewrite E4, E5|].
  unfold bind at 1 2 3 4. unfold lift. rewrite H4, H5, Hy.
  by rewrite <- app_assoc.
Qed.

(** The end of a block that has predicted. *)
Lemma block_end_spec run y_pred y_test w r w' :
  bind (evaluate y_pred y_test)
       (fun _ => say ("Inside MLflow Run with id " +:+ run)) w = (r, w') ->
  numpy w' = numpy w /\
  exists rest tail,
    sent w' = sent w ++ rest ++ tail /\
    evaluated y_pred y_test r rest /\
    (match r with
     | Ok _ => tail = [Print ("Inside MLflow Run with id " +:+ run)]
     | Exn _ => tail = []
     end).
Proof.
  unfold bind, say.
  destruct (evaluate y_pred y_test w) as [[[]|e] w1] eqn:He;
    destruct (evaluate_spec _ _ _ _ _ He) as (Hn & rest & Hsent & Hev);
    intros H; inversion H; subst; clear H; cbn [numpy sent].
  - split; [done|]. eexists rest, _. split; [|split; [done|done]].
    by rewrite Hsent, <- app_assoc.
  - split; [done|]. exists rest, []. by rewrite app_nil_r.
Qed.


(** Every call of [get_trained_model] is one of: the load or the split
    fails; an opening call is refused; the block of the run stops before the
    metrics; the block gets as far as the metrics. *)
Lemma run_cases conn st g :
  (exists e, partition conn g = Exn e /\
     get_trained_model conn st g = (Exn e, World st g [])) \/
  (exists parts x st' k, partition conn g = Ok parts /\
     serve st opening = None /\ k < 3 /\
     get_trained_model conn st g = (Exn x, World st' g (take k opening))) \/
  (exists X_train X_test y_train y_test st3 e k wb,
     partition conn g = Ok (X_train, X_test, y_train, y_test) /\
     serve st opening = Some st3 /\
     numpy wb = g /\
     sent wb = opening ++ take k [Log_model "models" "LightGBM";
                                  Log_params model_config] /\
     (1 <= k -> exists model, fit model_config X_train y_train = Ok model) /\
     get_trained_model conn st g = exit_run (Exn e) wb) \/
  (exists X_train X_test y_train y_test st3 model y_pred st5 rb wb,
     partition conn g = Ok (X_train, X_test, y_train, y_test) /\
     serve st opening = Some st3 /\
     fit model_config X_train y_train = Ok model /\
     predict model X_test = Ok y_pred /\
     serve st prelude = Some st5 /\
     bind (evaluate y_pred y_test)
          (fun _ => say ("Inside MLflow Run with id " +:+ run_uuid st3))
          (World st5 g prelude) = (rb, wb) /\
     get_trained_model conn st g = exit_run rb wb).
Proof.
  destruct (partition conn g) as [[[[X_train X_test] y_train] y_test]|e]
    eqn:Hp.
  2: { left. exists e. split; [done|]. by apply split_failure_silent. }
  right. destruct (serve st opening) as [st3|] eqn:Hs.
  2: { left. destruct (run_not_opened conn st g _ Hp Hs)
         as (x & st' & k & Hk & Hrun).
       by exists (X_train, X_test, y_train, y_test), x, st', k. }
  right. rewrite (run_opened conn st g _ _ _ _ st3 Hp Hs). unfold with_run.
  destruct (run_block_cases (run_uuid st3) X_train X_test y_train y_test
              (World st3 g opening))
    as [(e & k & wb & -> & Hn & Hsent & Hfit)
       |(model & y_pred & st5 & Hf & Hy & Hs5 & ->)];
    cbn [service numpy sent] in *.
  - left. by exists X_train, X_test, y_train, y_test, st3, e, k, wb.
  - right.
    destruct (bind (evaluate y_pred y_test) _ _) as [rb wb] eqn:Hb.
    exists X_train, X_test, y_train, y_test, st3, model, y_pred, st5, rb, wb.
    repeat (split; [done|]). split; [|done].
    unfold prelude. change [Set_tracking_uri TRACKING_URI;
                            Set_experiment EXPERIMENT; Start_run;
                            Log_model "models" "LightGBM";
                            Log_params model_config]
      with (opening ++ [Log_model "models" "LightGBM";
                        Log_params model_config]).
    rewrite serve_app, Hs. exact Hs5.
Qed.

(** A call that gets as far as predicting, with a service that accepts
    the five calls before, continues with [evaluate]. *)
Lemma reaches_evaluate conn st g X_train X_test y_train y_test model y_pred
    st5 :
  partition conn g = Ok (X_train, X_test, y_train, y_test) ->
  fit model_config X_train y_train = Ok model ->
  predict model X_test = Ok y_pred ->
  serve st prelude = Some st5 ->
  exists st3 rb wb,
    serve st opening = Some st3 /\
    bind (evaluate y_pred y_test)
         (fun _ => say ("Inside MLflow Run with id " +:+ run_uuid st3))
         (World st5 g prelude) = (rb, wb) /\
    get_trained_model conn st g = exit_run rb wb.
Proof.
  intros Hp Hf Hy Hs.
  change prelude with (opening ++ [Log_model "models" "LightGBM";
                                   Log_params model_config]) in Hs.
  rewrite serve_app in Hs.
  destruct (serve st opening) as [st3|] eqn:Hs3; [|done].
  cbn [mbind option_bind] in Hs.
  rewrite (run_opened conn st g _ _ _ _ st3 Hp Hs3). unfold with_run.
  rewrite (run_block_reaches _ _ _ _ _ (World st3 g opening) model y_pred st5
             Hf Hy Hs).
  cbn [numpy sent].
  destruct (bind (evaluate y_pred y_test) _ _) as [rb wb] eqn:Hb.
  by exists st3, rb, wb.
Qed.


Lemma opening_quiet k :
  metric_calls (take k opening) = [] /\ logged_metrics (take k opening) = [].
Proof. unfold opening. by do 4 (destruct k as [|k]; [done|]). Qed.

(** What a call that gets as far as the metrics has done when it ends. *)
Lemma reached_spec y_pred y_test run st5 g rb wb r w :
  bind (evaluate y_pred y_test)
       (fun _ => say ("Inside MLflow Run with id " +:+ run))
       (World st5 g prelude) = (rb, wb) ->
  exit_run rb wb = (r, w) ->
  numpy w = g /\
  (forall a, r = Ok a -> rb = Ok a) /\
  exists rest tail,
    sent w = prelude ++ rest ++ tail /\
    evaluated y_pred y_test rb rest /\
    metric_calls (sent w) = metric_calls rest /\
    logged_metrics (sent w) = logged_metrics rest /\
    Forall (fun e => match e with
                     | Print _ | End_run _ => True
                     | _ => False
                     end) tail.
Proof.
  intros Hb Hx.
  destruct (block_end_spec _ _ _ _ _ _ Hb) as (Hn & rest & tail & Hs & He & Ht).
  destruct (exit_run_spec _ _ _ _ Hx) as (Hn' & Hs' & Hc' & Hl' & Hok & _).
  cbn [numpy sent] in *.
  split; [congruence|]. split; [exact Hok|].
  assert (Hq : metric_calls (sent wb) = metric_calls rest /\
               logged_metrics (sent wb) = logged_metrics rest).
  { rewrite Hs, !metric_calls_app, !logged_metrics_app.
    destruct rb; subst tail; cbn; by rewrite !app_nil_r. }
  destruct Hq as [Hq1 Hq2].
  destruct Hs' as [Hs'|Hs'].
  - exists rest, tail. rewrite Hc', Hl', Hs'. repeat (split; [done|]).
    destruct rb; subst tail; repeat constructor.
  - exists rest, (tail ++ [End_run (exit_status rb)]).
    rewrite Hc', Hl'. split; [by rewrite Hs', Hs, <- !app_assoc|].
    repeat (split; [done|]).
    destruct rb; subst tail; repeat constructor.
Qed.

(** Every call either stops before the metrics, having called no metric
    function and logged no metric, or gets as far as the metrics. *)
Lemma quiet_or_reached conn st g :
  (exists e, (get_trained_model conn st g).1 = Exn e /\
     numpy (get_trained_model conn st g).2 = g /\
     metric_calls (sent (get_trained_model conn st g).2) = [] /\
     logged_metrics (sent (get_trained_model conn st g).2) = [] /\
     (forall X_train X_test y_train y_test model y_pred,
        partition conn g = Ok (X_train, X_test, y_train, y_test) ->
        fit model_config X_train y_train = Ok model ->
        predict model X_test = Ok y_pred ->
        serve st prelude = None)) \/
  (exists X_train X_test y_train y_test st3 model y_pred st5 rb wb,
     partition conn g = Ok (X_train, X_test, y_train, y_test) /\
     serve st opening = Some st3 /\
     fit model_config X_train y_train = Ok model /\
     predict model X_test = Ok y_pred /\
     serve st prelude = Some st5 /\
     bind (evaluate y_pred y_test)
          (fun _ => say ("Inside MLflow Run with id " +:+ run_uuid st3))
          (World st5 g prelude) = (rb, wb) /\
     get_trained_model conn st g = exit_run rb wb).
Proof.
  destruct (run_cases conn st g)
    as [(e & Hp & Hrun)
       |[(parts & x & st' & k & Hp & Hs & Hk & Hrun)
        |[(X1 & X2 & y1 & y2 & st3 & e & k & wb & Hp & Hs3 & Hn & Hsent
           & Hfit & Hrun)
         |Hreached]]]; [left|left|left|by right].
  - exists e. rewrite Hrun. repeat (split; [done|]).
    intros * Hp'. congruence.
  - exists x. rewrite Hrun. cbn [fst snd numpy sent].
    destruct (opening_quiet k) as [-> ->]. repeat (split; [done|]).
    intros * _ _ _.
    change prelude with (opening ++ [Log_model "models" "LightGBM";
                                     Log_params model_config]).
    by rewrite serve_app, Hs.
  - destruct (exit_run (Exn e) wb) as [r w] eqn:Hx. rewrite Hrun.
    destruct (exit_run_spec _ _ _ _ Hx) as (Hn' & _ & Hc' & Hl' & Hok & _).
    cbn [fst snd].
    assert (Hq : metric_calls (sent wb) = [] /\ logged_metrics (sent wb) = []).
    { rewrite Hsent, metric_calls_app, logged_metrics_app.
      destruct (opening_quiet 3) as [Ho1 Ho2]. cbn in Ho1, Ho2.
      unfold opening. cbn [metric_calls logged_metrics flat_map app].
      by do 3 (destruct k as [|k]; [done|]). }
    destruct Hq as [Hq1 Hq2].
    destruct r as [[]|e'].
    { by specialize (Hok tt eq_refl). }
    exists e'. split; [done|]. split; [congruence|].
    split; [congruence|]. split; [congruence|].
    intros X_train X_test y_train y_test model y_pred Hp' Hf Hy.
    destruct (serve st prelude) as [st5|] eqn:Hs5; [exfalso|done].
    destruct (reaches_evaluate conn st g _ _ _ _ _ _ st5 Hp' Hf Hy Hs5)
      as (st3' & rb & wb' & Hs3' & Hb & Hrun').
    rewrite Hs3 in Hs3'. inversion Hs3'; subst st3'.
    rewrite Hrun in Hrun'.
    destruct (reached_spec _ _ _ _ _ _ _ _ _ Hb (eq_sym Hrun'))
      as (_ & _ & rest & tail & _ & Hev & Hc & _).
    destruct Hev as [(j & Hj & Hcalls) _].
    rewrite <- Hc, Hc', Hq1 in Hcalls.
    destruct j as [|j]; [lia|]. discriminate Hcalls.
Qed.

End TrainerFacts.

(** ** The split, and the cells of a confusion matrix *)

Section TrainerClaims.

Context `{L : Libraries}.


Lemma partition_indices conn g X y :
  conn !! "features" = Some X -> conn !! "target" = Some y ->
  length (to_numpy_flat y) = nrows X ->
  nrows X - test_count (nrows X) ≠ 0 ->
  partition conn g =
  Ok (take_rows (take (nrows X - test_count (nrows X))
                      (drop (test_count (nrows X))
                            (permutation 0 (nrows X)))) X,
      take_rows (take (test_count (nrows X)) (permutation 0 (nrows X))) X,
      take_labels (take (nrows X - test_count (nrows X))
                        (drop (test_count (nrows X))
                              (permutation 0 (nrows X))))
                  (to_numpy_flat y),
      take_labels (take (test_count (nrows X)) (permutation 0 (nrows X)))
                  (to_numpy_flat y)).
Proof.
  intros HX Hy Hlen Hn.
  unfold partition, load_and_split, read_sql, train_test_split, split_indices.
  rewrite HX, Hy. rewrite Hlen, Nat.eqb_refl.
  cbn [negb]. fold (test_count (nrows X)).
  apply Nat.eqb_neq in Hn. rewrite Hn. reflexivity.
Qed.

(** The number of test rows never exceeds the number of rows, and leaves a
    train row as soon as there are two rows. *)
Lemma test_count_bounds n :
  test_count n <= n /\ (n - test_count n = 0 <-> n <= 1) /\
  (1 <= n -> 1 <= test_count n).
Proof.
  unfold test_count.
  assert (H10 : 10 ≠ 0) by lia.
  pose proof (Nat.div_mod (n * 3 + 10 - 1) 10 H10) as Hdm.
  pose proof (Nat.mod_upper_bound (n * 3 + 10 - 1) 10 H10) as Hm.
  lia.
Qed.

(** What a successful split has read and cut. *)
Lemma partition_Ok conn g parts :
  partition conn g = Ok parts ->
  exists X y,
    conn !! "features" = Some X /\ conn !! "target" = Some y /\
    length (to_numpy_flat y) = nrows X /\
    nrows X - test_count (nrows X) ≠ 0 /\
    parts = (take_rows (take (nrows X - test_count (nrows X))
                             (drop (test_count (nrows X))
                                   (permutation 0 (nrows X)))) X,
             take_rows (take (test_count (nrows X))
                             (permutation 0 (nrows X))) X,
             take_labels (take (nrows X - test_count (nrows X))
                               (drop (test_count (nrows X))
                                     (permutation 0 (nrows X))))
                         (to_numpy_flat y),
             take_labels (take (test_count (nrows X))
                               (permutation 0 (nrows X)))
                         (to_numpy_flat y)).
Proof.
  unfold partition, load_and_split, read_sql, train_test_split, split_indices.
  destruct (conn !! "features") as [X|]; [|done].
  destruct (conn !! "target") as [y|]; [|done].
  destruct (length (to_numpy_flat y) =? nrows X)%nat eqn:E; [|done].
  apply Nat.eqb_eq in E. cbn [negb]. fold (test_count (nrows X)).
  destruct (nrows X - test_count (nrows X) =? 0)%nat eqn:En; [done|].
  apply Nat.eqb_neq in En. cbn [fst snd]. intros H. inversion H.
  by exists X, y.
Qed.

Lemma partition_fails_small conn g X y :
  conn !! "features" = Some X -> conn !! "target" = Some y ->
  ~ (length (to_numpy_flat y) = nrows X /\ 2 <= nrows X) ->
  partition conn g = Exn ValueError.
Proof.
  intros HX Hy Hbad.
  unfold partition, load_and_split, read_sql, train_test_split, split_indices.
  rewrite HX, Hy.
  destruct (length (to_numpy_flat y) =? nrows X)%nat eqn:E; [|done].
  apply Nat.eqb_eq in E. cbn [negb]. fold (test_count (nrows X)).
  destruct (test_count_bounds (nrows X)) as (_ & Hz & _).
  assert (nrows X - test_count (nrows X) = 0) as -> by (apply Hz; lia).
  done.
Qed.

Lemma partition_succeeds conn g X y :
  conn !! "features" = Some X -> conn !! "target" = Some y ->
  length (to_numpy_flat y) = nrows X -> 2 <= nrows X ->
  exists parts, partition conn g = Ok parts.
Proof.
  intros HX Hy Hlen Hn. eexists.
  apply (partition_indices conn g X y); try done.
  destruct (test_count_bounds (nrows X)) as (_ & Hz & _). lia.
Qed.

(** A second-row, first-column cell of a confusion matrix counts the
    samples whose first-argument label is the larger class and whose
    second-argument label is the smaller one. *)
Lemma cell_confusion_matrix a b i j z :
  cell (confusion_matrix a b) i j = Ok z ->
  exists li lj,
    unique (a ++ b) !! i = Some li /\ unique (a ++ b) !! j = Some lj /\
    z = count_pairs li lj a b.
Proof.
  unfold cell, confusion_matrix. rewrite list_lookup_fmap.
  destruct (unique (a ++ b) !! i) as [li|] eqn:Ei; simpl; [|done].
  rewrite list_lookup_fmap.
  destruct (unique (a ++ b) !! j) as [lj|] eqn:Ej; simpl; [|done].
  intros H. inversion H. by exists li, lj.
Qed.

(** However far [evaluate] gets, its confusion-matrix calls are an initial
    part of the two of the source. *)
Lemma confusion_calls_prefix k (y_pred y_test : list value) :
  exists j,
    List.filter is_confusion_call (take k (all_calls y_pred y_test))
    = take j [(confusion_matrix_fn, y_pred, y_test);
              (confusion_matrix_fn, y_test, y_pred)].
Proof.
  unfold all_calls.
  do 10 (destruct k as [|k];
         [first [by exists 0%nat | by exists 1%nat | by exists 2%nat]|]).
  by exists 2%nat.
Qed.

Lemma NoDup_all_equal {A} (l : list A) :
  (forall x y, x ∈ l -> y ∈ l -> x = y) -> NoDup l -> length l <= 1.
Proof.
  intros Hall Hnd. destruct l as [|x [|y l]]; simpl; [lia|lia|].
  exfalso. apply NoDup_cons in Hnd as [Hx _]. apply Hx.
  rewrite (Hall x y); [left|left|right; left].
Qed.

(** Predictions of a single class have fewer than two distinct labels. *)
Lemma unique_single_class (y : list value) :
  (forall v w, v ∈ y -> w ∈ y -> v = w) -> length (unique y) <= 1.
Proof.
  intros Hall. unfold unique.
  rewrite (Permutation_length (sort_values_perm (remove_dups y))).
  apply NoDup_all_equal; [|apply NoDup_remove_dups].
  intros v w Hv Hw. rewrite elem_of_remove_dups in Hv, Hw. by apply Hall.
Qed.

Lemma roc_auc_single_class (y_true y_score : list value) :
  (forall v w, v ∈ y_true -> w ∈ y_true -> v = w) ->
  roc_auc y_true y_score = Exn ValueError.
Proof.
  intros Hall. unfold roc_auc.
  pose proof (unique_single_class y_true Hall) as Hlen.
  destruct (length (unique y_true) =? 2)%nat eqn:E; [|done].
  apply Nat.eqb_eq in E. lia.
Qed.

End TrainerClaims.


Section SplitWitness.

Local Existing Instance toy_x.


(** What the seed buys: drawn from numpy's global generator
    ([random_state=None]), the same table is split differently in two
    states of the generator; with the seed it is not. *)
Example unseeded_split_varies :
  (train_test_split (Frame 4 [("x", [VInt 1; VInt 0; VInt 1; VInt 0])])
     [VInt 1; VInt 1; VInt 0; VInt 0] 3 10 None (0 : @rng toy_x)).1
  <> (train_test_split (Frame 4 [("x", [VInt 1; VInt 0; VInt 1; VInt 0])])
        [VInt 1; VInt 1; VInt 0; VInt 0] 3 10 None (1 : @rng toy_x)).1 /\
  (train_test_split (Frame 4 [("x", [VInt 1; VInt 0; VInt 1; VInt 0])])
     [VInt 1; VInt 1; VInt 0; VInt 0] 3 10 (Some 0%Z) (0 : @rng toy_x)).1
  = (train_test_split (Frame 4 [("x", [VInt 1; VInt 0; VInt 1; VInt 0])])
       [VInt 1; VInt 1; VInt 0; VInt 0] 3 10 (Some 0%Z) (1 : @rng toy_x)).1.
Proof. split; by vm_compute. Qed.

End SplitWitness.

Section MetricFacts.

Context `{L : Libraries} `{C : !Constants} `{T : !Tracking}.

(** What a call whose split, fit and prediction succeed has called and
    logged when it ends, whatever the tracking service did. *)
Lemma get_trained_model_spec conn st g X_train X_test y_train y_test model
    y_pred :
  partition conn g = Ok (X_train, X_test, y_train, y_test) ->
  fit model_config X_train y_train = Ok model ->
  predict model X_test = Ok y_pred ->
  (exists k,
     metric_calls (sent (get_trained_model conn st g).2)
       = take k (all_calls y_pred y_test) /\
     (is_Some (serve st prelude) -> 1 <= k)) /\
  (exists j,
     (logged_metrics (sent (get_trained_model conn st g).2)).*1
       = take j metric_names) /\
  ((get_trained_model conn st g).1 = Ok tt \/
   logged_metrics (sent (get_trained_model conn st g).2) <> [] ->
   exists sc, computes y_pred y_test sc /\
     metric_calls (sent (get_trained_model conn st g).2)
       = all_calls y_pred y_test /\
     (exists j, logged_metrics (sent (get_trained_model conn st g).2)
                = take j (score_list sc)) /\
     ((get_trained_model conn st g).1 = Ok tt ->
      logged_metrics (sent (get_trained_model conn st g).2) = score_list sc)).
Proof.
  intros Hp Hf Hy.
  destruct (quiet_or_reached conn st g)
    as [(e & Hres & _ & Hc & Hl & Hnone)
       |(X1 & X2 & y1 & y2 & st3 & model' & y_pred' & st5 & rb & wb & Hp'
         & Hs3 & Hf' & Hy' & Hs5 & Hb & Hrun)].
  - rewrite Hres, Hc, Hl. split; [|split].
    + exists 0. split; [done|].
      rewrite (Hnone _ _ _ _ _ _ Hp Hf Hy). by intros [? ?].
    + by exists 0.
    + intros [?|?]; done.
  - rewrite Hp in Hp'. inversion Hp'; subst; clear Hp'.
    rewrite Hf in Hf'. inversion Hf'; subst; clear Hf'.
    rewrite Hy in Hy'. inversion Hy'; subst; clear Hy'.
    destruct (get_trained_model conn st g) as [r w] eqn:Hg. cbn [fst snd].
    destruct (reached_spec _ _ _ _ _ _ _ _ _ Hb (eq_sym Hrun))
      as (_ & Hok & rest & tail & _ & Hev & -> & -> & _).
    destruct Hev as ((k & Hk & Hcalls) & Hnames & _ & Hsc).
    split; [by exists k|]. split; [done|].
    intros Hor.
    destruct Hsc as (sc & Hcomp & Hall & Hpre & Hfull).
    { destruct Hor as [->|Hlog]; [|by right].
      left. by apply Hok. }
    exists sc. repeat (split; [done|]).
    intros ->. apply Hfull. by apply Hok.
Qed.

End MetricFacts.

(** C3.  A call of [get_trained_model] computes at most two confusion
    matrices, and a call that completes exactly two: first the main one, on
    (predicted, actual), then the one the counts are read from, on (actual,
    predicted).  The logged ["False Negative"] and ["True Negative"] are
    cells [1][0] and [0][0] of the second: with the classes in sorted
    order, the number of test rows whose actual label is the second class
    and whose predicted label is the first, and the number of test rows
    where both are the first class. *)
Theorem confusion_matrix_orders `{L : Libraries} `{C : !Constants}
    `{T : !Tracking}
    (conn : gmap string frame) (st : server) (g : rng)
    (X_train X_test : frame)
    (y_train y_test : list value) (model : classifier)
    (y_pred : list value) :
  partition conn g = Ok (X_train, X_test, y_train, y_test) ->
  fit model_config X_train y_train = Ok model ->
  predict model X_test = Ok y_pred ->
  (exists j,
     List.filter is_confusion_call
       (metric_calls (sent (get_trained_model conn st g).2))
       = take j [(confusion_matrix_fn, y_pred, y_test);
                 (confusion_matrix_fn, y_test, y_pred)]) /\
  ((get_trained_model conn st g).1 = Ok tt ->
   List.filter is_confusion_call
     (metric_calls (sent (get_trained_model conn st g).2))
     = [(confusion_matrix_fn, y_pred, y_test);
        (confusion_matrix_fn, y_test, y_pred)] /\
   exists tn fn l0 l1,
     cell (confusion_matrix y_test y_pred) 0 0 = Ok tn /\
     cell (confusion_matrix y_test y_pred) 1 0 = Ok fn /\
     List.filter is_count_metric
       (logged_metrics (sent (get_trained_model conn st g).2))
       = [("False Negative", SInt fn); ("True Negative", SInt tn)] /\
     unique (y_test ++ y_pred) !! 0 = Some l0 /\
     unique (y_test ++ y_pred) !! 1 = Some l1 /\
     tn = count_pairs l0 l0 y_test y_pred /\
     fn = count_pairs l1 l0 y_test y_pred).
Proof.
  intros Hp Hf Hy.
  destruct (get_trained_model_spec conn st g _ _ _ _ _ _ Hp Hf Hy)
    as [(k & Hk & _) [_ Hr]].
  split.
  - rewrite Hk. apply confusion_calls_prefix.
  - intros Hok.
    destruct (Hr (or_introl Hok)) as (sc & Hsc & Hcalls & _ & Hlog).
    rewrite Hcalls, (Hlog Hok). split; [reflexivity|].
    destruct Hsc as (_ & _ & _ & _ & _ & Htn & Hfn & _ & _).
    destruct (cell_confusion_matrix _ _ _ _ _ Htn) as (a & b & Ha & Hb & Hz).
    destruct (cell_confusion_matrix _ _ _ _ _ Hfn)
      as (a' & b' & Ha' & Hb' & Hz').
    rewrite Ha in Hb, Hb'. inversion Hb; subst b. inversion Hb'; subst b'.
    exists (s_tn sc), (s_fn sc), a, a'. by repeat split.
Qed.

Section OrdersWitness.

Local Existing Instance toy_x.
Local Existing Instance toy_x_constants.
Local Existing Instance toy_x_tracking.

Lemma confusion_matrix_orders_witness :
  List.filter is_confusion_call
    (metric_calls (sent (get_trained_model trained_store
                           (0 : @server toy_x toy_x_tracking)
                           (5 : @rng toy_x)).2))
    = [(confusion_matrix_fn, [VInt 1; VInt 0], [VInt 1; VInt 1]);
       (confusion_matrix_fn, [VInt 1; VInt 1], [VInt 1; VInt 0])] /\
  exists tn fn l0 l1,
    cell (confusion_matrix [VInt 1; VInt 1] [VInt 1; VInt 0]) 0 0 = Ok tn /\
    cell (confusion_matrix [VInt 1; VInt 1] [VInt 1; VInt 0]) 1 0 = Ok fn /\
    List.filter is_count_metric
      (logged_metrics (sent (get_trained_model trained_store
                               (0 : @server toy_x toy_x_tracking)
                               (5 : @rng toy_x)).2))
      = [("False Negative", SInt fn); ("True Negative", SInt tn)] /\
    unique ([VInt 1; VInt 1] ++ [VInt 1; VInt 0]) !! 0 = Some l0 /\
    unique ([VInt 1; VInt 1] ++ [VInt 1; VInt 0]) !! 1 = Some l1 /\
    tn = count_pairs l0 l0 [VInt 1; VInt 1] [VInt 1; VInt 0] /\
    fn = count_pairs l1 l0 [VInt 1; VInt 1] [VInt 1; VInt 0].
Proof.
  refine (proj2 (confusion_matrix_orders trained_store
                   (0 : @server toy_x toy_x_tracking) (5 : @rng toy_x)
                   (Frame 2 [("x", [VInt 1; VInt 0])])
                   (Frame 2 [("x", [VInt 1; VInt 0])])
                   [VInt 0; VInt 0] [VInt 1; VInt 1] (tt : @classifier toy_x)
                   [VInt 1; VInt 0] _ _ _) _);
    reflexivity.
Defined.

End OrdersWitness.

(** The two argument orders are not interchangeable: on the run above the
    matrix on (actual, predicted) has one false negative, the matrix on
    (predicted, actual) has none in that cell. *)
Example confusion_matrix_order_matters :
  cell (confusion_matrix [VInt 1; VInt 1] [VInt 1; VInt 0]) 1 0 = Ok 1%Z /\
  cell (confusion_matrix [VInt 1; VInt 0] [VInt 1; VInt 1]) 1 0 = Ok 0%Z.
Proof. split; reflexivity. Qed.


Section ThirteenWitness.

Local Existing Instance toy_x.
Local Existing Instance toy_x_constants.



End ThirteenWitness.

(** C9.  In every call of [get_trained_model] that gets as far as
    predicting, accuracy, ROC-AUC and macro precision, recall and F1 are
    called with the predicted labels as first ([y_true]) argument and the
    actual test labels as second, and the values logged are the values of
    these calls.  Hence, when the predicted labels are all of one class,
    [roc_auc_score] raises whatever the actual test labels are: the call
    does not complete and logs no metric, and, when the tracking service
    accepts its calls, it ends in that error as soon as accuracy has been
    computed. *)
Theorem predicted_labels_first `{L : Libraries} `{C : !Constants}
    `{T : !Tracking}
    (conn : gmap string frame) (st : server) (g : rng)
    (X_train X_test : frame)
    (y_train y_test : list value) (model : classifier)
    (y_pred : list value) :
  partition conn g = Ok (X_train, X_test, y_train, y_test) ->
  fit model_config X_train y_train = Ok model ->
  predict model X_test = Ok y_pred ->
  (exists k,
     metric_calls (sent (get_trained_model conn st g).2)
       = take k ([(accuracy_score, y_pred, y_test);
                  (roc_auc_score, y_pred, y_test);
                  (confusion_matrix_fn, y_pred, y_test);
                  (precision_score, y_pred, y_test);
                  (recall_score, y_pred, y_test);
                  (f1_score, y_pred, y_test)]
                 ++ drop 6 (all_calls y_pred y_test)) /\
     (is_Some (serve st prelude) -> 1 <= k)) /\
  ((get_trained_model conn st g).1 = Ok tt ->
   exists acc auc precision recall f1,
     accuracy y_pred y_test = Ok acc /\
     roc_auc y_pred y_test = Ok auc /\
     macro_precision y_pred y_test = Ok precision /\
     macro_recall y_pred y_test = Ok recall /\
     macro_f1 y_pred y_test = Ok f1 /\
     take 5 (logged_metrics (sent (get_trained_model conn st g).2))
       = [("roc_auc_score", SReal auc); ("test_accuracy", SReal acc);
          ("f1", SReal f1); ("Precision", SReal precision);
          ("Recall", SReal recall)]) /\
  ((forall v w, v ∈ y_pred -> w ∈ y_pred -> v = w) ->
   roc_auc y_pred y_test = Exn ValueError /\
   (get_trained_model conn st g).1 <> Ok tt /\
   logged_metrics (sent (get_trained_model conn st g).2) = [] /\
   forall acc st5 st6,
     accuracy y_pred y_test = Ok acc ->
     serve st prelude = Some st5 ->
     mlflow (End_run "FAILED") st5 = (None, st6) ->
     get_trained_model conn st g
       = (Exn ValueError,
          World st6 g
            (prelude ++ [Metric_call accuracy_score y_pred y_test;
                         Metric_call roc_auc_score y_pred y_test;
                         End_run "FAILED"]))).
Proof.
  intros Hp Hf Hy.
  destruct (get_trained_model_spec conn st g _ _ _ _ _ _ Hp Hf Hy)
    as (Hcalls & _ & Hr).
  split; [exact Hcalls|]. split.
  - intros Hok.
    destruct (Hr (or_introl Hok)) as (sc & Hsc & _ & _ & Hlog).
    destruct Hsc as (H1 & H2 & H3 & H4 & H5 & _).
    exists (s_acc sc), (s_auc sc), (s_precision sc), (s_recall sc), (s_f1 sc).
    repeat (split; [done|]). by rewrite (Hlog Hok).
  - intros Hall. pose proof (roc_auc_single_class y_pred y_test Hall) as Hauc.
    split; [done|].
    assert (Hnone : ~ ((get_trained_model conn st g).1 = Ok tt \/
                       logged_metrics (sent (get_trained_model conn st g).2)
                       <> [])).
    { intros Hor. destruct (Hr Hor) as (sc & Hsc & _).
      destruct Hsc as (_ & H2 & _). congruence. }
    split; [tauto|]. split.
    { destruct (logged_metrics _) eqn:E; [done|].
      exfalso. apply Hnone. by right. }
    intros acc st5 st6 Hacc Hs5 Hend.
    destruct (reaches_evaluate conn st g _ _ _ _ _ _ st5 Hp Hf Hy Hs5)
      as (st3 & rb & wb & _ & Hb & ->).
    revert Hb. unfold evaluate, bind, call, lift.
    rewrite Hacc, Hauc. cbn [service numpy sent].
    intros Hb. inversion Hb; subst rb wb; clear Hb.
    unfold exit_run, emit. cbn [service numpy sent exit_status].
    rewrite Hend. rewrite <- ?app_assoc. reflexivity.
Qed.

Section SingleClassWitness.

Local Existing Instance toy_zero.
Local Existing Instance toy_zero_constants.
Local Existing Instance toy_zero_tracking.

Lemma predicted_labels_first_witness :
  roc_auc [VInt 0; VInt 0] [VInt 1; VInt 1] = Exn ValueError /\
  (get_trained_model trained_store (0 : @server toy_zero toy_zero_tracking)
     (5 : @rng toy_zero)).1 <> Ok tt /\
  get_trained_model trained_store (0 : @server toy_zero toy_zero_tracking)
    (5 : @rng toy_zero)
    = (Exn ValueError,
       World (6 : @server toy_zero toy_zero_tracking) (5 : @rng toy_zero)
         (prelude ++
            [Metric_call accuracy_score [VInt 0; VInt 0] [VInt 1; VInt 1];
             Metric_call roc_auc_score [VInt 0; VInt 0] [VInt 1; VInt 1];
             End_run "FAILED"])).
Proof.
  destruct (predicted_labels_first trained_store
              (0 : @server toy_zero toy_zero_tracking) (5 : @rng toy_zero)
              (Frame 2 [("x", [VInt 1; VInt 0])])
              (Frame 2 [("x", [VInt 1; VInt 0])])
              [VInt 0; VInt 0] [VInt 1; VInt 1] (tt : @classifier toy_zero)
              [VInt 0; VInt 0])
    as (_ & _ & Hone); [reflexivity|reflexivity|reflexivity|].
  destruct Hone as (Hauc & Hnot & _ & Hrun).
  - intros v w Hv Hw.
    apply elem_of_replicate_inv with (n := 2) in Hv.
    apply elem_of_replicate_inv with (n := 2) in Hw. congruence.
  - split; [exact Hauc|]. split; [exact Hnot|].
    apply (Hrun (0%Z : @real toy_zero)
                (5 : @server toy_zero toy_zero_tracking)
                (6 : @server toy_zero toy_zero_tracking));
      reflexivity.
Defined.

End SingleClassWitness.

(** * Further properties of the encoder *)

Section EncoderFrame.

Variables (schema features : list string).

Lemma valid_label : valid_sqlite_name label = true.
Proof. reflexivity. Qed.

(** pandas accepts the column names of the selection of the label. *)
Lemma select_valid enc T :
  select enc label = Ok T -> forallb valid_sqlite_name (columns T) = true.
Proof.
  intros H. apply select_Ok in H as [_ ->].
  rewrite (columns_select label _ enc). apply forallb_forall.
  intros c Hc. apply list_elem_of_In, list_elem_of_filter in Hc as [-> _].
  apply valid_label.
Qed.

(** Every run of [encode_features] is one of: a run that ends before
    [CREATE TABLE] is sent for [features] (the read failed, the early
    return, an exception of the loops or of the split, a column name pandas
    refuses); the creation of [features] refused; the creation of [target]
    refused after [features] was written; both tables written. *)
Lemma encode_features_cases conn :
  (exists o out, encode_features schema features conn = Run o out conn /\
                 o ≠ Finished) \/
  (encode_features schema features conn
   = Run (Raised OperationalError) [] (delete "features" conn)) \/
  (exists F, encode_features schema features conn
             = Run (Raised OperationalError) []
                   (delete "target" (<["features" := F]> conn))) \/
  (exists F T, encode_features schema features conn
               = Run Finished [] (<["target" := T]> (<["features" := F]> conn))).
Proof.
  unfold encode_features, read_sql, split_frame.
  destruct (conn !! "model_input") as [df|]; [|left; by eexists _, _].
  destruct (encode_loop df features (DataFrame [])) as [P|];
    [|left; by eexists _, _].
  destruct (assembled schema df P) as [enc|]; simpl; [|left; by eexists _, _].
  destruct (drop_column label (fillna0 enc)) as [F|]; simpl;
    [|left; by eexists _, _].
  destruct (select (fillna0 enc) label) as [T|] eqn:ET; simpl;
    [|left; by eexists _, _].
  destruct (to_sql_cases "features" F conn) as [[_ ->]|[[_ ->]|[_ ->]]];
    [|left; by eexists _, _|right; by left].
  right. right. unfold to_sql. rewrite (select_valid _ _ ET). cbn [negb].
  destruct (sql_writable (columns T)).
  - right. by exists F, T.
  - left. by exists F.
Qed.

End EncoderFrame.

(** X1.  Whatever a run of [encode_features] does, it leaves every table
    other than [features] and [target] as it found it; the input table
    [model_input] in particular is never changed. *)
Theorem other_tables_untouched
    (schema features : list string) (conn : gmap string frame) (t : string) :
  t ≠ "features" -> t ≠ "target" ->
  database (encode_features schema features conn) !! t = conn !! t.
Proof.
  intros Hf Ht.
  destruct (encode_features_cases schema features conn)
    as [(o & out & -> & _)|[->|[(F & ->)|(F & T & ->)]]]; cbn [database].
  - done.
  - by rewrite lookup_delete_ne.
  - by rewrite lookup_delete_ne, lookup_insert_ne.
  - by rewrite !lookup_insert_ne.
Qed.

Lemma other_tables_untouched_witness :
  database (encode_features scenario_schema ["city"; "source"] scenario_store)
    !! "model_input" = Some scenario_input.
Proof.
  rewrite (other_tables_untouched scenario_schema ["city"; "source"]
             scenario_store "model_input"); [reflexivity|done|done].
Defined.

(** X2.  What a run of [encode_features] that does not run to its end
    leaves behind is one of three databases: the database as it was; the
    database without its [features] table, when sqlite refuses to create
    the new one (the old table is dropped before, and the drop is not rolled
    back); or the database with the new [features] table and without a
    [target] table, when sqlite refuses to create the new [target].  In the
    last two cases the run raises [OperationalError].  A run never leaves
    a new [target] beside an old [features]. *)
Theorem failed_run_database
    (schema features : list string) (conn : gmap string frame) :
  result (encode_features schema features conn) ≠ Finished ->
  database (encode_features schema features conn) = conn \/
  (result (encode_features schema features conn) = Raised OperationalError /\
   database (encode_features schema features conn) = delete "features" conn) \/
  (result (encode_features schema features conn) = Raised OperationalError /\
   exists F,
     database (encode_features schema features conn)
     = delete "target" (<["features" := F]> conn)).
Proof.
  intros Hres.
  destruct (encode_features_cases schema features conn)
    as [(o & out & Hrun & _)|[Hrun|[(F & Hrun)|(F & T & Hrun)]]];
    rewrite Hrun in *; cbn [database result] in *.
  - by left.
  - right. by left.
  - right. right. split; [done|]. by exists F.
  - done.
Qed.

Lemma failed_run_database_witness :
  database (encode_features twice_label_schema ["city"] stale_store)
    = stale_store \/
  (result (encode_features twice_label_schema ["city"] stale_store)
     = Raised OperationalError /\
   database (encode_features twice_label_schema ["city"] stale_store)
     = delete "features" stale_store) \/
  (result (encode_features twice_label_schema ["city"] stale_store)
     = Raised OperationalError /\
   exists F,
     database (encode_features twice_label_schema ["city"] stale_store)
     = delete "target" (<["features" := F]> stale_store)).
Proof.
  apply (failed_run_database twice_label_schema ["city"] stale_store).
  by vm_compute.
Defined.

(** With the label twice in the schema, the selection of the label has two
    columns of one name: [features] is written, the creation of [target] is
    refused, and the [target] table from before is gone. *)
Example refused_target_is_dropped :
  stale_store !! "target" = Some (Frame 1 [(label, [VInt 9])]) /\
  result (encode_features twice_label_schema ["city"] stale_store)
    = Raised OperationalError /\
  database (encode_features twice_label_schema ["city"] stale_store)
    !! "features" = Some (Frame 2 [("city_A", [VInt 1; VInt 0])]) /\
  database (encode_features twice_label_schema ["city"] stale_store)
    !! "target" = None.
Proof. repeat split; by vm_compute. Qed.

(** X3.  Running [encode_features] again on the database a completed run
    left behind completes again and leaves the same database: the run reads
    only [model_input], which it does not change, and replaces the two
    tables as a whole. *)
Theorem encode_features_idempotent
    (schema features : list string) (conn : gmap string frame) :
  result (encode_features schema features conn) = Finished ->
  encode_features schema features
    (database (encode_features schema features conn))
  = encode_features schema features conn.
Proof.
  intros Hfin.
  destruct (encode_features_Finished schema features conn Hfin)
    as (df & P & enc & F & T & Hread & Hloop & Hasm & HF & HT & HwF & HwT
        & Hrun).
  rewrite Hrun. cbn [database].
  rewrite (encode_features_complete schema features _ df P enc F T);
    try done.
  - f_equal. apply map_eq. intros t. rewrite !lookup_insert.
    by repeat case_decide.
  - by rewrite !lookup_insert_ne.
Qed.

Lemma encode_features_idempotent_witness :
  encode_features scenario_schema ["city"; "source"]
    (database (encode_features scenario_schema ["city"; "source"]
                 scenario_store))
  = encode_features scenario_schema ["city"; "source"] scenario_store.
Proof.
  apply (encode_features_idempotent scenario_schema ["city"; "source"]
           scenario_store).
  reflexivity.
Defined.

Section EncoderErrors.

Variables (schema features : list string).

(** The second loop raises nothing but [ValueError]. *)
Lemma setitem_Exn df name n vals e :
  setitem df name n vals = Exn e -> e = ValueError.
Proof.
  unfold setitem. destruct vals as [|x [|y vals]];
    repeat case_match; intros Hset; by inversion Hset.
Qed.

Lemma copy_feature_Exn df P enc f e :
  copy_feature df P enc f = Exn e -> e = ValueError.
Proof.
  unfold copy_feature.
  destruct (has_column f df).
  - destruct (setitem enc f (nrows df) (getitem df f)) eqn:E1; simpl.
    + destruct (has_column f P); [apply setitem_Exn|done].
    + intros H. inversion H; subst. by apply setitem_Exn in E1.
  - simpl. destruct (has_column f P); [apply setitem_Exn|done].
Qed.

Lemma assemble_Exn df P names : forall enc e,
  assemble df P names enc = Exn e -> e = ValueError.
Proof.
  induction names as [|f names IH]; intros enc e H; simpl in H; [done|].
  destruct (copy_feature df P enc f) as [e1|e'] eqn:E1; simpl in H.
  - by apply (IH e1).
  - inversion H; subst. by apply copy_feature_Exn in E1.
Qed.

Lemma length_getitem_columns (df : frame) c :
  length (getitem df c) = length (filter (fun name => name = c) (columns df)).
Proof.
  unfold getitem, columns. rewrite length_fmap.
  rewrite <- (columns_filter (fun name => name = c)).
  by rewrite length_fmap.
Qed.

Lemma NoDup_filter_eq_length (l : list string) c :
  NoDup l -> length (filter (fun name => name = c) l) <= 1.
Proof.
  intros Hnd. apply (NoDup_all_equal (A := string)).
  - intros x y Hx Hy. apply list_elem_of_filter in Hx as [-> _].
    by apply list_elem_of_filter in Hy as [-> _].
  - by apply NoDup_filter.
Qed.

(** A sub-frame of several columns cannot be assigned to a label that the
    target frame carries once. *)
Lemma setitem_many_fails df name n vals :
  NoDup (columns df) -> 2 <= length vals ->
  setitem df name n vals = Exn ValueError.
Proof.
  intros Hnd Hlen. unfold setitem.
  destruct vals as [|x [|y vals]]; simpl in Hlen; [lia|lia|].
  destruct (_ =? _)%nat eqn:E; [|done].
  apply Nat.eqb_eq in E. rewrite length_getitem_columns in E.
  rewrite columns_ensure_valid_index in E.
  pose proof (NoDup_filter_eq_length (columns df) name Hnd).
  simpl in E. lia.
Qed.

Lemma copy_feature_many_fails df P enc c :
  NoDup (columns enc) -> c ∈ columns enc -> 2 <= length (getitem P c) ->
  copy_feature df P enc c = Exn ValueError.
Proof.
  intros Hnd Hc Hlen. unfold copy_feature.
  assert (HcP : has_column c P = true).
  { apply has_column_getitem. intros E. rewrite E in Hlen. simpl in Hlen. lia. }
  destruct (if has_column c df then _ else _) as [e1|e] eqn:E1; simpl.
  - assert (Hcols : columns e1 = columns enc).
    { destruct (has_column c df).
      - by apply (setitem_columns _ _ _ _ _ Hc E1).
      - by inversion E1. }
    rewrite HcP. apply setitem_many_fails; [by rewrite Hcols|done].
  - destruct (has_column c df); [|done].
    by rewrite (setitem_Exn _ _ _ _ _ E1).
Qed.

Lemma assemble_many_fails df P names : forall enc c,
  NoDup (columns enc) -> Forall (fun f => f ∈ columns enc) names ->
  c ∈ names -> 2 <= length (getitem P c) ->
  assemble df P names enc = Exn ValueError.
Proof.
  induction names as [|f names IH]; intros enc c Hnd Hsub Hc Hlen.
  - by apply elem_of_nil in Hc.
  - simpl. apply Forall_cons in Hsub as [Hf Hsub].
    destruct (copy_feature df P enc f) as [e1|e] eqn:E1; simpl.
    + pose proof (copy_feature_columns _ _ _ _ _ Hf E1) as Hcols.
      apply elem_of_cons in Hc as [->|Hc].
      * rewrite (copy_feature_many_fails df P enc f Hnd Hf Hlen) in E1.
        done.
      * apply (IH e1 c); rewrite ?Hcols; done.
    + by rewrite (copy_feature_Exn _ _ _ _ _ E1).
Qed.

End EncoderErrors.

(** X4.  When the configured schema does not hold the label, every input
    that gets through the two loops makes [encode_features] raise [KeyError]
    at [drop], and nothing is written. *)
Theorem missing_label_in_schema
    (schema features : list string) (conn : gmap string frame) (df : frame) :
  conn !! "model_input" = Some df ->
  is_table df ->
  Forall (fun f => f ∈ columns df) features ->
  one_hot_unambiguous schema features = true ->
  label ∉ schema ->
  encode_features schema features conn = Run (Raised KeyError) [] conn.
Proof.
  intros Hread [Hdf Hnd] Hall Hu Hlab.
  destruct (encode_loop_present df features (DataFrame []) Hall)
    as [P Hloop].
  destruct (assemble_ok df P schema) with (enc := DataFrame schema)
    as [enc Hasm].
  { intros c Hc. split; [by apply length_getitem_table|].
    by apply (placeholder_getitem_le_1 df features P schema). }
  pose proof (assembled_columns schema df P enc Hasm) as Hcols.
  unfold encode_features, read_sql, split_frame, drop_column.
  rewrite Hread, Hloop. unfold assembled in *. rewrite Hasm. simpl.
  assert (has_column label (fillna0 enc) = false) as ->; [|done].
  apply has_column_false. by rewrite columns_fillna0, Hcols.
Qed.

Lemma missing_label_in_schema_witness :
  encode_features unlabelled_schema ["city"] scenario_store
    = Run (Raised KeyError) [] scenario_store.
Proof.
  apply (missing_label_in_schema unlabelled_schema ["city"] scenario_store
           scenario_input).
  - reflexivity.
  - by_computation.
  - by_computation.
  - reflexivity.
  - by_computation.
Defined.

(** X5.  When a name of a duplicate-free schema is the name of two or more
    generated one-hot columns (a feature listed twice, two features whose
    expansions collide), [encode_features] raises [ValueError] in the second
    loop and nothing is written. *)
Theorem colliding_one_hot_names
    (schema features : list string) (conn : gmap string frame) (df : frame)
    (c : string) :
  conn !! "model_input" = Some df ->
  wf_frame df ->
  Forall (fun f => f ∈ columns df) features ->
  NoDup schema ->
  c ∈ schema ->
  2 <= generated_count df features c ->
  encode_features schema features conn = Run (Raised ValueError) [] conn.
Proof.
  intros Hread Hdf Hall Hnd Hc Hcount.
  destruct (encode_loop_present df features (DataFrame []) Hall)
    as [P Hloop].
  assert (Hlen : 2 <= length (getitem P c)).
  { rewrite length_getitem_columns.
    by rewrite (columns_placeholder features df P Hdf Hloop). }
  unfold encode_features, read_sql. rewrite Hread, Hloop.
  unfold assembled.
  rewrite (assemble_many_fails df P schema (DataFrame schema) c);
    rewrite ?columns_DataFrame; try done.
  by apply Forall_forall.
Qed.

Lemma colliding_one_hot_names_witness :
  encode_features scenario_schema ["city"; "city"] scenario_store
    = Run (Raised ValueError) [] scenario_store.
Proof.
  apply (colliding_one_hot_names scenario_schema ["city"; "city"]
           scenario_store scenario_input "city_A").
  - reflexivity.
  - by_computation.
  - by_computation.
  - by_computation.
  - by_computation.
  - vm_compute. lia.
Defined.

(** ** What the written tables hold *)

Section PersistedFacts.

Variables (schema features : list string).

(** The two tables of a completed run, as cuts of the filled frame. *)
Lemma finished_tables conn :
  result (encode_features schema features conn) = Finished ->
  exists df P enc,
    conn !! "model_input" = Some df /\
    encode_loop df features (DataFrame []) = Some P /\
    assembled schema df P = Ok enc /\
    database (encode_features schema features conn) !! "features"
      = Some (Frame (nrows enc)
                (filter (fun c => c.1 ≠ label) (cols (fillna0 enc)))) /\
    database (encode_features schema features conn) !! "target"
      = Some (Frame (nrows enc)
                (filter (fun c => c.1 = label) (cols (fillna0 enc)))).
Proof.
  intros Hfin.
  destruct (encode_features_Finished schema features conn Hfin)
    as (df & P & enc & F & T & Hread & Hloop & Hasm & HF & HT & _ & _ & Hrun).
  exists df, P, enc. rewrite Hrun. cbn [database].
  destruct (lookup_written conn F T) as [HlF HlT].
  apply drop_column_Ok in HF as [_ ->]. apply select_Ok in HT as [_ ->].
  by repeat (split; [done|]).
Qed.

(** Each name of the schema labels a column of the assembled frame, and
    that column is what [spec_col] says. *)
Lemma assembled_entry df P enc c :
  wf_frame df ->
  encode_loop df features (DataFrame []) = Some P ->
  assembled schema df P = Ok enc ->
  c ∈ schema ->
  exists s, (c, s) ∈ cols enc /\ spec_col df P c s /\ length s = nrows enc.
Proof.
  intros Hdf Hloop Hasm Hc.
  destruct (placeholder_spec df features P Hdf Hloop) as (_ & HP & HPn).
  destruct (assembled_Inv df P schema Hdf HP HPn enc Hasm) as (D & HI & HD).
  destruct HI as (Hcols & Hwf & _ & _ & Hcol).
  rewrite <- Hcols in Hc. unfold columns in Hc.
  apply list_elem_of_fmap in Hc as ([c' s] & -> & Hin). simpl.
  exists s. split; [done|].
  apply list_elem_of_lookup_1 in Hin as [i Hi].
  pose proof (Hcol _ _ _ Hi) as Hspec.
  rewrite decide_True in Hspec.
  - split; [done|]. unfold wf_frame in Hwf. rewrite Forall_lookup in Hwf.
    apply (Hwf _ _ Hi).
  - apply HD. rewrite <- Hcols. unfold columns. apply list_elem_of_fmap.
    exists (c', s). split; [done|]. by apply list_elem_of_lookup_2 in Hi.
Qed.

(** A column of the assembled frame is persisted, filled, in the table its
    label sends it to. *)
Lemma persisted_entry enc c s :
  (c, s) ∈ cols enc ->
  (c, fill0 <$> s)
    ∈ (if decide (c = label)
       then filter (fun c => c.1 = label) (cols (fillna0 enc))
       else filter (fun c => c.1 ≠ label) (cols (fillna0 enc))).
Proof.
  intros Hin.
  assert (Hs : (c, fill0 <$> s) ∈ cols (fillna0 enc)).
  { apply elem_of_cols_fillna0. by exists s. }
  destruct (decide (c = label)); by apply list_elem_of_filter.
Qed.

Lemma fill0_fmap (s : series) :
  fill0 <$> s = (fun v => if decide (v = VNull) then VInt 0 else v) <$> s.
Proof. apply list_fmap_ext. intros _ v _. apply fill0_spec. Qed.

Lemma fill0_indicator v (s : series) :
  fill0 <$> indicator v s = indicator v s.
Proof.
  unfold indicator. rewrite <- list_fmap_compose.
  apply list_fmap_ext. intros _ x _. simpl. by destruct (decide (x = v)).
Qed.

Lemma column_elem_of (df : frame) f v :
  v ∈ column df f -> f ∈ columns df.
Proof.
  intros Hv. apply has_column_true, has_column_getitem.
  intros E. unfold column in Hv. rewrite E in Hv. simpl in Hv.
  by apply elem_of_nil in Hv.
Qed.

(** The indicator column of a value a feature holds is a column of the
    side buffer. *)
Lemma indicator_in_placeholder df P f v :
  wf_frame df ->
  encode_loop df features (DataFrame []) = Some P ->
  f ∈ features -> v ∈ column df f -> v ≠ VNull ->
  ((f +:+ "_") +:+ category_label (reads_as_float64 (column df f)) v,
   indicator v (column df f)) ∈ cols P.
Proof.
  intros Hdf Hloop Hf Hv Hnn.
  destruct (placeholder_spec df features P Hdf Hloop) as (-> & _).
  apply list_elem_of_In, in_flat_map. exists f.
  split; [by apply list_elem_of_In|]. apply list_elem_of_In.
  unfold dummies, get_dummies_prefixed. cbn [cols].
  apply list_elem_of_fmap. exists v. split; [done|].
  by apply elem_of_categories.
Qed.

(** A value whose one-hot name can be generated in one way only is a
    text. *)
Lemma unambiguous_text f v :
  f ∈ features -> v ≠ VNull ->
  unambiguous features ((f +:+ "_") +:+ py_str v) = true ->
  exists t, v = VText t.
Proof.
  intros Hf Hnn Hu.
  assert (Hsrc : py_str v ∈ one_hot_sources features
                              ((f +:+ "_") +:+ py_str v)).
  { unfold one_hot_sources. apply list_elem_of_omap. exists f.
    split; [done|]. apply strip_prefix_app. }
  unfold unambiguous in Hu.
  destruct (one_hot_sources features _) as [|s [|s' l]];
    [by apply elem_of_nil in Hsrc| |done].
  apply list_elem_of_singleton in Hsrc. subst s.
  apply negb_true_iff in Hu.
  destruct v as [|z|t]; [done| |by exists t].
  simpl in Hu. by rewrite pretty_Z_numeric in Hu.
Qed.

End PersistedFacts.

(** X6.  In a completed run, a name of the schema that is a column of the
    input and not the name of a generated column is persisted as the input's
    column with every NULL replaced by 0 and every other cell unchanged: in
    [target] when it is the label (the target is the input's label column),
    in [features] otherwise. *)
Theorem passthrough_persisted
    (schema features : list string) (conn : gmap string frame) (df : frame)
    (c : string) :
  conn !! "model_input" = Some df ->
  is_table df ->
  result (encode_features schema features conn) = Finished ->
  c ∈ schema -> c ∈ columns df -> c ∉ one_hot_names df features ->
  exists F T,
    database (encode_features schema features conn) !! "features" = Some F /\
    database (encode_features schema features conn) !! "target" = Some T /\
    (c, (fun v => if decide (v = VNull) then VInt 0 else v) <$> column df c)
      ∈ (if decide (c = label) then cols T else cols F).
Proof.
  intros Hread [Hdf Hnd] Hfin Hc Hcdf Hgen.
  destruct (finished_tables schema features conn Hfin)
    as (df' & P & enc & Hread' & Hloop & Hasm & HF & HT).
  rewrite Hread in Hread'. inversion Hread'; subst df'.
  eexists _, _. split; [exact HF|]. split; [exact HT|]. cbn [cols].
  destruct (assembled_entry schema features df P enc c Hdf Hloop Hasm Hc)
    as (s & Hin & Hspec & _).
  unfold spec_col in Hspec.
  rewrite <- (columns_placeholder features df P Hdf Hloop) in Hgen.
  apply getitem_nil in Hgen. rewrite Hgen in Hspec.
  rewrite decide_False in Hspec by (by intros ?).
  rewrite (getitem_table df c Hnd Hcdf) in Hspec.
  rewrite decide_True in Hspec by done.
  apply list_elem_of_singleton in Hspec. subst s.
  rewrite <- fill0_fmap. by apply persisted_entry.
Qed.

Lemma passthrough_persisted_witness :
  exists F T,
    database (encode_features passthrough_schema ["city"] passthrough_store)
      !! "features" = Some F /\
    database (encode_features passthrough_schema ["city"] passthrough_store)
      !! "target" = Some T /\
    ("visits",
     (fun v => if decide (v = VNull) then VInt 0 else v)
       <$> column passthrough_input "visits")
      ∈ (if decide ("visits" = label) then cols T else cols F).
Proof.
  apply (passthrough_persisted passthrough_schema ["city"] passthrough_store
           passthrough_input "visits").
  - reflexivity.
  - by_computation.
  - reflexivity.
  - by_computation.
  - by_computation.
  - by_computation.
Defined.

(** X7.  In a completed run, for a feature to encode and a non-null value
    [v] it holds in some row, if the one-hot name of [v] is in the schema
    and can be generated in one way only, the column persisted under that
    name holds 1 in the rows where the feature equals [v] and 0 in all other
    rows, the rows where the feature is NULL included. *)
Theorem one_hot_persisted
    (schema features : list string) (conn : gmap string frame) (df : frame)
    (f : string) (v : value) :
  conn !! "model_input" = Some df ->
  is_table df ->
  result (encode_features schema features conn) = Finished ->
  f ∈ features -> v ∈ column df f -> v ≠ VNull ->
  (f +:+ "_") +:+ py_str v ∈ schema ->
  unambiguous features ((f +:+ "_") +:+ py_str v) = true ->
  exists F T,
    database (encode_features schema features conn) !! "features" = Some F /\
    database (encode_features schema features conn) !! "target" = Some T /\
    ((f +:+ "_") +:+ py_str v,
     (fun x => if decide (x = v) then VInt 1 else VInt 0) <$> column df f)
      ∈ (if decide ((f +:+ "_") +:+ py_str v = label)
         then cols T else cols F).
Proof.
  intros Hread [Hdf Hnd] Hfin Hf Hv Hnn Hc Hu.
  destruct (finished_tables schema features conn Hfin)
    as (df' & P & enc & Hread' & Hloop & Hasm & HF & HT).
  rewrite Hread in Hread'. inversion Hread'; subst df'.
  eexists _, _. split; [exact HF|]. split; [exact HT|]. cbn [cols].
  pose proof (indicator_in_placeholder features df P f v Hdf Hloop Hf Hv Hnn)
    as Hind.
  destruct (unambiguous_text features f v Hf Hnn Hu) as [t ->].
  cbn [category_label] in Hind.
  set (c := (f +:+ "_") +:+ py_str (VText t)) in *.
  destruct (assembled_entry schema features df P enc c Hdf Hloop Hasm Hc)
    as (s & Hin & Hspec & _).
  apply elem_of_getitem in Hind.
  assert (Hone : getitem P c = [indicator (VText t) (column df f)]).
  { assert (Hle : length (getitem P c) <= 1).
    { destruct (placeholder_spec df features P Hdf Hloop) as (HcP & _).
      unfold getitem. rewrite length_fmap, HcP. by apply unambiguous_le_1. }
    destruct (getitem P c) as [|x [|y l]]; simpl in Hle;
      [by apply elem_of_nil in Hind| |lia].
    by apply list_elem_of_singleton in Hind as ->. }
  unfold spec_col in Hspec. rewrite Hone in Hspec.
  rewrite decide_True in Hspec by done.
  apply list_elem_of_singleton in Hspec. subst s.
  change ((fun x => if decide (x = VText t) then VInt 1 else VInt 0)
            <$> column df f) with (indicator (VText t) (column df f)).
  rewrite <- (fill0_indicator (VText t) (column df f)).
  by apply persisted_entry.
Qed.

Lemma one_hot_persisted_witness :
  exists F T,
    database (encode_features passthrough_schema ["city"] passthrough_store)
      !! "features" = Some F /\
    database (encode_features passthrough_schema ["city"] passthrough_store)
      !! "target" = Some T /\
    (("city" +:+ "_") +:+ py_str (VText "B"),
     (fun x => if decide (x = VText "B") then VInt 1 else VInt 0)
       <$> column passthrough_input "city")
      ∈ (if decide (("city" +:+ "_") +:+ py_str (VText "B") = label)
         then cols T else cols F).
Proof.
  apply (one_hot_persisted passthrough_schema ["city"] passthrough_store
           passthrough_input "city" (VText "B")).
  - reflexivity.
  - by_computation.
  - reflexivity.
  - by_computation.
  - by_computation.
  - done.
  - by_computation.
  - reflexivity.
Defined.

(** X8.  In a completed run, a name of the schema that is neither a column
    of the input nor the name of a generated column is persisted as a
    column of zeros, one per row of the written table. *)
Theorem unmatched_name_zero_column
    (schema features : list string) (conn : gmap string frame) (df : frame)
    (c : string) :
  conn !! "model_input" = Some df ->
  wf_frame df ->
  result (encode_features schema features conn) = Finished ->
  c ∈ schema -> c ∉ columns df -> c ∉ one_hot_names df features ->
  exists F T,
    database (encode_features schema features conn) !! "features" = Some F /\
    database (encode_features schema features conn) !! "target" = Some T /\
    nrows F = nrows T /\
    (c, replicate (nrows F) (VInt 0))
      ∈ (if decide (c = label) then cols T else cols F).
Proof.
  intros Hread Hdf Hfin Hc Hcdf Hgen.
  destruct (finished_tables schema features conn Hfin)
    as (df' & P & enc & Hread' & Hloop & Hasm & HF & HT).
  rewrite Hread in Hread'. inversion Hread'; subst df'.
  eexists _, _. split; [exact HF|]. split; [exact HT|].
  split; [done|]. cbn [cols nrows].
  destruct (assembled_entry schema features df P enc c Hdf Hloop Hasm Hc)
    as (s & Hin & Hspec & Hlen).
  unfold spec_col in Hspec.
  rewrite <- (columns_placeholder features df P Hdf Hloop) in Hgen.
  apply getitem_nil in Hgen, Hcdf. rewrite Hgen, Hcdf in Hspec.
  rewrite !decide_False in Hspec by (by intros ?).
  rewrite <- Hlen, <- (fill0_all_null s Hspec). by apply persisted_entry.
Qed.

Lemma unmatched_name_zero_column_witness :
  exists F T,
    database (encode_features passthrough_schema ["city"] passthrough_store)
      !! "features" = Some F /\
    database (encode_features passthrough_schema ["city"] passthrough_store)
      !! "target" = Some T /\
    nrows F = nrows T /\
    ("other", replicate (nrows F) (VInt 0))
      ∈ (if decide ("other" = label) then cols T else cols F).
Proof.
  apply (unmatched_name_zero_column passthrough_schema ["city"]
           passthrough_store passthrough_input "other").
  - reflexivity.
  - by_computation.
  - reflexivity.
  - by_computation.
  - by_computation.
  - by_computation.
Defined.

(** * Further properties of the trainer *)

(** X9.  When numpy's [permutation(n)] is a permutation of the row
    positions, a successful split puts every row of [features] in exactly
    one of the two partitions: the train positions followed by the test
    positions are a permutation of all positions, the test partition has
    [ceil(0.3 n)] rows, and neither partition is empty. *)
Theorem partition_covers_rows `{L : Libraries}
    (conn : gmap string frame) (g : rng) (X y : frame)
    (X_train X_test : frame) (y_train y_test : list value) :
  conn !! "features" = Some X -> conn !! "target" = Some y ->
  permutation 0 (nrows X) ≡ₚ seq 0 (nrows X) ->
  partition conn g = Ok (X_train, X_test, y_train, y_test) ->
  exists train test,
    train ++ test ≡ₚ seq 0 (nrows X) /\
    X_train = take_rows train X /\ X_test = take_rows test X /\
    y_train = take_labels train (to_numpy_flat y) /\
    y_test = take_labels test (to_numpy_flat y) /\
    nrows X_test = test_count (nrows X) /\
    nrows X_train + nrows X_test = nrows X /\
    1 <= nrows X_train /\ 1 <= nrows X_test.
Proof.
  intros HX Hy Hperm Hpart.
  destruct (partition_Ok conn g _ Hpart)
    as (X' & y' & HX' & Hy' & Hlen & Hne & Hparts).
  rewrite HX in HX'. rewrite Hy in Hy'. inversion HX'; inversion Hy'.
  subst X' y'. clear HX' Hy'.
  inversion Hparts; subst; clear Hparts.
  set (n := nrows X) in *. set (p := permutation 0 n) in *.
  assert (Hp : length p = n).
  { by rewrite (Permutation_length Hperm), length_seq. }
  destruct (test_count_bounds n) as (Hle & _ & Hone).
  assert (Hdrop : take (n - test_count n) (drop (test_count n) p)
                  = drop (test_count n) p).
  { apply take_ge. rewrite length_drop. lia. }
  exists (take (n - test_count n) (drop (test_count n) p)),
         (take (test_count n) p).
  split.
  { rewrite Hdrop, Permutation_app_comm, take_drop. exact Hperm. }
  repeat (split; [done|]). unfold take_rows. cbn [nrows].
  rewrite Hdrop, length_drop, length_take. lia.
Qed.

Section CoverWitness.

Local Existing Instance toy_x.

Lemma partition_covers_rows_witness :
  exists train test,
    train ++ test ≡ₚ seq 0 4 /\
    Frame 2 [("x", [VInt 1; VInt 0])]
      = take_rows train (Frame 4 [("x", [VInt 1; VInt 0; VInt 1; VInt 0])]) /\
    Frame 2 [("x", [VInt 1; VInt 0])]
      = take_rows test (Frame 4 [("x", [VInt 1; VInt 0; VInt 1; VInt 0])]) /\
    [VInt 0; VInt 0]
      = take_labels train
          (to_numpy_flat (Frame 4 [(label, [VInt 1; VInt 1; VInt 0; VInt 0])]))
    /\
    [VInt 1; VInt 1]
      = take_labels test
          (to_numpy_flat (Frame 4 [(label, [VInt 1; VInt 1; VInt 0; VInt 0])]))
    /\
    nrows (Frame 2 [("x", [VInt 1; VInt 0])]) = test_count 4 /\
    nrows (Frame 2 [("x", [VInt 1; VInt 0])])
      + nrows (Frame 2 [("x", [VInt 1; VInt 0])]) = 4 /\
    1 <= nrows (Frame 2 [("x", [VInt 1; VInt 0])]) /\
    1 <= nrows (Frame 2 [("x", [VInt 1; VInt 0])]).
Proof.
  apply (partition_covers_rows trained_store (5 : @rng toy_x)
           (Frame 4 [("x", [VInt 1; VInt 0; VInt 1; VInt 0])])
           (Frame 4 [(label, [VInt 1; VInt 1; VInt 0; VInt 0])])
           (Frame 2 [("x", [VInt 1; VInt 0])])
           (Frame 2 [("x", [VInt 1; VInt 0])])
           [VInt 0; VInt 0] [VInt 1; VInt 1]);
    reflexivity.
Defined.

End CoverWitness.

Section OrderFacts.

Context `{L : Libraries} `{C : !Constants} `{T : !Tracking}.

Lemma opening_no_model k :
  Log_model "models" "LightGBM" ∉ take k opening.
Proof.
  unfold opening. intros H.
  do 3 (destruct k as [|k]; cbn [take] in H;
        [repeat (apply elem_of_cons in H as [H|H]; [discriminate H|]);
         by apply elem_of_nil in H|]).
  repeat (apply elem_of_cons in H as [H|H]; [discriminate H|]).
  rewrite take_nil in H. by apply elem_of_nil in H.
Qed.

Lemma opening_no_start k : k < 3 -> Start_run ∉ take k opening.
Proof.
  unfold opening. intros Hk H.
  do 3 (destruct k as [|k]; cbn [take] in H;
        [repeat (apply elem_of_cons in H as [H|H]; [discriminate H|]);
         by apply elem_of_nil in H|]).
  lia.
Qed.

(** The events of a call whose opening calls were accepted start with
    them. *)
Lemma opened_sent conn st g :
  is_Some (serve st opening) ->
  (exists parts, partition conn g = Ok parts) ->
  exists rest, sent (get_trained_model conn st g).2 = opening ++ rest.
Proof.
  intros [st3' Hs] [parts Hp].
  destruct (run_cases conn st g)
    as [(e & Hp' & Hrun)
       |[(parts' & x & st' & k & _ & Hs' & _)
        |[(X1 & X2 & y1 & y2 & st3 & e & k & wb & _ & _ & _ & Hsent
           & _ & Hrun)
         |(X1 & X2 & y1 & y2 & st3 & model & y_pred & st5 & rb & wb & _
           & _ & _ & _ & _ & Hb & Hrun)]]].
  - congruence.
  - congruence.
  - destruct (exit_run (Exn e) wb) as [r w] eqn:Hx. rewrite Hrun.
    destruct (exit_run_spec _ _ _ _ Hx) as (_ & [Hw|Hw] & _);
      cbn [snd]; rewrite Hw, Hsent.
    + by eexists.
    + rewrite <- app_assoc. by eexists.
  - destruct (exit_run rb wb) as [r w] eqn:Hx. rewrite Hrun.
    destruct (reached_spec _ _ _ _ _ _ _ _ _ Hb Hx)
      as (_ & _ & rest & tail & Hsent & _).
    cbn [snd]. rewrite Hsent.
    change prelude with (opening ++ [Log_model "models" "LightGBM";
                                     Log_params model_config]).
    rewrite <- app_assoc. by eexists.
Qed.

End OrderFacts.

(** X10.  A call of [get_trained_model] reaches the tracking service only
    after both tables were read and split: with a table missing it raises
    [DatabaseError], and with a target that has not as many cells as
    [features] has rows, or with fewer than two rows, it raises
    [ValueError], in both cases with nothing sent and the service and
    numpy's generator untouched.  Otherwise its first calls are
    [set_tracking_uri], [set_experiment] and [start_run], in this order and
    each only if the one before was accepted; a run is opened exactly when
    the service accepts the three, and a call one of whose opening calls is
    refused sends nothing after it. *)
Theorem run_opened_iff_split `{L : Libraries} `{C : !Constants}
    `{T : !Tracking}
    (conn : gmap string frame) (st : server) (g : rng) :
  match conn !! "features", conn !! "target" with
  | Some X, Some y =>
      if decide (length (to_numpy_flat y) = nrows X /\ 2 <= nrows X)
      then (Start_run ∈ sent (get_trained_model conn st g).2
            <-> is_Some (serve st opening)) /\
           exists k rest,
             sent (get_trained_model conn st g).2 = take k opening ++ rest /\
             (k < 3 -> rest = [] /\ serve st opening = None)
      else get_trained_model conn st g = (Exn ValueError, World st g [])
  | _, _ => get_trained_model conn st g = (Exn DatabaseError, World st g [])
  end.
Proof.
  destruct (conn !! "features") as [X|] eqn:HX.
  - destruct (conn !! "target") as [y|] eqn:Hy.
    + case_decide as Hok.
      * destruct Hok as [Hlen Hn].
        destruct (partition_succeeds conn g X y HX Hy Hlen Hn) as [parts Hp].
        destruct (serve st opening) as [st3|] eqn:Hs.
        -- destruct (opened_sent conn st g) as [rest Hrest];
             [by rewrite Hs|by exists parts|].
           rewrite Hrest. split.
           ++ split; [done|]. intros _. unfold opening.
              apply elem_of_app. left. by do 2 right; left.
           ++ exists 3, rest. split; [done|lia].
        -- destruct (run_not_opened conn st g parts Hp Hs)
             as (x & st' & k & Hk & ->). cbn [snd sent]. split.
           ++ split; [|by intros [? ?]].
              intros Hin. by apply opening_no_start in Hin.
           ++ exists k, []. by rewrite app_nil_r.
      * apply split_failure_silent.
        by apply (partition_fails_small conn g X y).
    + apply split_failure_silent.
      unfold partition, load_and_split, read_sql. by rewrite HX, Hy.
  - apply split_failure_silent.
    unfold partition, load_and_split, read_sql. by rewrite HX.
Qed.

Section OpenedWitness.

Local Existing Instance toy_x.
Local Existing Instance toy_x_constants.

(** A service that refuses the third call: the run is not opened. *)
Lemma run_opened_iff_split_witness :
  (Start_run ∈ sent (@get_trained_model toy_x toy_x_constants
                       (toy_tracking toy_x 2) trained_store 0 5).2
   <-> is_Some (@serve toy_x (toy_tracking toy_x 2) 0 opening)) /\
  exists k rest,
    sent (@get_trained_model toy_x toy_x_constants
            (toy_tracking toy_x 2) trained_store 0 5).2
    = take k opening ++ rest /\
    (k < 3 -> rest = [] /\
              @serve toy_x (toy_tracking toy_x 2) 0 opening = None).
Proof.
  exact (@run_opened_iff_split toy_x toy_x_constants (toy_tracking toy_x 2)
           trained_store 0 5).
Defined.

End OpenedWitness.

(** X11.  Whatever the tracking service does, a call of
    [get_trained_model] that has called a metric function or logged a
    metric has before that sent [set_tracking_uri], [set_experiment],
    [start_run], [log_model] and [log_params], in this order; and a call
    that has registered the model has split its tables, fitted the model on
    the train partition, and opened a run. *)
Theorem model_logged_before_metrics `{L : Libraries} `{C : !Constants}
    `{T : !Tracking}
    (conn : gmap string frame) (st : server) (g : rng) :
  (metric_calls (sent (get_trained_model conn st g).2) <> [] \/
   logged_metrics (sent (get_trained_model conn st g).2) <> [] ->
   exists rest, sent (get_trained_model conn st g).2 = prelude ++ rest) /\
  (Log_model "models" "LightGBM" ∈ sent (get_trained_model conn st g).2 ->
   exists X_train X_test y_train y_test model st3,
     partition conn g = Ok (X_train, X_test, y_train, y_test) /\
     fit model_config X_train y_train = Ok model /\
     serve st opening = Some st3).
Proof.
  destruct (run_cases conn st g)
    as [(e & Hp & Hrun)
       |[(parts & x & st' & k & Hp & Hs & Hk & Hrun)
        |[(X1 & X2 & y1 & y2 & st3 & e & k & wb & Hp & Hs3 & _ & Hsent
           & Hfit & Hrun)
         |(X1 & X2 & y1 & y2 & st3 & model & y_pred & st5 & rb & wb & Hp
           & Hs3 & Hf & _ & _ & Hb & Hrun)]]].
  - rewrite Hrun. cbn [snd sent]. split.
    + intros [?|?]; done.
    + intros H. by apply elem_of_nil in H.
  - rewrite Hrun. cbn [snd sent].
    destruct (opening_quiet k) as [-> ->]. split.
    + intros [?|?]; done.
    + intros H. by apply opening_no_model in H.
  - destruct (exit_run (Exn e) wb) as [r w] eqn:Hx. rewrite Hrun.
    destruct (exit_run_spec _ _ _ _ Hx) as (_ & Hw & Hc & Hl & _).
    cbn [snd]. rewrite Hc, Hl.
    assert (Hq : metric_calls (sent wb) = [] /\ logged_metrics (sent wb) = []).
    { rewrite Hsent, metric_calls_app, logged_metrics_app. unfold opening.
      cbn [metric_calls logged_metrics flat_map app].
      by do 3 (destruct k as [|k]; [done|]). }
    destruct Hq as [-> ->]. split; [intros [?|?]; done|].
    intros Hin.
    assert (Hk : 1 <= k).
    { destruct k as [|k]; [exfalso|lia]. cbn [take] in Hsent.
      rewrite app_nil_r in Hsent.
      destruct Hw as [Hw|Hw]; rewrite Hw, Hsent in Hin.
      - by apply (opening_no_model 3) in Hin.
      - apply elem_of_app in Hin as [Hin|Hin].
        + by apply (opening_no_model 3) in Hin.
        + apply list_elem_of_singleton in Hin. discriminate Hin. }
    destruct (Hfit Hk) as [model Hf].
    by exists X1, X2, y1, y2, model, st3.
  - destruct (exit_run rb wb) as [r w] eqn:Hx. rewrite Hrun.
    destruct (reached_spec _ _ _ _ _ _ _ _ _ Hb Hx)
      as (_ & _ & rest & tail & Hsent & _).
    cbn [snd]. split.
    + intros _. rewrite Hsent. by eexists.
    + intros _. by exists X1, X2, y1, y2, model, st3.
Qed.

Section ModelLoggedWitness.

Local Existing Instance toy_x.
Local Existing Instance toy_x_constants.

(** A call whose fifth [log_metric] is refused. *)
Lemma model_logged_before_metrics_witness :
  exists rest,
    sent (@get_trained_model toy_x toy_x_constants toy_x_refusing
            trained_store 0 5).2 = prelude ++ rest.
Proof.
  apply (proj1 (@model_logged_before_metrics toy_x toy_x_constants
                  toy_x_refusing trained_store 0 5)).
  right. by vm_compute.
Defined.

End ModelLoggedWitness.

(** ** The confusion matrices *)

Section MatrixFacts.

Lemma length_unique (y : list value) :
  length (unique y) = length (remove_dups y).
Proof.
  unfold unique. apply Permutation_length, sort_values_perm.
Qed.

Lemma length_unique_app_r (a b : list value) :
  length (unique b) <= length (unique (a ++ b)).
Proof.
  rewrite !length_unique. apply submseteq_length, NoDup_submseteq.
  - apply NoDup_remove_dups.
  - intros x. rewrite !elem_of_remove_dups, elem_of_app. auto.
Qed.

Lemma cell_defined (a b : list value) i j :
  i < length (unique (a ++ b)) -> j < length (unique (a ++ b)) ->
  exists z, cell (confusion_matrix a b) i j = Ok z.
Proof.
  intros Hi Hj. unfold cell, confusion_matrix.
  apply lookup_lt_is_Some_2 in Hi as [li Hi].
  apply lookup_lt_is_Some_2 in Hj as [lj Hj].
  rewrite list_lookup_fmap, Hi. simpl. rewrite list_lookup_fmap, Hj. simpl.
  by eexists.
Qed.

(** The order of [value_leb] is a total order on cells. *)
Lemma string_leb_spec s t :
  String.leb s t = true <->
  s = t \/ OrderedTypeEx.String_as_OT.lt s t.
Proof.
  unfold String.leb.
  change (String.compare s t) with (OrderedTypeEx.String_as_OT.cmp s t).
  destruct (OrderedTypeEx.String_as_OT.cmp s t) eqn:E.
  - apply OrderedTypeEx.String_as_OT.cmp_eq in E. tauto.
  - apply OrderedTypeEx.String_as_OT.cmp_lt in E. tauto.
  - split; [done|]. intros [->|Hlt].
    + assert (OrderedTypeEx.String_as_OT.cmp t t = Eq)
        by by apply OrderedTypeEx.String_as_OT.cmp_eq.
      congruence.
    + apply OrderedTypeEx.String_as_OT.cmp_lt in Hlt. congruence.
Qed.

Lemma string_leb_trans s t u :
  String.leb s t = true -> String.leb t u = true -> String.leb s u = true.
Proof.
  rewrite !string_leb_spec. intros [->|H1] [->|H2]; auto.
  right. by apply (OrderedTypeEx.String_as_OT.lt_trans s t u).
Qed.

Global Instance value_le_trans : Transitive value_le.
Proof.
  unfold value_le. intros [|x|s] [|y|t] [|z|u]; simpl; try done.
  - intros H1 H2. apply Z.leb_le in H1, H2. apply Z.leb_le. lia.
  - apply string_leb_trans.
Qed.

Global Instance value_le_antisym : AntiSymm (=) value_le.
Proof.
  unfold value_le. intros [|x|s] [|y|t]; simpl; try done.
  - intros H1 H2. apply Z.leb_le in H1, H2. f_equal. lia.
  - intros H1 H2. f_equal. by apply String.leb_antisym.
Qed.

Lemma value_leb_total a b : value_leb a b = true \/ value_leb b a = true.
Proof.
  destruct a as [|x|s], b as [|y|t]; simpl; auto.
  - destruct (Z.leb_spec x y); [by left|right]. apply Z.leb_le. lia.
  - apply String.leb_total.
Qed.

Lemma Sorted_insert_sorted v l :
  Sorted value_le l -> Sorted value_le (insert_sorted v l).
Proof.
  induction 1 as [|w l Hl IH Hhd]; simpl.
  - by repeat constructor.
  - destruct (value_leb v w) eqn:E.
    + constructor; [by constructor|]. by constructor.
    + constructor; [exact IH|].
      assert (Hwv : value_le w v).
      { destruct (value_leb_total v w) as [H|H]; [congruence|done]. }
      destruct l as [|u l]; simpl.
      * by constructor.
      * inversion Hhd; subst. destruct (value_leb v u); by constructor.
Qed.

Lemma Sorted_sort_values l : Sorted value_le (sort_values l).
Proof.
  induction l as [|v l IH]; simpl; [constructor|].
  by apply Sorted_insert_sorted.
Qed.

(** The sorted labels do not depend on the order of the two vectors. *)
Lemma unique_app_comm (a b : list value) : unique (a ++ b) = unique (b ++ a).
Proof.
  unfold unique. apply (Sorted_unique value_le).
  - apply Sorted_sort_values.
  - apply Sorted_sort_values.
  - rewrite !sort_values_perm. apply NoDup_Permutation.
    + apply NoDup_remove_dups.
    + apply NoDup_remove_dups.
    + intros x. rewrite !elem_of_remove_dups, !elem_of_app. tauto.
Qed.

Lemma count_pairs_swap x y (a : list value) : forall b,
  count_pairs x y a b = count_pairs y x b a.
Proof.
  unfold count_pairs. induction a as [|u a IH]; intros [|w b]; simpl;
    try done.
  specialize (IH b). apply Nat2Z.inj in IH.
  destruct (decide ((u, w) = (x, y))) as [Heq|Hne].
  - inversion Heq; subst.
    rewrite (filter_cons_True (fun p => p = (x, y))) by done.
    rewrite (filter_cons_True (fun p => p = (y, x))) by done.
    simpl. by rewrite IH.
  - rewrite (filter_cons_False (fun p => p = (x, y))) by done.
    rewrite (filter_cons_False (fun p => p = (y, x)))
      by (intros Heq; inversion Heq; by subst).
    by rewrite IH.
Qed.

End MatrixFacts.

(** X12.  Once [roc_auc_score] has returned a value, the four cells
    [cm[0][0]], [cm[1][0]], [cm[1][1]] and [cm[0][1]] of the second
    confusion matrix exist: the predictions then hold two classes, so the
    matrix has at least two rows and columns, and the indexing cannot
    raise. *)
Theorem counts_defined_after_auc `{L : Libraries}
    (y_pred y_test : list value) (auc : real) :
  roc_auc y_pred y_test = Ok auc ->
  exists tn fn tp fp,
    cell (confusion_matrix y_test y_pred) 0 0 = Ok tn /\
    cell (confusion_matrix y_test y_pred) 1 0 = Ok fn /\
    cell (confusion_matrix y_test y_pred) 1 1 = Ok tp /\
    cell (confusion_matrix y_test y_pred) 0 1 = Ok fp.
Proof.
  unfold roc_auc. intros Hauc.
  destruct (length (unique y_pred) =? 2)%nat eqn:E; [|done].
  apply Nat.eqb_eq in E.
  pose proof (length_unique_app_r y_test y_pred) as Hlen.
  destruct (cell_defined y_test y_pred 0 0) as [tn Htn]; [lia|lia|].
  destruct (cell_defined y_test y_pred 1 0) as [fn Hfn]; [lia|lia|].
  destruct (cell_defined y_test y_pred 1 1) as [tp Htp]; [lia|lia|].
  destruct (cell_defined y_test y_pred 0 1) as [fp Hfp]; [lia|lia|].
  by exists tn, fn, tp, fp.
Qed.

Section CountsWitness.

Local Existing Instance toy_x.

Lemma counts_defined_after_auc_witness :
  exists tn fn tp fp,
    cell (confusion_matrix [VInt 1; VInt 1] [VInt 1; VInt 0]) 0 0 = Ok tn /\
    cell (confusion_matrix [VInt 1; VInt 1] [VInt 1; VInt 0]) 1 0 = Ok fn /\
    cell (confusion_matrix [VInt 1; VInt 1] [VInt 1; VInt 0]) 1 1 = Ok tp /\
    cell (confusion_matrix [VInt 1; VInt 1] [VInt 1; VInt 0]) 0 1 = Ok fp.
Proof.
  apply (counts_defined_after_auc [VInt 1; VInt 0] [VInt 1; VInt 1]
           (0%Z : @real toy_x)).
  reflexivity.
Defined.

End CountsWitness.

(** X13.  The two confusion matrices of [get_trained_model] are transposes
    of each other: cell [i][j] of the matrix on (predicted, actual) is cell
    [j][i] of the matrix on (actual, predicted), and one is out of range
    exactly when the other is.  So the logged false-negative count
    [cm[1][0]] is cell [0][1] of the main matrix [conf_mat]. *)
Theorem confusion_matrix_transpose (y_pred y_test : list value) (i j : nat) :
  cell (confusion_matrix y_pred y_test) i j
  = cell (confusion_matrix y_test y_pred) j i.
Proof.
  unfold cell, confusion_matrix.
  rewrite (unique_app_comm y_pred y_test), !list_lookup_fmap.
  destruct (unique (y_test ++ y_pred) !! i) as [li|] eqn:Ei;
    destruct (unique (y_test ++ y_pred) !! j) as [lj|] eqn:Ej; simpl;
    rewrite ?list_lookup_fmap, ?Ei, ?Ej; simpl; try done.
  by rewrite count_pairs_swap.
Qed.

Section CountFacts.

Lemma four_way_count (l0 l1 : value) (ps : list (value * value)) :
  l0 <> l1 ->
  (forall p, p ∈ ps -> (p.1 = l0 \/ p.1 = l1) /\ (p.2 = l0 \/ p.2 = l1)) ->
  length (filter (fun p => p = (l0, l0)) ps)
  + length (filter (fun p => p = (l1, l0)) ps)
  + length (filter (fun p => p = (l1, l1)) ps)
  + length (filter (fun p => p = (l0, l1)) ps)
  = length ps.
Proof.
  intros Hne. induction ps as [|[a b] ps IH]; intros Hin; [done|].
  assert (IH' := IH (fun p Hp => Hin p (list_elem_of_further _ _ _ Hp))).
  destruct (Hin (a, b) (list_elem_of_here _ _)) as [Ha Hb]. simpl in Ha, Hb.
  rewrite !filter_cons.
  destruct Ha as [-> | ->], Hb as [-> | ->];
    repeat case_decide; try congruence; simpl length; lia.
Qed.

End CountFacts.

(** X14.  When the actual and the predicted labels of the test rows hold
    exactly two classes between them, the four counts read from the second
    confusion matrix (true and false negatives, true and false positives)
    add up to the number of test rows: every test row is counted in exactly
    one of them. *)
Theorem counts_sum_to_test_rows (y_pred y_test : list value)
    (tn fn tp fp : Z) :
  length y_test = length y_pred ->
  length (unique (y_test ++ y_pred)) = 2 ->
  cell (confusion_matrix y_test y_pred) 0 0 = Ok tn ->
  cell (confusion_matrix y_test y_pred) 1 0 = Ok fn ->
  cell (confusion_matrix y_test y_pred) 1 1 = Ok tp ->
  cell (confusion_matrix y_test y_pred) 0 1 = Ok fp ->
  (tn + fn + tp + fp)%Z = Z.of_nat (length y_test).
Proof.
  intros Hlen Htwo. unfold cell, confusion_matrix.
  assert (Hperm : unique (y_test ++ y_pred) ≡ₚ remove_dups (y_test ++ y_pred))
    by apply sort_values_perm.
  destruct (unique (y_test ++ y_pred)) as [|l0 [|l1 [|? ?]]] eqn:Hu;
    try done.
  simpl. intros [= <-] [= <-] [= <-] [= <-].
  assert (Hnd : NoDup [l0; l1]).
  { rewrite Hperm. apply NoDup_remove_dups. }
  assert (Hne : l0 <> l1).
  { apply NoDup_cons in Hnd as [Hnin _]. intros ->. apply Hnin. left. }
  assert (Hmem : forall v, v ∈ y_test ++ y_pred -> v = l0 \/ v = l1).
  { intros v Hv. apply elem_of_remove_dups in Hv. rewrite <- Hperm in Hv.
    apply elem_of_cons in Hv as [->|Hv]; [by left|].
    apply list_elem_of_singleton in Hv. by right. }
  unfold count_pairs.
  rewrite <- !Nat2Z.inj_add. f_equal.
  rewrite (four_way_count l0 l1 (zip y_test y_pred) Hne).
  - by apply length_zip_with_l_eq.
  - intros [a b] Hp. simpl. split; apply Hmem, elem_of_app.
    + left. by apply (elem_of_zip_l a b _ y_pred).
    + right. by apply (elem_of_zip_r a b y_test).
Qed.

Lemma counts_sum_to_test_rows_witness :
  (1 + 1 + 1 + 0)%Z = Z.of_nat (length [VInt 0; VInt 1; VInt 1]).
Proof.
  apply (counts_sum_to_test_rows [VInt 0; VInt 1; VInt 0]
           [VInt 0; VInt 1; VInt 1]); reflexivity.
Defined.
